(** * api-documenter: the HTML emitter and the HTML documenter

    A shallow embedding of [src/html/HtmlEmitter.ts] and of
    [src/documenters/HtmlDocumenter.ts], and the properties of the
    page generator that are stated about them.

    - JavaScript objects that are only read are plain values;
    - the emitter, whose methods mutate it and may throw, is a state
      with effectful methods: a method call maps the state before the
      call to the state after it together with how the call ended;
    - the console and the file system are a second state, threaded
      through the documenter in the same way;
    - the API model of api-extractor is a store read through handles. *)

From Stdlib Require Import String Ascii List ZArith Lia Bool Arith.
From Stdlib Require Import DecimalString DecimalPos DecimalZ.
Import ListNotations.

Set Warnings "-register-all".
Local Open Scope string_scope.
Local Open Scope list_scope.

Notation "s1 +:+ s2" := (String.append s1 s2)
  (at level 60, right associativity) : string_scope.

(* ================================================================= *)
(** ** Effects *)

(** What a JavaScript call can end with.  [JsError] is
    [throw new Error(message)]; [JsTypeError] is the run-time error of
    reading a property of [undefined] or iterating it. *)
Inductive Error : Type :=
| JsError (message : string)
| JsTypeError (what : string).

(** [OutOfFuel] is not a JavaScript outcome: it marks a run of the
    recursive page generator cut by its recursion bound. *)
Inductive Outcome (A : Type) : Type :=
| Returned (a : A)
| Thrown (e : Error)
| OutOfFuel.
Arguments Returned {A} a.
Arguments Thrown {A} e.
Arguments OutOfFuel {A}.

Definition Eff (S A : Type) : Type := S -> S * Outcome A.

Definition ret {S A : Type} (a : A) : Eff S A := fun s => (s, Returned a).

Definition bind {S A B : Type} (m : Eff S A) (k : A -> Eff S B) : Eff S B :=
  fun s =>
    match m s with
    | (s', Returned a) => k a s'
    | (s', Thrown e) => (s', Thrown e)
    | (s', OutOfFuel) => (s', OutOfFuel)
    end.

Definition throw {S A : Type} (e : Error) : Eff S A := fun s => (s, Thrown e).

Definition gets {S A : Type} (f : S -> A) : Eff S A := fun s => (s, Returned (f s)).

Definition modify {S : Type} (f : S -> S) : Eff S unit := fun s => (f s, Returned tt).

Notation "x <- m ;; k" := (bind m (fun x => k))
  (at level 61, m at next level, right associativity).
Notation "m ;;; k" := (bind m (fun _ => k))
  (at level 61, right associativity).

(** [for (const x of xs) body(x)] and [xs.forEach(body)], with an
    accumulator for the local variables that the loop body updates. *)
Section ForEach.
Context {S A X : Type}.
Variable body : A -> X -> Eff S A.

Fixpoint forEach (xs : list X) (acc : A) : Eff S A :=
  match xs with
  | [] => ret acc
  | x :: rest => acc' <- body acc x ;; forEach rest acc'
  end.
End ForEach.

(** A method call [obj.m(...)] on a local object [obj] from code that
    runs in another state [W]: the object after the call comes back
    with the result, and what the method throws is thrown on. *)
Definition call {W S A : Type} (obj : S) (m : Eff S A) : Eff W (S * A) :=
  fun w =>
    match m obj with
    | (obj', Returned r) => (w, Returned (obj', r))
    | (_, Thrown e) => (w, Thrown e)
    | (_, OutOfFuel) => (w, OutOfFuel)
    end.

Definition send {W S : Type} (obj : S) (m : Eff S unit) : Eff W S :=
  r <- call obj m ;; ret (fst r).

(* ================================================================= *)
(** ** HtmlEmitter.ts: nodes *)

(** [Attributes]: the keys in insertion order. *)
Definition Attributes : Type := list (string * string).

(** [HtmlNode], by the three interfaces that refine it: [BlockHtmlNode]
    (content is an array), [TextHtmlNode] (content is a string) and
    [SingleHtmlNode] (no content).  [UndefinedNode] is the value
    [undefined] sitting in an array of nodes, which is what reading
    index 0 of an empty array puts there. *)
Inductive HtmlNode : Type :=
| BlockNode (type : string) (attributes : option Attributes) (content : list HtmlNode)
| TextNode (type : string) (attributes : option Attributes) (content : string)
| SingleNode (type : string) (attributes : option Attributes)
| UndefinedNode.

Record BlockHtmlNode : Type := mkBlock {
  type : string;
  attributes : option Attributes;
  content : list HtmlNode
}.

Definition block (b : BlockHtmlNode) : HtmlNode :=
  BlockNode (type b) (attributes b) (content b).

(** [b.content.push(child)] *)
Definition content_push (b : BlockHtmlNode) (child : HtmlNode) : BlockHtmlNode :=
  mkBlock (type b) (attributes b) (content b ++ [child]).

(** The untyped arguments [arg1], [arg2] of [tag]. *)
Inductive TagArg : Type :=
| ArgUndefined
| ArgString (s : string)
| ArgNodes (l : list HtmlNode).

(** JavaScript truthiness of a string. *)
Definition truthyString (s : string) : bool := negb (s =? "").

(** [if (arg2)]: an array is truthy even when empty, the empty string
    and [undefined] are not. *)
Definition truthy (a : TagArg) : bool :=
  match a with
  | ArgUndefined => false
  | ArgString s => truthyString s
  | ArgNodes _ => true
  end.

Definition classAttributes (className : option string) : option Attributes :=
  match className with
  | Some c => if truthyString c then Some [("class", c)] else None
  | None => None
  end.

Definition _tag (type : string) (className : option string) (content : TagArg)
  : HtmlNode :=
  match content with
  | ArgNodes l => BlockNode type (classAttributes className) l
  | ArgString s => TextNode type (classAttributes className) s
  | ArgUndefined => SingleNode type (classAttributes className)
  end.

(** [tag(type, arg1?, arg2?)].  When [arg2] is truthy, [arg1] is the
    class name, a string by every overload. *)
Definition tag (type : string) (arg1 arg2 : TagArg) : HtmlNode :=
  if truthy arg2 then
    _tag type (match arg1 with ArgString c => Some c | _ => None end) arg2
  else
    _tag type None arg1.

(** The overloads of [tag] that return a [BlockHtmlNode]:
    [tag(type, content)] and [tag(type, className, content)] with an
    array for [content]. *)
Definition tagBlock (type : string) (className : option string)
  (content : list HtmlNode) : BlockHtmlNode :=
  mkBlock type (classAttributes className) content.

Definition table (headings : list string) : BlockHtmlNode :=
  tagBlock "table" None
    [ block (tagBlock "thead" None
        [ block (tagBlock "tr" None
            (map (fun h => tag "th" (ArgString h) ArgUndefined) headings)) ]) ].

(** A cell handed to [tr]: a string or a node ([CellNode UndefinedNode]
    when the caller hands over [undefined], whose [typeof] is not
    ['string'] either). *)
Inductive Cell : Type :=
| CellString (s : string)
| CellNode (n : HtmlNode).

Definition tr (cells : list Cell) : BlockHtmlNode :=
  tagBlock "tr" None
    (map (fun c =>
            match c with
            | CellString s => tag "td" (ArgString s) ArgUndefined
            | CellNode n => tag "td" (ArgNodes [n]) ArgUndefined
            end) cells).

Definition a (text href : string) (className : option string) : HtmlNode :=
  match className with
  | Some c =>
      if truthyString c
      then TextNode "a" (Some [("class", c); ("href", href)]) text
      else TextNode "a" (Some [("href", href)]) text
  | None => TextNode "a" (Some [("href", href)]) text
  end.

(* ================================================================= *)
(** ** HtmlEmitter.ts: the emitter *)

(** The emitter keeps the open nodes in [_root] (the synthetic root
    first) and the innermost of them in [_current]; every open node is
    also the last child of the one opened before it.  Here [_current]
    is the innermost open node and [_parents] the others, nearest
    first: [_root] is [rev _parents ++ [_current]] and
    [_root.length] is [S (length _parents)].  A parent holds the
    children it had when the next node was opened; [root] puts the
    open nodes back as last children. *)
Record HtmlEmitter : Type := mkEmitter {
  _current : BlockHtmlNode;
  _parents : list BlockHtmlNode;
  _styles : list string
}.

(** [new HtmlEmitter(rootTag)] *)
Definition newEmitter (rootTag : string) : HtmlEmitter :=
  mkEmitter (mkBlock rootTag None []) [] [].

Definition defaultRootTag : string := "body".

Definition addStyle (style : string) : Eff HtmlEmitter unit :=
  modify (fun e => mkEmitter (_current e) (_parents e) (_styles e ++ [style])).

Definition appendChild (child : HtmlNode) : Eff HtmlEmitter unit :=
  modify (fun e => mkEmitter (content_push (_current e) child) (_parents e) (_styles e)).

Definition closeNode (name : string) : Eff HtmlEmitter unit :=
  fun e =>
    if negb (type (_current e) =? name) then
      throw (JsError ("Unexpected closing tag. Expected: " +:+ type (_current e)
                        +:+ " Actual: " +:+ name)) e
    else
      match _parents e with
      | [] => throw (JsError ("Unexpected closing tag: " +:+ name)) e
      | parent :: rest =>
          (mkEmitter (content_push parent (block (_current e))) rest (_styles e),
           Returned tt)
      end.

Definition openNode (child : BlockHtmlNode) (fn : option (Eff HtmlEmitter unit))
  : Eff HtmlEmitter unit :=
  modify (fun e => mkEmitter child (_current e :: _parents e) (_styles e)) ;;;
  match fn with
  | Some f => f ;;; closeNode (type child)
  | None => ret tt
  end.

(** The object [this._root[0]]: the open nodes put back into their
    parents. *)
Fixpoint plug (current : BlockHtmlNode) (parents : list BlockHtmlNode)
  : BlockHtmlNode :=
  match parents with
  | [] => current
  | parent :: rest => plug (content_push parent (block current)) rest
  end.

Definition root (e : HtmlEmitter) : BlockHtmlNode :=
  plug (_current e) (_parents e).

(** The argument of [new HtmlCreator(...)] in [emit]. *)
Definition emitDocument (e : HtmlEmitter) : list HtmlNode :=
  [ tag "head"
      (ArgNodes (map (fun s => SingleNode "link"
                                 (Some [("rel", "stylesheet"); ("type", "text/css"); ("href", s)]))
                     (_styles e)))
      ArgUndefined;
    block (root e) ].

(** [emit()]; [renderHTML] is the method of the html-creator package. *)
Definition emit (renderHTML : list HtmlNode -> string) : Eff HtmlEmitter string :=
  gets (fun e => renderHTML (emitDocument e)).

(* ================================================================= *)
(** ** The API model and the doc comments, as the documenter reads them *)

(** [ApiItemKind] of api-extractor-model ([Variable_] is
    [ApiItemKind.Variable], [NoKind] is [ApiItemKind.None]). *)
Inductive ApiItemKind : Type :=
| CallSignature | Class | Constructor | ConstructSignature | EntryPoint
| Enum | EnumMember | Function | IndexSignature | Interface | Method
| MethodSignature | Model | Namespace | Package | Property
| PropertySignature | TypeAlias | Variable_ | NoKind.

Scheme Equality for ApiItemKind.

(** The string value of each member of the enumeration. *)
Definition kindName (k : ApiItemKind) : string :=
  match k with
  | CallSignature => "CallSignature" | Class => "Class"
  | Constructor => "Constructor" | ConstructSignature => "ConstructSignature"
  | EntryPoint => "EntryPoint" | Enum => "Enum" | EnumMember => "EnumMember"
  | Function => "Function" | IndexSignature => "IndexSignature"
  | Interface => "Interface" | Method => "Method"
  | MethodSignature => "MethodSignature" | Model => "Model"
  | Namespace => "Namespace" | Package => "Package" | Property => "Property"
  | PropertySignature => "PropertySignature" | TypeAlias => "TypeAlias"
  | Variable_ => "Variable" | NoKind => "None"
  end.

Inductive ExcerptTokenKind : Type := ContentToken | ReferenceToken.

Record ExcerptToken : Type := mkToken {
  tokenKind : ExcerptTokenKind;
  tokenText : string
}.

Inductive ReleaseTag : Type :=
| ReleaseNone | ReleaseInternal | ReleaseAlpha | ReleaseBeta | ReleasePublic.

Inductive NewlineKind : Type := CrLf | Lf | OsDefault.

(** A [DocDeclarationReference], by the text [emitAsTsdoc()] gives. *)
Record DocDeclarationReference : Type := mkReference {
  emitAsTsdoc : string
}.

(** The doc nodes by [DocNodeKind]; [DocOtherNode] is every kind the
    translator has no case for. *)
Inductive DocNode : Type :=
| DocParagraph (nodes : list DocNode)
| DocBlockNode (nodes : list DocNode)
| DocInlineTag (tagName : string)
| DocSoftBreak
| DocCodeSpan (code : string)
| DocFencedCode (code : string)
| DocEscapedText (decodedText : string)
| DocLinkTag (linkText : option string) (urlDestination : option string)
    (codeDestination : option DocDeclarationReference)
| DocPlainText (text : string)
| DocHtmlStartTag (name : string)
| DocHtmlEndTag (name : string)
| DocOtherNode (kind : string).

(** A [DocBlock] as a field of a comment: [blockTag.tagNameWithUpperCase]
    and [content.nodes]. *)
Record DocBlock : Type := mkDocBlock {
  tagNameWithUpperCase : string;
  blockNodes : list DocNode
}.

Record DocComment : Type := mkDocComment {
  summarySection : list DocNode;
  remarksBlock : option DocBlock;
  returnsBlock : option DocBlock;
  customBlocks : list DocBlock
}.

(** [Parameter] of api-extractor-model *)
Record Parameter_ : Type := mkParameter {
  parameterName : string;
  parameterTypeExcerpt : string;
  tsdocParamBlock : option DocBlock
}.

(** [ApiParameterListMixin] *)
Record ParameterList : Type := mkParameterList {
  overloadIndex : Z;
  parameters : list Parameter_
}.

(** [ApiDeclaredItem]: [excerpt.text] and [getExcerptWithModifiers()] *)
Record Declared : Type := mkDeclared {
  excerptText : string;
  excerptWithModifiers : string
}.

(** [ApiPropertyItem] *)
Record PropertyItem : Type := mkPropertyItem {
  isEventProperty : bool;
  propertyTypeExcerpt : string
}.

(** An entity is a handle into the model; two handles are the same
    entity when they are equal. *)
Definition ApiItem : Type := nat.

(** What the documenter reads of an entity.  A mixin or subclass the
    entity does not have is [None] (or [false]). *)
Record ApiItemData : Type := mkApiItem {
  kind : ApiItemKind;
  displayName : string;
  scopedNameWithinPackage : string;
  hierarchy : list ApiItem;
  mergedSiblings : list ApiItem;
  members : list ApiItem;
  entryPoints : list ApiItem;
  isDocumentedItem : bool;
  tsdocComment : option DocComment;
  releaseTag : option ReleaseTag;
  declared : option Declared;
  extendsType : option (list ExcerptToken);
  isStatic : option bool;
  propertyItem : option PropertyItem;
  parameterList : option ParameterList;
  returnTypeExcerpt : option string;
  initializerExcerpt : option string
}.

Record IResolveDeclarationReferenceResult : Type := mkResolved {
  resolvedApiItem : option ApiItem;
  errorMessage : option string
}.

(** What the documenter is given and what it calls outside of the two
    modelled files. *)
Record Externals : Type := mkExternals {
  api_ : ApiItem -> ApiItemData;
  apiModel_ : ApiItem;
  resolveDeclarationReference_ :
    DocDeclarationReference -> ApiItem -> IResolveDeclarationReferenceResult;
  getSafeFilenameForName_ : string -> string;
  getUnscopedName_ : string -> string;
  getConciseSignature_ : ApiItem -> string;
  renderHTML_ : list HtmlNode -> string;
  pathJoin_ : string -> string -> string;
  trim_ : string -> string;
  outputFolder_ : string;
  newlineKind_ : NewlineKind
}.

(** The console and the files written, oldest first. *)
Record FileWrite : Type := mkFileWrite {
  filePath : string;
  fileContents : string;
  convertLineEndings : NewlineKind
}.

Record World : Type := mkWorld {
  console : list string;
  files : list FileWrite
}.

Definition console_log (line : string) : Eff World unit :=
  modify (fun w => mkWorld (console w ++ [line]) (files w)).

Definition writeFile (path contents : string) (newlines : NewlineKind)
  : Eff World unit :=
  modify (fun w => mkWorld (console w) (files w ++ [mkFileWrite path contents newlines])).

(** [class CustomHtmlEmitter extends HtmlEmitter] *)
Record CustomHtmlEmitter : Type := mkCustom {
  emitter : HtmlEmitter;
  contextApiItem : ApiItem
}.

Definition newCustomHtmlEmitter (contextApiItem : ApiItem) : CustomHtmlEmitter :=
  mkCustom (newEmitter defaultRootTag) contextApiItem.

(** A call of an inherited method on a [CustomHtmlEmitter]. *)
Definition sendTo {W : Type} (output : CustomHtmlEmitter) (m : Eff HtmlEmitter unit)
  : Eff W CustomHtmlEmitter :=
  e <- send (emitter output) m ;; ret (mkCustom e (contextApiItem output)).

(** [`${n}`] for an integer [n]. *)
Definition decimal (n : Z) : string := NilZero.string_of_int (Z.to_int n).

(** [a || b] on strings that may be [undefined]. *)
Definition orElse (s : option string) (other : string) : string :=
  match s with
  | Some t => if truthyString t then t else other
  | None => other
  end.

Definition truthyOption (s : option string) : bool :=
  match s with
  | Some t => truthyString t
  | None => false
  end.

(** The character of code 34, the double quote. *)
Definition doubleQuote : string := String (ascii_of_nat 34) EmptyString.

(** The tables a function fills are local variables of it; here they
    are one map from the name of the variable to the table. *)
Module ContainerTables.
Inductive name : Type :=
| classesTable | enumerationsTable | functionsTable | interfacesTable
| exceptionsTable | namespacesTable | variablesTable | typeAliasesTable.
Scheme Equality for name.
End ContainerTables.

Module ClassTables.
Inductive name : Type :=
| eventsTable | constructorsTable | propertiesTable | methodsTable.
Scheme Equality for name.
End ClassTables.

Module InterfaceTables.
Inductive name : Type :=
| eventsTable | propertiesTable | methodsTable.
Scheme Equality for name.
End InterfaceTables.

(** [tables[t].content.push(row)] *)
Definition pushRow {T : Type} (T_beq : T -> T -> bool) (t : T) (row : BlockHtmlNode)
  (tables : T -> BlockHtmlNode) : T -> BlockHtmlNode :=
  fun t' => if T_beq t t' then content_push (tables t') (block row) else tables t'.

(* ================================================================= *)
(** ** HtmlDocumenter.ts *)

Section HtmlDocumenter.

Variable X : Externals.

Local Abbreviation api := (api_ X).
Local Abbreviation getSafeFilenameForName := (getSafeFilenameForName_ X).
Local Abbreviation getUnscopedName := (getUnscopedName_ X).
Local Abbreviation getConciseSignature := (getConciseSignature_ X).

(** *** File names *)

(** The name of one level of the hierarchy, with the suffix of an
    overload. *)
Definition qualifiedNameOf (hierarchyItem : ApiItem) : string :=
  let qualifiedName := getSafeFilenameForName (displayName (api hierarchyItem)) in
  match parameterList (api hierarchyItem) with
  | Some pl =>
      if (1 <? overloadIndex pl)%Z
      then qualifiedName +:+ "_" +:+ decimal (overloadIndex pl - 1)
      else qualifiedName
  | None => qualifiedName
  end.

(** One turn of the loop over [apiItem.getHierarchy()]. *)
Definition baseNameStep (baseName : string) (hierarchyItem : ApiItem) : string :=
  let qualifiedName := qualifiedNameOf hierarchyItem in
  match kind (api hierarchyItem) with
  | Model | EntryPoint => baseName
  | Package =>
      getSafeFilenameForName (getUnscopedName (displayName (api hierarchyItem)))
  | _ => baseName +:+ "." +:+ qualifiedName
  end.

Definition _getFilenameForApiItem (apiItem : ApiItem) : string :=
  match kind (api apiItem) with
  | Model => "index.html"
  | _ => fold_left baseNameStep (hierarchy (api apiItem)) "" +:+ ".html"
  end.

Definition _getLinkFilenameForApiItem (apiItem : ApiItem) : string :=
  "./" +:+ _getFilenameForApiItem apiItem.

(** *** Doc nodes to markup *)

(** [_createDocNodes], given how one node is translated into the
    emitter [result]. *)
Definition createDocNodesWith
  (translate : HtmlEmitter -> DocNode -> Eff World HtmlEmitter)
  (nodes : list DocNode) : Eff World (list HtmlNode) :=
  result <- forEach translate nodes (newEmitter defaultRootTag) ;;
  ret (content (root result)).

(** The body of the [switch (node.kind)] of [_createDocNodes]. *)
Fixpoint translateDocNode (contextApiItem : ApiItem) (result : HtmlEmitter)
  (node : DocNode) {struct node} : Eff World HtmlEmitter :=
  match node with
  | DocParagraph nodes =>
      children <- createDocNodesWith (translateDocNode contextApiItem) nodes ;;
      send result (appendChild (tag "p" (ArgNodes children) ArgUndefined))
  | DocBlockNode nodes =>
      children <- createDocNodesWith (translateDocNode contextApiItem) nodes ;;
      send result (appendChild (tag "div" (ArgNodes children) ArgUndefined))
  | DocInlineTag tagName =>
      send result (appendChild (tag "span" (ArgString tagName) ArgUndefined))
  | DocSoftBreak => ret result
  | DocCodeSpan code =>
      send result (appendChild (tag "code" (ArgString code) ArgUndefined))
  | DocFencedCode code =>
      send result (appendChild (tag "pre" (ArgString code) ArgUndefined))
  | DocEscapedText decodedText =>
      send result (appendChild (tag "span" (ArgString decodedText) ArgUndefined))
  | DocLinkTag linkText urlDestination codeDestination =>
      if truthyOption urlDestination then
        let url := orElse urlDestination "" in
        send result (appendChild (a (orElse linkText url) url None))
      else
        match codeDestination with
        | Some destination =>
            let lookup := resolveDeclarationReference_ X destination contextApiItem in
            match resolvedApiItem lookup with
            | Some resolved =>
                let filename := _getLinkFilenameForApiItem resolved in
                let linkText' :=
                  orElse linkText (scopedNameWithinPackage (api resolved)) in
                send result (appendChild (a linkText' filename None))
            | None =>
                match errorMessage lookup with
                | Some message =>
                    if truthyString message then
                      console_log ("WARNING: Unable to resolve reference "
                                     +:+ doubleQuote +:+ emitAsTsdoc destination
                                     +:+ doubleQuote +:+ ": " +:+ message) ;;;
                      ret result
                    else ret result
                | None => ret result
                end
            end
        | None => ret result
        end
  | DocPlainText text =>
      send result (appendChild (tag "span" (ArgString text) ArgUndefined))
  | DocHtmlStartTag name =>
      send result (openNode (tagBlock name None []) None)
  | DocHtmlEndTag name =>
      send result (closeNode name)
  | DocOtherNode kind =>
      throw (JsError ("Unsupported DocNode kind: " +:+ kind))
  end.

Definition _createDocNodes (nodes : list DocNode) (contextApiItem : ApiItem)
  : Eff World (list HtmlNode) :=
  createDocNodesWith (translateDocNode contextApiItem) nodes.

(** *** Cells *)

Definition _createTitleCell (apiItem : ApiItem) : HtmlNode :=
  a (getConciseSignature apiItem) (_getLinkFilenameForApiItem apiItem) (Some "ref").

Definition _createDescriptionCell (apiItem contextApiItem : ApiItem)
  : Eff World HtmlNode :=
  match isDocumentedItem (api apiItem), tsdocComment (api apiItem) with
  | true, Some comment =>
      nodes <- _createDocNodes (summarySection comment) contextApiItem ;;
      ret (tag "div" (ArgString "description") (ArgNodes nodes))
  | _, _ => ret (tag "div" (ArgString "description") (ArgNodes []))
  end.

Definition _createModifiersCell (apiItem : ApiItem) : HtmlNode :=
  match isStatic (api apiItem) with
  | Some true => tag "code" (ArgString "modifiers") (ArgString "static")
  | _ => tag "div" (ArgString "modifiers") ArgUndefined
  end.

Definition _createPropertyTypeCell (apiItem : ApiItem) : HtmlNode :=
  match propertyItem (api apiItem) with
  | Some p => tag "code" (ArgString "type") (ArgString (propertyTypeExcerpt p))
  | None => tag "code" (ArgString "type") ArgUndefined
  end.

(** *** Sections of a page *)

Definition sectionHeading (title : string) : HtmlNode :=
  tag "h3" (ArgString "section-heading") (ArgString title).

(** [if (t.content.length > least) { heading; table }], the form
    every table of a page is written in. *)
Definition writeTableIfLonger (least : nat) (title : string) (t : BlockHtmlNode)
  (output : CustomHtmlEmitter) : Eff World CustomHtmlEmitter :=
  if (least <? length (content t))%nat then
    output <- sendTo output (appendChild (sectionHeading title)) ;;
    sendTo output (appendChild (block t))
  else ret output.

Definition _writeBreadcrumb (output : CustomHtmlEmitter) (apiItem : ApiItem)
  : Eff World CustomHtmlEmitter :=
  output <- sendTo output
    (appendChild (a "Home" (_getLinkFilenameForApiItem (apiModel_ X)) (Some "breadcrumb"))) ;;
  forEach (fun output hierarchyItem =>
             match kind (api hierarchyItem) with
             | Model | EntryPoint => ret output
             | _ =>
                 output <- sendTo output
                   (appendChild (tag "span" (ArgString "breadcrumb") (ArgString " / "))) ;;
                 sendTo output
                   (appendChild (a (displayName (api hierarchyItem))
                                   (_getLinkFilenameForApiItem hierarchyItem)
                                   (Some "breadcrumb")))
             end)
          (hierarchy (api apiItem)) output.

(** Its body is commented out in the source. *)
Definition _writeBetaWarning (output : CustomHtmlEmitter) : Eff World CustomHtmlEmitter :=
  ret output.

Definition _writeRemarksSection (output : CustomHtmlEmitter) (apiItem : ApiItem)
  : Eff World CustomHtmlEmitter :=
  match isDocumentedItem (api apiItem), tsdocComment (api apiItem) with
  | true, Some comment =>
      match remarksBlock comment with
      | Some remarks =>
          output <- sendTo output (appendChild (sectionHeading "Remarks")) ;;
          nodes <- _createDocNodes (blockNodes remarks) (contextApiItem output) ;;
          sendTo output (appendChild (tag "div" (ArgNodes nodes) ArgUndefined))
      | None => ret output
      end
  | _, _ => ret output
  end.

(** [StandardTags.throws.tagNameWithUpperCase] *)
Definition throwsTagName : string := "@THROWS".

Definition throwsBlocksOf (comment : DocComment) : list DocBlock :=
  filter (fun x => tagNameWithUpperCase x =? throwsTagName) (customBlocks comment).

(** One turn of the loop of [_writeThrowsSection]. *)
Definition throwsRow (contextApiItem : ApiItem) (exceptionsTable : BlockHtmlNode)
  (throwsBlock : DocBlock) : Eff World BlockHtmlNode :=
  nodes <- _createDocNodes (blockNodes throwsBlock) contextApiItem ;;
  let row := tr [ CellNode (tag "span" (ArgNodes nodes) ArgUndefined) ] in
  ret (content_push exceptionsTable (block row)).

Definition _writeThrowsSection (output : CustomHtmlEmitter) (apiItem : ApiItem)
  : Eff World CustomHtmlEmitter :=
  match isDocumentedItem (api apiItem), tsdocComment (api apiItem) with
  | true, Some comment =>
      let throwsBlocks := throwsBlocksOf comment in
      output <- sendTo output (appendChild (sectionHeading "Throws")) ;;
      exceptionsTable <-
        forEach (throwsRow (contextApiItem output)) throwsBlocks (table [ "Error" ]) ;;
      sendTo output (appendChild (block exceptionsTable))
  | _, _ => ret output
  end.

(** *** Tables of a page *)

Definition _writeModelTable (self : ApiItem -> Eff World unit)
  (output : CustomHtmlEmitter) (apiModel : ApiItem) : Eff World CustomHtmlEmitter :=
  packagesTable <-
    forEach (fun packagesTable apiMember =>
               description <- _createDescriptionCell apiMember (contextApiItem output) ;;
               let row := tr [ CellNode (_createTitleCell apiMember); CellNode description ] in
               match kind (api apiMember) with
               | Package =>
                   let packagesTable := content_push packagesTable (block row) in
                   self apiMember ;;; ret packagesTable
               | _ => ret packagesTable
               end)
            (members (api apiModel)) (table [ "Package"; "Description" ]) ;;
  writeTableIfLonger 0 "Packages" packagesTable output.

Definition newContainerTables (t : ContainerTables.name) : BlockHtmlNode :=
  match t with
  | ContainerTables.classesTable => table [ "Class"; "Description" ]
  | ContainerTables.enumerationsTable => table [ "Enumeration"; "Description" ]
  | ContainerTables.functionsTable => table [ "Function"; "Description" ]
  | ContainerTables.interfacesTable => table [ "Interface"; "Description" ]
  | ContainerTables.exceptionsTable => table [ "Exception"; "Description" ]
  | ContainerTables.namespacesTable => table [ "Namespace"; "Description" ]
  | ContainerTables.variablesTable => table [ "Variable"; "Description" ]
  | ContainerTables.typeAliasesTable => table [ "Type Alias"; "Description" ]
  end.

Definition isError (item : ApiItem) : bool :=
  match extendsType (api item) with
  | Some tokens =>
      existsb (fun token =>
                 match tokenKind token with
                 | ReferenceToken => tokenText token =? "Error"
                 | ContentToken => false
                 end) tokens
  | None => false
  end.

(** The table a member of a package or namespace is listed in, if any;
    every such member also gets its page. *)
Definition containerTableOf (apiMember : ApiItem) : option ContainerTables.name :=
  match kind (api apiMember) with
  | Class => Some (if negb (isError apiMember) then ContainerTables.classesTable else ContainerTables.exceptionsTable)
  | Enum => Some ContainerTables.enumerationsTable
  | Interface => Some ContainerTables.interfacesTable
  | Namespace => Some ContainerTables.namespacesTable
  | Function => Some ContainerTables.functionsTable
  | TypeAlias => Some ContainerTables.typeAliasesTable
  | Variable_ => Some ContainerTables.variablesTable
  | _ => None
  end.

(** The headings, in the order the tables are written. *)
Definition containerSections : list (ContainerTables.name * string) :=
  [ (ContainerTables.classesTable, "Classes"); (ContainerTables.enumerationsTable, "Enumerations");
    (ContainerTables.functionsTable, "Functions"); (ContainerTables.interfacesTable, "Interfaces");
    (ContainerTables.namespacesTable, "Namespaces"); (ContainerTables.variablesTable, "Variables");
    (ContainerTables.typeAliasesTable, "Types"); (ContainerTables.exceptionsTable, "Exceptions") ].

Definition writeSections {T : Type} (sections : list (T * string))
  (tables : T -> BlockHtmlNode) (output : CustomHtmlEmitter)
  : Eff World CustomHtmlEmitter :=
  forEach (fun output s => writeTableIfLonger 1 (snd s) (tables (fst s)) output)
          sections output.

Definition _writePackageOrNamespaceTables (self : ApiItem -> Eff World unit)
  (output : CustomHtmlEmitter) (apiContainer : ApiItem) : Eff World CustomHtmlEmitter :=
  apiMembers <-
    match kind (api apiContainer) with
    | Package =>
        match entryPoints (api apiContainer) with
        | entryPoint :: _ => ret (members (api entryPoint))
        | [] => throw (JsTypeError "entryPoints[0] is undefined")
        end
    | _ => ret (members (api apiContainer))
    end ;;
  tables <-
    forEach (fun tables apiMember =>
               description <- _createDescriptionCell apiMember (contextApiItem output) ;;
               let row := tr [ CellNode (_createTitleCell apiMember); CellNode description ] in
               match containerTableOf apiMember with
               | Some t =>
                   let tables := pushRow ContainerTables.name_beq t row tables in
                   self apiMember ;;; ret tables
               | None => ret tables
               end)
            apiMembers newContainerTables ;;
  writeSections containerSections tables output.

Definition newClassTables (t : ClassTables.name) : BlockHtmlNode :=
  match t with
  | ClassTables.eventsTable => table [ "Property"; "Modifiers"; "Type"; "Description" ]
  | ClassTables.constructorsTable => table [ "Constructor"; "Modifiers"; "Description" ]
  | ClassTables.propertiesTable => table [ "Property"; "Modifiers"; "Type"; "Description" ]
  | ClassTables.methodsTable => table [ "Method"; "Modifiers"; "Description" ]
  end.

Definition isEventPropertyOf (apiMember : ApiItem) : bool :=
  match propertyItem (api apiMember) with
  | Some p => isEventProperty p
  | None => false
  end.

Definition _writeClassTables (self : ApiItem -> Eff World unit)
  (output : CustomHtmlEmitter) (apiClass : ApiItem) : Eff World CustomHtmlEmitter :=
  tables <-
    forEach (fun tables apiMember =>
               match kind (api apiMember) with
               | Constructor =>
                   description <- _createDescriptionCell apiMember (contextApiItem output) ;;
                   let tables :=
                     pushRow ClassTables.name_beq ClassTables.constructorsTable
                       (tr [ CellNode (_createTitleCell apiMember);
                             CellNode (_createModifiersCell apiMember);
                             CellNode description ]) tables in
                   self apiMember ;;; ret tables
               | Method =>
                   description <- _createDescriptionCell apiMember (contextApiItem output) ;;
                   let tables :=
                     pushRow ClassTables.name_beq ClassTables.methodsTable
                       (tr [ CellNode (_createTitleCell apiMember);
                             CellNode (_createModifiersCell apiMember);
                             CellNode description ]) tables in
                   self apiMember ;;; ret tables
               | Property =>
                   description <- _createDescriptionCell apiMember (contextApiItem output) ;;
                   let tables :=
                     pushRow ClassTables.name_beq
                       (if isEventPropertyOf apiMember then ClassTables.eventsTable else ClassTables.propertiesTable)
                       (tr [ CellNode (_createTitleCell apiMember);
                             CellNode (_createModifiersCell apiMember);
                             CellNode (_createPropertyTypeCell apiMember);
                             CellNode description ]) tables in
                   self apiMember ;;; ret tables
               | _ => ret tables
               end)
            (members (api apiClass)) newClassTables ;;
  writeSections [ (ClassTables.eventsTable, "Events"); (ClassTables.constructorsTable, "Constructors");
                  (ClassTables.propertiesTable, "Properties"); (ClassTables.methodsTable, "Methods") ]
                tables output.

Definition _writeEnumTables (output : CustomHtmlEmitter) (apiEnum : ApiItem)
  : Eff World CustomHtmlEmitter :=
  enumMembersTable <-
    forEach (fun enumMembersTable apiEnumMember =>
               match initializerExcerpt (api apiEnumMember) with
               | Some initializer =>
                   description <- _createDescriptionCell apiEnumMember (contextApiItem output) ;;
                   ret (content_push enumMembersTable
                          (block (tr [ CellString (getConciseSignature apiEnumMember);
                                       CellString initializer;
                                       CellNode description ])))
               | None => throw (JsTypeError "initializerExcerpt is undefined")
               end)
            (members (api apiEnum)) (table [ "Member"; "Value"; "Description" ]) ;;
  writeTableIfLonger 1 "Enumeration Members" enumMembersTable output.

Definition newInterfaceTables (t : InterfaceTables.name) : BlockHtmlNode :=
  match t with
  | InterfaceTables.eventsTable => table [ "Property"; "Type"; "Description" ]
  | InterfaceTables.propertiesTable => table [ "Property"; "Type"; "Description" ]
  | InterfaceTables.methodsTable => table [ "Method"; "Description" ]
  end.

Definition _writeInterfaceTables (self : ApiItem -> Eff World unit)
  (output : CustomHtmlEmitter) (apiClass : ApiItem) : Eff World CustomHtmlEmitter :=
  tables <-
    forEach (fun tables apiMember =>
               match kind (api apiMember) with
               | ConstructSignature | MethodSignature =>
                   description <- _createDescriptionCell apiMember (contextApiItem output) ;;
                   let tables :=
                     pushRow InterfaceTables.name_beq InterfaceTables.methodsTable
                       (tr [ CellNode (_createTitleCell apiMember);
                             CellNode description ]) tables in
                   self apiMember ;;; ret tables
               | PropertySignature =>
                   description <- _createDescriptionCell apiMember (contextApiItem output) ;;
                   let tables :=
                     pushRow InterfaceTables.name_beq
                       (if isEventPropertyOf apiMember then InterfaceTables.eventsTable else InterfaceTables.propertiesTable)
                       (tr [ CellNode (_createTitleCell apiMember);
                             CellNode (_createPropertyTypeCell apiMember);
                             CellNode description ]) tables in
                   self apiMember ;;; ret tables
               | _ => ret tables
               end)
            (members (api apiClass)) newInterfaceTables ;;
  writeSections [ (InterfaceTables.eventsTable, "Events"); (InterfaceTables.propertiesTable, "Properties");
                  (InterfaceTables.methodsTable, "Methods") ]
                tables output.

(** [nodes[0]] *)
Definition firstNode (nodes : list HtmlNode) : HtmlNode := nth 0 nodes UndefinedNode.

(** One turn of the loop of [_writeParameterTables]; [description] is
    declared before the loop and is assigned only in the [if]. *)
Definition parameterRow (contextApiItem : ApiItem)
  (acc : BlockHtmlNode * Cell) (apiParameter : Parameter_)
  : Eff World (BlockHtmlNode * Cell) :=
  let (parametersTable, description) := acc in
  description <-
    match tsdocParamBlock apiParameter with
    | Some paramBlock =>
        nodes <- _createDocNodes (blockNodes paramBlock) contextApiItem ;;
        ret (CellNode (firstNode nodes))
    | None => ret description
    end ;;
  ret (content_push parametersTable
         (block (tr [ CellString (parameterName apiParameter);
                      CellString (parameterTypeExcerpt apiParameter);
                      description ])),
       description).

Definition _writeParameterTables (output : CustomHtmlEmitter)
  (apiParameterListMixin : ApiItem) : Eff World CustomHtmlEmitter :=
  match parameterList (api apiParameterListMixin) with
  | None => throw (JsTypeError "parameters is not iterable")
  | Some pl =>
      acc <- forEach (parameterRow (contextApiItem output)) (parameters pl)
               (table [ "Parameter"; "Type"; "Description" ], CellString "") ;;
      output <- writeTableIfLonger 1 "Parameters" (fst acc) output ;;
      match returnTypeExcerpt (api apiParameterListMixin),
            isDocumentedItem (api apiParameterListMixin),
            tsdocComment (api apiParameterListMixin) with
      | Some returnTypeExcerpt, true, Some comment =>
          match returnsBlock comment with
          | Some returns =>
              nodes <- _createDocNodes (blockNodes returns) (contextApiItem output) ;;
              let returnsTable :=
                content_push (table [ "Type"; "Description" ])
                  (block (tr [ CellString (trim_ X returnTypeExcerpt);
                               CellNode (firstNode nodes) ])) in
              output <- sendTo output (appendChild (sectionHeading "Returns")) ;;
              sendTo output (appendChild (block returnsTable))
          | None => ret output
          end
      | _, _, _ => ret output
      end
  end.

(** *** Pages *)

Definition pageHeader (text : string) : HtmlNode :=
  tag "h1" (ArgString "page-header") (ArgString text).

(** The first [switch] of [_writeApiItemPageWithSiblings]. *)
Definition writePageHeader (output : CustomHtmlEmitter) (first : ApiItem)
  : Eff World CustomHtmlEmitter :=
  let scopedName := scopedNameWithinPackage (api first) in
  match kind (api first) with
  | Class => sendTo output (appendChild (pageHeader (scopedName +:+ " class")))
  | Enum => sendTo output (appendChild (pageHeader (scopedName +:+ " enum")))
  | Interface => sendTo output (appendChild (pageHeader (scopedName +:+ " interface")))
  | Constructor | ConstructSignature =>
      sendTo output (appendChild (pageHeader scopedName))
  | Method | MethodSignature =>
      sendTo output (appendChild (pageHeader (scopedName +:+ " method")))
  | Function => sendTo output (appendChild (pageHeader (scopedName +:+ " function")))
  | Model => sendTo output (appendChild (pageHeader (scopedName +:+ " API Reference")))
  | Namespace => sendTo output (appendChild (pageHeader (scopedName +:+ " namespace")))
  | Package =>
      console_log ("Writing " +:+ displayName (api first) +:+ " package") ;;;
      let unscopedPackageName := getUnscopedName (displayName (api first)) in
      sendTo output (appendChild (pageHeader (unscopedPackageName +:+ " package")))
  | Property | PropertySignature =>
      sendTo output (appendChild (pageHeader (scopedName +:+ " property")))
  | TypeAlias => sendTo output (appendChild (pageHeader (scopedName +:+ " type")))
  | Variable_ => sendTo output (appendChild (pageHeader (scopedName +:+ " variable")))
  | k => throw (JsError ("Unsupported API item kind: " +:+ kindName k))
  end.

Definition writeSummary (output : CustomHtmlEmitter) (apiItem : ApiItem)
  : Eff World CustomHtmlEmitter :=
  match isDocumentedItem (api apiItem), tsdocComment (api apiItem) with
  | true, Some comment =>
      nodes <- _createDocNodes (summarySection comment) (contextApiItem output) ;;
      sendTo output (appendChild (tag "div" (ArgString "summary") (ArgNodes nodes)))
  | _, _ => ret output
  end.

Definition hasSignature (apiItem : ApiItem) : bool :=
  match declared (api apiItem) with
  | Some d => (0 <? String.length (excerptText d))%nat
  | None => false
  end.

Definition writeSignature (output : CustomHtmlEmitter) (apiItem : ApiItem)
  : Eff World CustomHtmlEmitter :=
  match declared (api apiItem) with
  | Some d =>
      sendTo output
        (appendChild (tag "pre" (ArgString "signature") (ArgString (excerptWithModifiers d))))
  | None => throw (JsTypeError "getExcerptWithModifiers is not a function")
  end.

(** The second [switch] of [_writeApiItemPageWithSiblings]. *)
Definition writeKindTables (self : ApiItem -> Eff World unit)
  (output : CustomHtmlEmitter) (apiItem : ApiItem) : Eff World CustomHtmlEmitter :=
  match kind (api apiItem) with
  | Class => _writeClassTables self output apiItem
  | Enum => _writeEnumTables output apiItem
  | Interface => _writeInterfaceTables self output apiItem
  | Constructor | ConstructSignature | Method | MethodSignature | Function =>
      output <- _writeParameterTables output apiItem ;;
      _writeThrowsSection output apiItem
  | Namespace => _writePackageOrNamespaceTables self output apiItem
  | Model => _writeModelTable self output apiItem
  | Package => _writePackageOrNamespaceTables self output apiItem
  | Property | PropertySignature => ret output
  | TypeAlias => ret output
  | Variable_ => ret output
  | k => throw (JsError ("Unsupported API item kind: " +:+ kindName k))
  end.

Definition isBeta (apiItem : ApiItem) : bool :=
  match releaseTag (api apiItem) with
  | Some ReleaseBeta => true
  | _ => false
  end.

Definition siteHeader : HtmlNode :=
  tag "header"
    (ArgNodes
       [ tag "div" (ArgString "header-top")
           (ArgNodes [ a "" "https://developers.symphony.com/" (Some "header-logo") ]);
         tag "div" (ArgString "header-bottom") (ArgNodes []) ])
    ArgUndefined.

(** The page under construction when the main container is closed. *)
Definition writePageContent (self : ApiItem -> Eff World unit)
  (first : ApiItem) (apiItems : list ApiItem) : Eff World CustomHtmlEmitter :=
  let output := newCustomHtmlEmitter first in
  output <- sendTo output (addStyle "styles.css") ;;
  output <- sendTo output (appendChild siteHeader) ;;
  output <- sendTo output (openNode (tagBlock "div" (Some "main") []) None) ;;
  output <- _writeBreadcrumb output first ;;
  output <- writePageHeader output first ;;
  output <- (if existsb isBeta apiItems then _writeBetaWarning output else ret output) ;;
  output <- forEach writeSummary apiItems output ;;
  let signatures := filter hasSignature apiItems in
  output <-
    (if (0 <? length signatures)%nat
     then sendTo output
            (appendChild (tag "div" (ArgString "signature-heading") (ArgString "Signature")))
     else ret output) ;;
  output <- forEach writeSignature signatures output ;;
  output <- forEach _writeRemarksSection apiItems output ;;
  output <- forEach (writeKindTables self) apiItems output ;;
  sendTo output (closeNode "div").

Definition _writeApiItemPageWithSiblings (self : ApiItem -> Eff World unit)
  (apiItems : list ApiItem) : Eff World unit :=
  match apiItems with
  | [] => throw (JsTypeError "apiItems[0] is undefined")
  | first :: _ =>
      output <- writePageContent self first apiItems ;;
      let filename := pathJoin_ X (outputFolder_ X) (_getFilenameForApiItem first) in
      page <- call (emitter output) (emit (renderHTML_ X)) ;;
      writeFile filename (snd page) (newlineKind_ X)
  end.

Definition interfacesOf (siblings : list ApiItem) : list ApiItem :=
  filter (fun s => ApiItemKind_beq (kind (api s)) Interface) siblings.

Definition namespacesOf (siblings : list ApiItem) : list ApiItem :=
  filter (fun s => ApiItemKind_beq (kind (api s)) Namespace) siblings.

(** The condition of the [if] of [_writeApiItemPage]. *)
Definition isInterfaceNamespacePair (siblings : list ApiItem) : bool :=
  (length (interfacesOf siblings) =? 1)%nat
  && (length (namespacesOf siblings) =? 1)%nat
  && (length siblings =? 2)%nat.

(** [_writeApiItemPage] and the functions it calls are mutually
    recursive through the members and the merged siblings of the
    model; [fuel] bounds the depth of the calls. *)
Fixpoint _writeApiItemPage (fuel : nat) (apiItem : ApiItem) : Eff World unit :=
  match fuel with
  | O => fun w => (w, OutOfFuel)
  | S fuel' =>
      let siblings := mergedSiblings (api apiItem) in
      let interfaces := interfacesOf siblings in
      let namespaces := namespacesOf siblings in
      if isInterfaceNamespacePair siblings then
        if ApiItemKind_beq (kind (api apiItem)) Interface then
          _writeApiItemPageWithSiblings (_writeApiItemPage fuel') (interfaces ++ namespaces)
        else ret tt
      else
        _writeApiItemPageWithSiblings (_writeApiItemPage fuel') [ apiItem ]
  end.

End HtmlDocumenter.

(* ================================================================= *)
(** ** Vocabulary of the statements *)

(** The children of the innermost open node, and the emitter with
    more of them. *)
Definition withChildren (e : HtmlEmitter) (children : list HtmlNode) : HtmlEmitter :=
  mkEmitter (mkBlock (type (_current e)) (attributes (_current e))
               (content (_current e) ++ children))
            (_parents e) (_styles e).

Definition withChildrenC (output : CustomHtmlEmitter) (children : list HtmlNode)
  : CustomHtmlEmitter :=
  mkCustom (withChildren (emitter output) children) (contextApiItem output).

(** One call of the builder, and a sequence of calls run in order. *)
Inductive BuilderCall : Type :=
| CallAppend (child : HtmlNode)
| CallOpen (child : BlockHtmlNode)
| CallClose (name : string).

Definition runCall (c : BuilderCall) : Eff HtmlEmitter unit :=
  match c with
  | CallAppend child => appendChild child
  | CallOpen child => openNode child None
  | CallClose name => closeNode name
  end.

Fixpoint runCalls (calls : list BuilderCall) : Eff HtmlEmitter unit :=
  match calls with
  | [] => ret tt
  | c :: rest => runCall c ;;; runCalls rest
  end.

(** A balanced sequence of calls is the sequence written by a forest:
    a leaf is an append, an inner node is an open, the calls of its
    children, and the close with the tag of the node opened. *)
Inductive Nesting : Type :=
| Appended (child : HtmlNode)
| Opened (child : BlockHtmlNode) (inside : list Nesting).

Fixpoint callsOf (n : Nesting) : list BuilderCall :=
  match n with
  | Appended child => [ CallAppend child ]
  | Opened child inside =>
      CallOpen child :: flat_map callsOf inside ++ [ CallClose (type child) ]
  end.

(** The node a nesting stands for: an opened node holds what it held
    when it was opened, then its children in order. *)
Fixpoint nodeOf (n : Nesting) : HtmlNode :=
  match n with
  | Appended child => child
  | Opened child inside =>
      BlockNode (type child) (attributes child) (content child ++ map nodeOf inside)
  end.

(** The same check on a flat sequence: the tags of the nodes open so
    far, innermost first. *)
Fixpoint balancedFrom (open : list string) (calls : list BuilderCall) : bool :=
  match calls with
  | [] => match open with [] => true | _ => false end
  | CallAppend _ :: rest => balancedFrom open rest
  | CallOpen child :: rest => balancedFrom (type child :: open) rest
  | CallClose name :: rest =>
      match open with
      | top :: below => (top =? name) && balancedFrom below rest
      | [] => false
      end
  end.


(** The entities whose pages the page of [apiItem] may ask for: the
    members it loops over. *)
Definition scheduled (X : Externals) (apiItem : ApiItem) : list ApiItem :=
  match kind (api_ X apiItem) with
  | Package =>
      match entryPoints (api_ X apiItem) with
      | entryPoint :: _ => members (api_ X entryPoint)
      | [] => []
      end
  | _ => members (api_ X apiItem)
  end.

Definition emptyWorld : World := mkWorld [] [].

(** [m] reads nothing of the console and the files and only adds
    lines to the console: the same lines and the same end in every
    world. *)
Definition logsOnly {A : Type} (m : Eff World A) : Prop :=
  exists (log : list string) (out : Outcome A),
    out <> OutOfFuel
    /\ forall w, m w = (mkWorld (console w ++ log) (files w), out).


Definition ends {A : Type} (m : Eff World A) : Prop :=
  forall w, snd (m w) <> OutOfFuel.

(** What the translation of [nodes] ends with, and the lines it logs. *)
Definition translationOf (X : Externals) (contextApiItem : ApiItem)
  (nodes : list DocNode) : Outcome (list HtmlNode) :=
  snd (_createDocNodes X nodes contextApiItem emptyWorld).

Definition warningsOf (X : Externals) (contextApiItem : ApiItem)
  (nodes : list DocNode) : list string :=
  console (fst (_createDocNodes X nodes contextApiItem emptyWorld)).

Definition logged (w : World) (lines : list string) : World :=
  mkWorld (console w ++ lines) (files w).

(** The line logged for a reference that is not resolved. *)
Definition unresolvedWarning (destination : DocDeclarationReference) (message : string)
  : string :=
  "WARNING: Unable to resolve reference " +:+ doubleQuote +:+ emitAsTsdoc destination
    +:+ doubleQuote +:+ ": " +:+ message.

(** The levels of a hierarchy that add a segment to the file name. *)
Definition addsSegment (k : ApiItemKind) : bool :=
  match k with
  | Model | EntryPoint | Package => false
  | _ => true
  end.

(** What the file name reads of one level of the hierarchy. *)
Definition segmentOf (X : Externals) (h : ApiItem)
  : ApiItemKind * string * option Z :=
  (kind (api_ X h), displayName (api_ X h),
   option_map overloadIndex (parameterList (api_ X h))).

(** The parameters table, in the words of the statement: the
    description of a parameter is that of the most recent parameter,
    itself included, that has a doc block, and is empty when there is
    none.  [seen] are the parameters up to the current one. *)
Fixpoint lastParamBlock (seen : list Parameter_) : option DocBlock :=
  match seen with
  | [] => None
  | p :: rest =>
      match lastParamBlock rest with
      | Some paramBlock => Some paramBlock
      | None => tsdocParamBlock p
      end
  end.

Definition describedBy (X : Externals) (contextApiItem : ApiItem)
  (seen : list Parameter_) : Cell :=
  match lastParamBlock seen with
  | None => CellString ""
  | Some paramBlock =>
      match translationOf X contextApiItem (blockNodes paramBlock) with
      | Returned nodes => CellNode (firstNode nodes)
      | _ => CellString ""
      end
  end.

Fixpoint parameterRows (X : Externals) (contextApiItem : ApiItem)
  (seen ps : list Parameter_) : list HtmlNode :=
  match ps with
  | [] => []
  | p :: rest =>
      block (tr [ CellString (parameterName p);
                  CellString (parameterTypeExcerpt p);
                  describedBy X contextApiItem (seen ++ [ p ]) ])
        :: parameterRows X contextApiItem (seen ++ [ p ]) rest
  end.

(** A table with rows after those it has. *)
Definition withRows (t : BlockHtmlNode) (rows : list HtmlNode) : BlockHtmlNode :=
  mkBlock (type t) (attributes t) (content t ++ rows).

(** Every doc block of the parameters translates. *)
Definition paramBlocksTranslate (X : Externals) (contextApiItem : ApiItem)
  (ps : list Parameter_) : Prop :=
  forall p paramBlock,
    In p ps -> tsdocParamBlock p = Some paramBlock ->
    exists nodes, translationOf X contextApiItem (blockNodes paramBlock) = Returned nodes.

(** Some text node of the tree has the content [text]. *)
Fixpoint textOccurs (text : string) (n : HtmlNode) : bool :=
  match n with
  | BlockNode _ _ children => existsb (textOccurs text) children
  | TextNode _ _ s => s =? text
  | SingleNode _ _ => false
  | UndefinedNode => false
  end.

(** The members of a container that are listed in the table [t]. *)
Definition listedIn (X : Externals) (t : ContainerTables.name) (apiMember : ApiItem)
  : bool :=
  match containerTableOf X apiMember with
  | Some t' => ContainerTables.name_beq t' t
  | None => false
  end.

Definition countIn (X : Externals) (t : ContainerTables.name) (apiMembers : list ApiItem)
  : nat :=
  length (filter (listedIn X t) apiMembers).

(** The nodes the sections add to a page: for each table that has a
    row, its heading and the table. *)
Definition sectionsWritten {T : Type} (sections : list (T * string))
  (tables : T -> BlockHtmlNode) : list HtmlNode :=
  flat_map (fun s =>
              if (1 <? length (content (tables (fst s))))%nat
              then [ sectionHeading (snd s); block (tables (fst s)) ]
              else [])
           sections.

(** Callable kinds: the kinds whose page has the parameters table and
    the Throws section. *)
Definition isCallable (k : ApiItemKind) : bool :=
  match k with
  | Constructor | ConstructSignature | Method | MethodSignature | Function => true
  | _ => false
  end.

(** The entities written on the page that [_writeApiItemPage] makes
    for [apiItem]: none for the namespace of an interface and
    namespace pair. *)
Definition pageUnitOf (X : Externals) (apiItem : ApiItem) : list ApiItem :=
  let siblings := mergedSiblings (api_ X apiItem) in
  if isInterfaceNamespacePair X siblings then
    if ApiItemKind_beq (kind (api_ X apiItem)) Interface
    then interfacesOf X siblings ++ namespacesOf X siblings
    else []
  else [ apiItem ].


(** [m2] does what [m1] does wherever [m1] does not run out of fuel. *)
Definition refines {A : Type} (m1 m2 : Eff World A) : Prop :=
  forall w, snd (m1 w) <> OutOfFuel -> m2 w = m1 w.

(** Some node of the tree is an anchor. *)
Fixpoint anchorOccurs (n : HtmlNode) : bool :=
  match n with
  | BlockNode t _ children => (t =? "a") || existsb anchorOccurs children
  | TextNode t _ _ => t =? "a"
  | SingleNode t _ => t =? "a"
  | UndefinedNode => false
  end.

(* ================================================================= *)
(** ** A small model, for the statements tried on an input

    A model with one package [pkg] whose entry point declares an
    interface and a namespace both named [Foo] (the interface with a
    method [bar], the namespace with a variable [baz]), a class [Bar],
    a function [f] without a doc comment next to a namespace [f], and
    a function [g] with two overloads. *)
Module Scenario.

Definition entity (k : ApiItemKind) (name : string) (path siblings inside : list ApiItem)
  : ApiItemData :=
  mkApiItem k name name path siblings inside [] true None (Some ReleasePublic)
    None None None None None None None.

Definition callable (k : ApiItemKind) (name : string) (path siblings : list ApiItem)
  (comment : option DocComment) (overload : Z) (params : list Parameter_)
  : ApiItemData :=
  mkApiItem k name name path siblings [] [] true comment (Some ReleasePublic)
    (Some (mkDeclared "function" "export declare function"))
    None None None (Some (mkParameterList overload params)) (Some "void") None.

Definition missingReference : DocDeclarationReference := mkReference "Missing".

Definition commentOfG1 : DocComment :=
  mkDocComment
    [ DocParagraph
        [ DocPlainText "See ";
          DocLinkTag None None (Some missingReference);
          DocHtmlStartTag "b";
          DocPlainText "bold" ] ]
    None None [].

Definition commentOfG2 : DocComment :=
  mkDocComment [ DocParagraph [ DocPlainText "Second overload" ] ] None None
    [ mkDocBlock "@THROWS" [ DocParagraph [ DocPlainText "when x is negative" ] ] ].

Definition paramsOfG : list Parameter_ :=
  [ mkParameter "x" "number"
      (Some (mkDocBlock "@PARAM" [ DocParagraph [ DocPlainText "the input" ] ]));
    mkParameter "y" "number" None ].

Definition store (i : ApiItem) : ApiItemData :=
  match i with
  | 0 => entity Model "" [ 0 ] [] [ 1 ]
  | 1 => mkApiItem Package "pkg" "" [ 0; 1 ] [ 1 ] [ 2 ] [ 2 ] true None
           (Some ReleasePublic) None None None None None None None
  | 2 => entity EntryPoint "" [ 0; 1; 2 ] [ 2 ] [ 3; 4; 5; 6; 7; 8; 9 ]
  | 3 => entity Interface "Foo" [ 0; 1; 2; 3 ] [ 3; 4 ] [ 10 ]
  | 4 => entity Namespace "Foo" [ 0; 1; 2; 4 ] [ 3; 4 ] [ 11 ]
  | 5 => entity Class "Bar" [ 0; 1; 2; 5 ] [ 5 ] []
  | 6 => callable Function "f" [ 0; 1; 2; 6 ] [ 6; 7 ] None 1 []
  | 7 => entity Namespace "f" [ 0; 1; 2; 7 ] [ 6; 7 ] []
  | 8 => callable Function "g" [ 0; 1; 2; 8 ] [ 8; 9 ] (Some commentOfG1) 1 paramsOfG
  | 9 => callable Function "g" [ 0; 1; 2; 9 ] [ 8; 9 ] (Some commentOfG2) 2 paramsOfG
  | 10 => callable MethodSignature "bar" [ 0; 1; 2; 3; 10 ] [ 10 ] None 1 []
  | 11 => entity Variable_ "baz" [ 0; 1; 2; 4; 11 ] [ 11 ] []
  | _ => entity NoKind "" [] [] []
  end.

Definition resolve (reference : DocDeclarationReference) (context : ApiItem)
  : IResolveDeclarationReferenceResult :=
  if emitAsTsdoc reference =? "Foo"
  then mkResolved (Some 3) None
  else mkResolved None (Some "The reference could not be resolved").

(** The functions outside the two files are given simple stand-ins. *)
Definition externals : Externals :=
  mkExternals store 0 resolve
    (fun name => name) (fun name => name)
    (fun i => displayName (store i))
    (fun _ => "<!DOCTYPE html>")
    (fun folder file => folder +:+ "/" +:+ file)
    (fun s => s)
    "out" CrLf.

End Scenario.

(* ================================================================= *)
(** ** Vocabulary of the further statements *)

(** The tags of the nodes opened and not yet closed, innermost first;
    the synthetic root is not one of them. *)
Definition openTags (e : HtmlEmitter) : list string :=
  removelast (map type (_current e :: _parents e)).


(** The open tags after a sequence of calls, when every close of the
    sequence names the innermost open tag; [None] at the first close
    that does not. *)
Fixpoint nestingAfter (open : list string) (calls : list BuilderCall)
  : option (list string) :=
  match calls with
  | [] => Some open
  | CallAppend _ :: rest => nestingAfter open rest
  | CallOpen child :: rest => nestingAfter (type child :: open) rest
  | CallClose name :: rest =>
      match open with
      | top :: below => if top =? name then nestingAfter below rest else None
      | [] => None
      end
  end.

(** The last package of a hierarchy and the levels below it. *)
Fixpoint lastPackage (X : Externals) (path : list ApiItem)
  : option (ApiItem * list ApiItem) :=
  match path with
  | [] => None
  | h :: rest =>
      match lastPackage X rest with
      | Some found => Some found
      | None =>
          match kind (api_ X h) with
          | Package => Some (h, rest)
          | _ => None
          end
      end
  end.

(** The segments of the levels that add one, each after a dot. *)
Fixpoint segmentsOf (X : Externals) (levels : list ApiItem) : string :=
  match levels with
  | [] => ""
  | h :: rest =>
      if addsSegment (kind (api_ X h))
      then ("." +:+ qualifiedNameOf X h) +:+ segmentsOf X rest
      else segmentsOf X rest
  end.

(** The file name without its extension, read off the hierarchy. *)
Definition fileStem (X : Externals) (path : list ApiItem) : string :=
  match lastPackage X path with
  | Some (package, below) =>
      getSafeFilenameForName_ X (getUnscopedName_ X (displayName (api_ X package)))
        +:+ segmentsOf X below
  | None => segmentsOf X path
  end.

(** The texts of a tree, in document order. *)
Fixpoint textsOf (n : HtmlNode) : list string :=
  match n with
  | BlockNode _ _ children => flat_map textsOf children
  | TextNode _ _ s => [ s ]
  | SingleNode _ _ => []
  | UndefinedNode => []
  end.

(** The texts a doc node stands for, in the order of the comment: the
    text of a text node, the code of a code node, the name of an
    inline tag, and for a link the text it is shown with (none for a
    reference that is not resolved). *)
Fixpoint docTexts (X : Externals) (contextApiItem : ApiItem) (node : DocNode)
  : list string :=
  match node with
  | DocParagraph nodes => flat_map (docTexts X contextApiItem) nodes
  | DocBlockNode nodes => flat_map (docTexts X contextApiItem) nodes
  | DocInlineTag tagName => [ tagName ]
  | DocSoftBreak => []
  | DocCodeSpan code => [ code ]
  | DocFencedCode code => [ code ]
  | DocEscapedText decodedText => [ decodedText ]
  | DocLinkTag linkText urlDestination codeDestination =>
      if truthyOption urlDestination
      then [ orElse linkText (orElse urlDestination "") ]
      else
        match codeDestination with
        | Some destination =>
            match resolvedApiItem
                    (resolveDeclarationReference_ X destination contextApiItem) with
            | Some resolved =>
                [ orElse linkText (scopedNameWithinPackage (api_ X resolved)) ]
            | None => []
            end
        | None => []
        end
  | DocPlainText text => [ text ]
  | DocHtmlStartTag _ => []
  | DocHtmlEndTag _ => []
  | DocOtherNode _ => []
  end.

(** The raw tags of a list of doc nodes are nested: every end tag
    names the innermost start tag open in the list; the other nodes
    satisfy [ok].  [open] are the tags open so far. *)
Section NestedRawTags.
Variable ok : DocNode -> bool.

Fixpoint nestedRawTags (nodes : list DocNode) (open : list string) : bool :=
  match nodes with
  | [] => true
  | DocHtmlStartTag name :: rest => nestedRawTags rest (name :: open)
  | DocHtmlEndTag name :: rest =>
      match open with
      | top :: below => (top =? name) && nestedRawTags rest below
      | [] => false
      end
  | node :: rest => ok node && nestedRawTags rest open
  end.
End NestedRawTags.

(** A doc node the translator has a case for, with such nodes and
    nested raw tags inside. *)
Fixpoint translatable (node : DocNode) : bool :=
  match node with
  | DocParagraph nodes => nestedRawTags translatable nodes []
  | DocBlockNode nodes => nestedRawTags translatable nodes []
  | DocOtherNode _ => false
  | _ => true
  end.

(** How the translation of one doc node other than a raw tag ends:
    it returns, with the same nodes open, when the node is
    translatable, and throws otherwise. *)
Definition translatesWhenTranslatable (X : Externals) (contextApiItem : ApiItem)
  (node : DocNode) : Prop :=
  forall (result : HtmlEmitter) (w : World),
    match node with
    | DocHtmlStartTag _ => True
    | DocHtmlEndTag _ => True
    | _ =>
        if translatable node
        then exists w' result',
               translateDocNode X contextApiItem result node w = (w', Returned result')
               /\ openTags result' = openTags result
        else exists w' e,
               translateDocNode X contextApiItem result node w = (w', Thrown e)
    end.

(** The breadcrumb of a page: the Home link, then a separator and a
    link for each level of the hierarchy except models and entry
    points. *)
Definition breadcrumbOf (X : Externals) (apiItem : ApiItem) : list HtmlNode :=
  a "Home" (_getLinkFilenameForApiItem X (apiModel_ X)) (Some "breadcrumb")
    :: flat_map
         (fun hierarchyItem =>
            match kind (api_ X hierarchyItem) with
            | Model | EntryPoint => []
            | _ =>
                [ tag "span" (ArgString "breadcrumb") (ArgString " / ");
                  a (displayName (api_ X hierarchyItem))
                    (_getLinkFilenameForApiItem X hierarchyItem) (Some "breadcrumb") ]
            end)
         (hierarchy (api_ X apiItem)).

(** The text of the header of the page of an entity, for the kinds
    that have a page. *)
Definition headerTextOf (X : Externals) (first : ApiItem) : option string :=
  let scopedName := scopedNameWithinPackage (api_ X first) in
  match kind (api_ X first) with
  | Class => Some (scopedName +:+ " class")
  | Enum => Some (scopedName +:+ " enum")
  | Interface => Some (scopedName +:+ " interface")
  | Constructor | ConstructSignature => Some scopedName
  | Method | MethodSignature => Some (scopedName +:+ " method")
  | Function => Some (scopedName +:+ " function")
  | Model => Some (scopedName +:+ " API Reference")
  | Namespace => Some (scopedName +:+ " namespace")
  | Package => Some (getUnscopedName_ X (displayName (api_ X first)) +:+ " package")
  | Property | PropertySignature => Some (scopedName +:+ " property")
  | TypeAlias => Some (scopedName +:+ " type")
  | Variable_ => Some (scopedName +:+ " variable")
  | _ => None
  end.

(** A step of the page that, when it returns, has only added children
    to the innermost open node of the page. *)
Definition appendsOnly (step : CustomHtmlEmitter -> Eff World CustomHtmlEmitter) : Prop :=
  forall output w w' output',
    step output w = (w', Returned output') ->
    exists nodes, output' = withChildrenC output nodes.

(** The lines the header of a page writes to the console. *)
Definition headerLog (X : Externals) (first : ApiItem) : list string :=
  match kind (api_ X first) with
  | Package => [ "Writing " +:+ displayName (api_ X first) +:+ " package" ]
  | _ => []
  end.

(** The page under construction when the main container has just
    been opened. *)
Definition openedPage (first : ApiItem) : CustomHtmlEmitter :=
  mkCustom
    (mkEmitter (mkBlock "div" (Some [ ("class", "main") ]) [])
       [ mkBlock "body" None [ siteHeader ] ] [ "styles.css" ])
    first.



(** *** Tables of members *)

(** The number of headings of a table made by [table]. *)
Definition headingsOf (t : BlockHtmlNode) : option nat :=
  match content t with
  | BlockNode _ _ [ BlockNode _ _ headings ] :: _ => Some (length headings)
  | _ => None
  end.

(** [cell] is the description cell of [apiItem]: the translation of
    the summary of its doc comment, and an empty cell for an entity
    without a doc comment. *)
Definition describes (X : Externals) (contextApiItem apiItem : ApiItem)
  (cell : HtmlNode) : Prop :=
  exists nodes,
    cell = tag "div" (ArgString "description") (ArgNodes nodes)
    /\ match isDocumentedItem (api_ X apiItem), tsdocComment (api_ X apiItem) with
       | true, Some comment =>
           translationOf X contextApiItem (summarySection comment) = Returned nodes
       | _, _ => nodes = []
       end.

(** [row] is the row of the member [apiMember] in a table that starts
    as [t0]: its first cell is the link to the page of the member, its
    last cell the description of the member, and it has one cell for
    each heading of the table. *)
Definition listsMember (X : Externals) (contextApiItem : ApiItem) (t0 : BlockHtmlNode)
  (apiMember : ApiItem) (row : HtmlNode) : Prop :=
  exists middle description,
    row = block (tr (CellNode (_createTitleCell X apiMember)
                       :: middle ++ [ CellNode description ]))
    /\ describes X contextApiItem apiMember description
    /\ headingsOf t0 = Some (S (S (length middle))).

(** The members that [tableOf] puts in the table [t], in the order of
    the members. *)
Definition membersIn {T : Type} (T_beq : T -> T -> bool)
  (tableOf : ApiItem -> option T) (t : T) (apiMembers : list ApiItem) : list ApiItem :=
  filter (fun apiMember =>
            match tableOf apiMember with
            | Some t' => T_beq t' t
            | None => false
            end) apiMembers.

(** The table of a class page that a member is listed in, if any. *)
Definition classTableOf (X : Externals) (apiMember : ApiItem)
  : option ClassTables.name :=
  match kind (api_ X apiMember) with
  | Constructor => Some ClassTables.constructorsTable
  | Method => Some ClassTables.methodsTable
  | Property =>
      Some (if isEventPropertyOf X apiMember
            then ClassTables.eventsTable else ClassTables.propertiesTable)
  | _ => None
  end.

(** The headings of a class page, in the order they are written. *)
Definition classSections : list (ClassTables.name * string) :=
  [ (ClassTables.eventsTable, "Events"); (ClassTables.constructorsTable, "Constructors");
    (ClassTables.propertiesTable, "Properties"); (ClassTables.methodsTable, "Methods") ].

(** The table of an interface page that a member is listed in, if any. *)
Definition interfaceTableOf (X : Externals) (apiMember : ApiItem)
  : option InterfaceTables.name :=
  match kind (api_ X apiMember) with
  | ConstructSignature | MethodSignature => Some InterfaceTables.methodsTable
  | PropertySignature =>
      Some (if isEventPropertyOf X apiMember
            then InterfaceTables.eventsTable else InterfaceTables.propertiesTable)
  | _ => None
  end.

Definition interfaceSections : list (InterfaceTables.name * string) :=
  [ (InterfaceTables.eventsTable, "Events"); (InterfaceTables.propertiesTable, "Properties");
    (InterfaceTables.methodsTable, "Methods") ].

(** A model with one package [lib]: a class [Shelf] with a
    constructor, a method, a property, an event and an index
    signature; an interface [Reader] with a construct signature, a
    method, a property, an event and a call signature; an enum [Color]
    of two members; a function [count] whose comment has remarks and
    a returns block. *)
Module Library.

Definition item (k : ApiItemKind) (name : string) (path inside : list ApiItem)
  : ApiItemData :=
  mkApiItem k name name path [ last path 0 ] inside [] true None (Some ReleasePublic)
    None None None None None None None.

Definition property (k : ApiItemKind) (name : string) (path : list ApiItem)
  (event : bool) (static : option bool) : ApiItemData :=
  mkApiItem k name name path [ last path 0 ] [] [] true
    (Some (mkDocComment [ DocParagraph [ DocPlainText name ] ] None None []))
    (Some ReleasePublic)
    (Some (mkDeclared name name)) None static (Some (mkPropertyItem event "number"))
    None None None.

Definition method (k : ApiItemKind) (name : string) (path : list ApiItem)
  (static : option bool) : ApiItemData :=
  mkApiItem k name name path [ last path 0 ] [] [] true None (Some ReleasePublic)
    (Some (mkDeclared name name)) None static None
    (Some (mkParameterList 1 [])) (Some "void") None.

Definition enumMember (name value : string) (path : list ApiItem) : ApiItemData :=
  mkApiItem EnumMember name name path [ last path 0 ] [] [] true None (Some ReleasePublic)
    (Some (mkDeclared name name)) None None None None None (Some value).

Definition commentOfCount : DocComment :=
  mkDocComment
    [ DocParagraph [ DocPlainText "Counts the books." ] ]
    (Some (mkDocBlock "@REMARKS" [ DocParagraph [ DocPlainText "Slow on long shelves." ] ]))
    (Some (mkDocBlock "@RETURNS"
             [ DocParagraph [ DocPlainText "the number" ];
               DocParagraph [ DocPlainText "of books" ] ]))
    [].

Definition store (i : ApiItem) : ApiItemData :=
  match i with
  | 0 => item Model "" [ 0 ] [ 1 ]
  | 1 => mkApiItem Package "lib" "" [ 0; 1 ] [ 1 ] [ 2 ] [ 2 ] true None
           (Some ReleasePublic) None None None None None None None
  | 2 => item EntryPoint "" [ 0; 1; 2 ] [ 3; 9; 15; 18 ]
  | 3 => item Class "Shelf" [ 0; 1; 2; 3 ] [ 4; 5; 6; 7; 8 ]
  | 4 => method Constructor "(constructor)" [ 0; 1; 2; 3; 4 ] (Some false)
  | 5 => method Method "add" [ 0; 1; 2; 3; 5 ] (Some true)
  | 6 => property Property "size" [ 0; 1; 2; 3; 6 ] false (Some false)
  | 7 => property Property "changed" [ 0; 1; 2; 3; 7 ] true (Some false)
  | 8 => item IndexSignature "" [ 0; 1; 2; 3; 8 ] []
  | 9 => item Interface "Reader" [ 0; 1; 2; 9 ] [ 10; 11; 12; 13; 14 ]
  | 10 => method ConstructSignature "(new)" [ 0; 1; 2; 9; 10 ] None
  | 11 => method MethodSignature "read" [ 0; 1; 2; 9; 11 ] None
  | 12 => property PropertySignature "page" [ 0; 1; 2; 9; 12 ] false None
  | 13 => property PropertySignature "turned" [ 0; 1; 2; 9; 13 ] true None
  | 14 => item CallSignature "" [ 0; 1; 2; 9; 14 ] []
  | 15 => item Enum "Color" [ 0; 1; 2; 15 ] [ 16; 17 ]
  | 16 => enumMember "Red" "0" [ 0; 1; 2; 15; 16 ]
  | 17 => enumMember "Green" "1" [ 0; 1; 2; 15; 17 ]
  | 18 => mkApiItem Function "count" "count" [ 0; 1; 2; 18 ] [ 18 ] [] [] true
            (Some commentOfCount) (Some ReleasePublic)
            (Some (mkDeclared "count" "export declare function count(): number;"))
            None None None (Some (mkParameterList 1 [])) (Some " number ") None
  | _ => item NoKind "" [] []
  end.

Definition externals : Externals :=
  mkExternals store 0 (fun _ _ => mkResolved None None)
    (fun name => name) (fun name => name)
    (fun i => displayName (store i))
    (fun _ => "<!DOCTYPE html>")
    (fun folder file => folder +:+ "/" +:+ file)
    (fun s => s)
    "out" CrLf.

End Library.

(** [row] is the row of the member [apiEnumMember] of an enum: its
    name, its value, its description. *)
Definition listsEnumMember (X : Externals) (contextApiItem apiEnumMember : ApiItem)
  (row : HtmlNode) : Prop :=
  exists value description,
    initializerExcerpt (api_ X apiEnumMember) = Some value
    /\ describes X contextApiItem apiEnumMember description
    /\ row = block (tr [ CellString (getConciseSignature_ X apiEnumMember);
                         CellString value;
                         CellNode description ]).

(** The translation of the summary of [apiItem] throws [e]. *)
Definition summaryThrows (X : Externals) (contextApiItem apiItem : ApiItem) (e : Error)
  : Prop :=
  exists comment,
    isDocumentedItem (api_ X apiItem) = true
    /\ tsdocComment (api_ X apiItem) = Some comment
    /\ translationOf X contextApiItem (summarySection comment) = Thrown e.

(** The packages among the members of the model. *)
Definition packagesOf (X : Externals) (apiMembers : list ApiItem) : list ApiItem :=
  filter (fun apiMember => ApiItemKind_beq (kind (api_ X apiMember)) Package) apiMembers.

(** *** The sections of a page *)

(** What the page gets for the summary, the signature and the remarks
    of one entity; [contextApiItem] is the first entity of the page. *)
Definition summaryOf (X : Externals) (contextApiItem apiItem : ApiItem)
  : list HtmlNode :=
  match isDocumentedItem (api_ X apiItem), tsdocComment (api_ X apiItem) with
  | true, Some comment =>
      match translationOf X contextApiItem (summarySection comment) with
      | Returned nodes => [ tag "div" (ArgString "summary") (ArgNodes nodes) ]
      | _ => []
      end
  | _, _ => []
  end.

Definition signatureOf (X : Externals) (apiItem : ApiItem) : list HtmlNode :=
  match declared (api_ X apiItem) with
  | Some d =>
      if (0 <? String.length (excerptText d))%nat
      then [ tag "pre" (ArgString "signature") (ArgString (excerptWithModifiers d)) ]
      else []
  | None => []
  end.

Definition remarksOf (X : Externals) (contextApiItem apiItem : ApiItem)
  : list HtmlNode :=
  match isDocumentedItem (api_ X apiItem), tsdocComment (api_ X apiItem) with
  | true, Some comment =>
      match remarksBlock comment with
      | Some remarks =>
          match translationOf X contextApiItem (blockNodes remarks) with
          | Returned nodes =>
              [ sectionHeading "Remarks"; tag "div" (ArgNodes nodes) ArgUndefined ]
          | _ => []
          end
      | None => []
      end
  | _, _ => []
  end.

(** The kinds whose page has no table. *)
Definition hasNoTables (k : ApiItemKind) : bool :=
  match k with
  | Property | PropertySignature | TypeAlias | Variable_ => true
  | _ => false
  end.

(** The page made of the nodes [main] in its main container, with no
    node left open. *)
Definition pageOf (first : ApiItem) (main : list HtmlNode) : CustomHtmlEmitter :=
  mkCustom
    (mkEmitter
       (mkBlock "body" None
          [ siteHeader; BlockNode "div" (Some [ ("class", "main") ]) main ])
       [] [ "styles.css" ])
    first.

(** The returns block of the doc comment of an entity that has a
    return type, with the type; [None] when the entity has no return
    type, no doc comment or no returns block. *)
Definition returnsOf (X : Externals) (apiItem : ApiItem) : option (string * DocBlock) :=
  match returnTypeExcerpt (api_ X apiItem),
        isDocumentedItem (api_ X apiItem),
        tsdocComment (api_ X apiItem) with
  | Some returnType, true, Some comment =>
      match returnsBlock comment with
      | Some returns => Some (returnType, returns)
      | None => None
      end
  | _, _, _ => None
  end.

(* ================================================================= *)
(** ** The monad *)

Lemma bind_ret_l {S A B : Type} (x : A) (k : A -> Eff S B) (s : S) :
  bind (ret x) k s = k x s.
Proof. reflexivity. Qed.

Lemma bind_assoc {S A B C : Type} (m : Eff S A) (k : A -> Eff S B) (h : B -> Eff S C)
  (s : S) :
  bind (bind m k) h s = bind m (fun x => bind (k x) h) s.
Proof. unfold bind. destruct (m s) as [s' [x | e | ]]; reflexivity. Qed.

Lemma bind_returned {S A B : Type} (m : Eff S A) (k : A -> Eff S B) (s s' : S) (x : A) :
  m s = (s', Returned x) -> bind m k s = k x s'.
Proof. intros H. unfold bind. rewrite H. reflexivity. Qed.

Lemma forEach_app {S A X : Type} (body : A -> X -> Eff S A) (xs ys : list X) (acc : A)
  (s : S) :
  forEach body (xs ++ ys) acc s = bind (forEach body xs acc) (forEach body ys) s.
Proof.
  revert acc s. induction xs as [| x xs IH]; intros acc s; simpl.
  - reflexivity.
  - unfold bind. destruct (body acc x s) as [s' [acc' | e | ]].
    + rewrite IH. reflexivity.
    + reflexivity.
    + reflexivity.
Qed.

(* ================================================================= *)
(** ** The emitter *)

Lemma appendChild_run (child : HtmlNode) (e : HtmlEmitter) :
  appendChild child e = (withChildren e [ child ], Returned tt).
Proof. reflexivity. Qed.

Lemma withChildren_nil (e : HtmlEmitter) : withChildren e [] = e.
Proof.
  destruct e as [[t at' c] ps st]. unfold withChildren. simpl.
  rewrite app_nil_r. reflexivity.
Qed.

Lemma withChildren_app (e : HtmlEmitter) (xs ys : list HtmlNode) :
  withChildren (withChildren e xs) ys = withChildren e (xs ++ ys).
Proof. unfold withChildren. simpl. rewrite app_assoc. reflexivity. Qed.

Lemma runCalls_app (xs ys : list BuilderCall) (e : HtmlEmitter) :
  runCalls (xs ++ ys) e = bind (runCalls xs) (fun _ => runCalls ys) e.
Proof.
  revert e. induction xs as [| c xs IH]; intros e; simpl.
  - reflexivity.
  - unfold bind. destruct (runCall c e) as [e' [[] | err | ]].
    + rewrite IH. reflexivity.
    + reflexivity.
    + reflexivity.
Qed.

(** C3. closeNode(k) throws and leaves the emitter as it was, when
    only the synthetic root is open or when k is not the tag of the
    innermost open node. *)
Theorem closeNode_rejects (e : HtmlEmitter) (k : string) :
  _parents e = [] \/ type (_current e) <> k ->
  exists message : string,
    closeNode k e = (e, Thrown (JsError message))
    /\ root (fst (closeNode k e)) = root e.
Proof.
  intros H. unfold closeNode.
  destruct (type (_current e) =? k) eqn:Heq; simpl.
  - apply String.eqb_eq in Heq. destruct H as [H | H]; [| contradiction].
    rewrite H. eexists. split; reflexivity.
  - eexists. split; reflexivity.
Qed.

Lemma closeNode_rejects_witness :
  (_parents (newEmitter "body") = [] \/ type (_current (newEmitter "body")) <> "div")
  /\ exists message : string,
       closeNode "div" (newEmitter "body") = (newEmitter "body", Thrown (JsError message))
       /\ root (fst (closeNode "div" (newEmitter "body"))) = root (newEmitter "body").
Proof.
  split.
  - left. reflexivity.
  - apply (closeNode_rejects (newEmitter "body") "div"). left. reflexivity.
Defined.

(** Induction on a nesting, with the property known of every nesting
    inside. *)
Lemma Nesting_forall_ind (P : Nesting -> Prop) :
  (forall child, P (Appended child)) ->
  (forall child inside, Forall P inside -> P (Opened child inside)) ->
  forall n, P n.
Proof.
  intros Hleaf Hnode. fix ind 1. intros [child | child inside].
  - apply Hleaf.
  - apply Hnode. induction inside as [| x rest IH].
    + constructor.
    + constructor; [apply ind | exact IH].
Qed.

Lemma runCalls_nesting (n : Nesting) :
  forall e : HtmlEmitter,
    runCalls (callsOf n) e = (withChildren e [ nodeOf n ], Returned tt).
Proof.
  induction n as [child | child inside IH] using Nesting_forall_ind; intros e.
  - reflexivity.
  - assert (Hin : forall e', runCalls (flat_map callsOf inside) e'
                             = (withChildren e' (map nodeOf inside), Returned tt)).
    { induction IH as [| x l Hx Hl IHl]; intros e'.
      - simpl. rewrite withChildren_nil. reflexivity.
      - simpl. rewrite runCalls_app. unfold bind. rewrite Hx. rewrite IHl.
        rewrite withChildren_app. reflexivity. }
    change (callsOf (Opened child inside))
      with (CallOpen child :: flat_map callsOf inside ++ [ CallClose (type child) ]).
    cbn [runCalls runCall]. unfold bind at 1. cbn [openNode modify bind ret].
    rewrite runCalls_app. unfold bind. rewrite Hin.
    cbn [runCalls runCall]. unfold bind, closeNode. cbn.
    rewrite String.eqb_refl. cbn. unfold withChildren, content_push, block. cbn.
    reflexivity.
Qed.

(** A forest of nestings, run from any state of the emitter, returns
    and adds its nodes, in order, to the innermost open node. *)
Lemma runCalls_forest (forest : list Nesting) :
  forall e : HtmlEmitter,
    runCalls (flat_map callsOf forest) e
    = (withChildren e (map nodeOf forest), Returned tt).
Proof.
  induction forest as [| n forest IH]; intros e.
  - simpl. rewrite withChildren_nil. reflexivity.
  - simpl. rewrite runCalls_app. unfold bind. rewrite runCalls_nesting. rewrite IH.
    rewrite withChildren_app. reflexivity.
Qed.

Lemma forest_balanced_step (forest : list Nesting) :
  Forall (fun n => forall open rest,
              balancedFrom open (callsOf n ++ rest) = balancedFrom open rest) forest ->
  forall open rest,
    balancedFrom open (flat_map callsOf forest ++ rest) = balancedFrom open rest.
Proof.
  induction 1 as [| x l Hx Hl IHl]; intros open rest.
  - reflexivity.
  - simpl. rewrite <- app_assoc. rewrite Hx. apply IHl.
Qed.

Lemma nesting_balanced (n : Nesting) :
  forall (open : list string) (rest : list BuilderCall),
    balancedFrom open (callsOf n ++ rest) = balancedFrom open rest.
Proof.
  induction n as [child | child inside IH] using Nesting_forall_ind; intros open rest.
  - reflexivity.
  - cbn [callsOf app balancedFrom]. rewrite <- app_assoc.
    rewrite (forest_balanced_step inside IH).
    cbn [app balancedFrom]. rewrite String.eqb_refl. reflexivity.
Qed.

Lemma forest_balanced (forest : list Nesting) :
  forall (open : list string) (rest : list BuilderCall),
    balancedFrom open (flat_map callsOf forest ++ rest) = balancedFrom open rest.
Proof.
  apply forest_balanced_step. apply Forall_forall. intros n _. apply nesting_balanced.
Qed.




(** Every forest writes a balanced sequence, so the statement above
    covers the sequence of every forest. *)
Lemma forest_calls_balanced (forest : list Nesting) :
  balancedFrom [] (flat_map callsOf forest) = true.
Proof.
  rewrite <- (app_nil_r (flat_map callsOf forest)). rewrite forest_balanced. reflexivity.
Qed.

(** The callback form of openNode: the node is opened, the callback
    runs, and the node is closed with its own tag. *)
Lemma openNode_with_callback (child : BlockHtmlNode) (inside : list Nesting)
  (e : HtmlEmitter) :
  openNode child (Some (runCalls (flat_map callsOf inside))) e
  = (withChildren e [ nodeOf (Opened child inside) ], Returned tt).
Proof.
  unfold openNode, bind, modify. rewrite runCalls_forest.
  unfold closeNode. cbn. rewrite String.eqb_refl. cbn. reflexivity.
Qed.

(** Closing the innermost open node does not change the tree: an open
    node is already the last child of its parent. *)
Lemma closeNode_keeps_root (e : HtmlEmitter) (parent : BlockHtmlNode)
  (rest : list BlockHtmlNode) :
  _parents e = parent :: rest ->
  closeNode (type (_current e)) e
  = (mkEmitter (content_push parent (block (_current e))) rest (_styles e), Returned tt)
  /\ root (fst (closeNode (type (_current e)) e)) = root e.
Proof.
  intros H. unfold closeNode. rewrite String.eqb_refl. cbn. rewrite H. split.
  - reflexivity.
  - unfold root. cbn. rewrite H. reflexivity.
Qed.

(** C7, as the code has it.  Nesting is checked when a node is closed
    and nowhere else: emit() never throws and leaves the emitter as it
    is, whatever nodes are open; the document it renders holds every
    open node as the last child of its parent, the same tree as after
    closing the innermost open node; and a translated doc comment
    whose start tag is never closed is returned with that node in it. *)
Theorem emit_does_not_check_open_nodes (e : HtmlEmitter)
  (renderHTML : list HtmlNode -> string) :
  emit renderHTML e = (e, Returned (renderHTML (emitDocument e)))
  /\ (forall parent rest,
         _parents e = parent :: rest ->
         exists e',
           closeNode (type (_current e)) e = (e', Returned tt)
           /\ _parents e' = rest
           /\ emitDocument e' = emitDocument e)
  /\ (forall (X : Externals) (contextApiItem : ApiItem) (name : string) (w : World),
         _createDocNodes X [ DocHtmlStartTag name ] contextApiItem w
         = (w, Returned [ BlockNode name None [] ])).
Proof.
  split; [reflexivity | split].
  - intros parent rest H.
    destruct (closeNode_keeps_root e parent rest H) as [Hrun Hroot].
    eexists. split; [exact Hrun |]. split; [reflexivity |].
    rewrite Hrun in Hroot. cbn [fst] in Hroot.
    unfold emitDocument. rewrite Hroot. reflexivity.
  - intros X contextApiItem name w. reflexivity.
Qed.

(** C7 as stated fails: with a node still open, emit() returns a
    document, and the translation of a doc comment that opens a tag
    and does not close it returns the nodes. *)
Lemma finalize_with_open_node_returns :
  exists e : HtmlEmitter,
    runCalls [ CallOpen (tagBlock "b" None []); CallAppend (TextNode "span" None "x") ]
      (newEmitter "body") = (e, Returned tt)
    /\ length (_parents e) = 1
    /\ (forall renderHTML : list HtmlNode -> string,
           emit renderHTML e
           = (e, Returned
                   (renderHTML
                      [ BlockNode "head" None [];
                        BlockNode "body" None
                          [ BlockNode "b" None [ TextNode "span" None "x" ] ] ])))
    /\ (forall (X : Externals) (contextApiItem : ApiItem) (w : World),
           _createDocNodes X [ DocHtmlStartTag "b"; DocPlainText "x" ] contextApiItem w
           = (w, Returned [ BlockNode "b" None [ TextNode "span" None "x" ] ])).
Proof.
  eexists. split; [reflexivity |]. split; [reflexivity |]. split.
  - intros renderHTML. reflexivity.
  - intros X contextApiItem w. reflexivity.
Qed.

(* ================================================================= *)
(** ** Properties that every step of the documenter keeps *)

Lemma bind_inv {S A B : Type} (m : Eff S A) (k : A -> Eff S B) (s s' : S) (b : B) :
  bind m k s = (s', Returned b) ->
  exists s1 x, m s = (s1, Returned x) /\ k x s1 = (s', Returned b).
Proof.
  unfold bind. destruct (m s) as [s1 [x | e | ]]; intros H.
  - exists s1, x. split; [reflexivity | exact H].
  - discriminate.
  - discriminate.
Qed.

(** Induction on a doc node, with the property known of the nodes
    inside. *)
Lemma DocNode_forall_ind (P : DocNode -> Prop) :
  (forall nodes, Forall P nodes -> P (DocParagraph nodes)) ->
  (forall nodes, Forall P nodes -> P (DocBlockNode nodes)) ->
  (forall node, (forall nodes, node <> DocParagraph nodes) ->
                (forall nodes, node <> DocBlockNode nodes) -> P node) ->
  forall node, P node.
Proof.
  intros Hparagraph Hblock Hother. fix ind 1. intros node.
  assert (Hall : forall nodes, Forall P nodes).
  { induction nodes as [| x rest IH]; constructor; [apply ind | exact IH]. }
  destruct node;
    try (apply Hother; intros; discriminate).
  - apply Hparagraph. apply Hall.
  - apply Hblock. apply Hall.
Qed.

Lemma appendChild_ends (child : HtmlNode) (e : HtmlEmitter) :
  snd (appendChild child e) <> OutOfFuel.
Proof. discriminate. Qed.

Lemma addStyle_ends (style : string) (e : HtmlEmitter) :
  snd (addStyle style e) <> OutOfFuel.
Proof. discriminate. Qed.

Lemma openNode_ends (child : BlockHtmlNode) (e : HtmlEmitter) :
  snd (openNode child None e) <> OutOfFuel.
Proof. discriminate. Qed.

Lemma closeNode_ends (name : string) (e : HtmlEmitter) :
  snd (closeNode name e) <> OutOfFuel.
Proof.
  unfold closeNode. destruct (negb (type (_current e) =? name)); [discriminate |].
  destruct (_parents e); discriminate.
Qed.

Lemma emit_ends (renderHTML : list HtmlNode -> string) (e : HtmlEmitter) :
  snd (emit renderHTML e) <> OutOfFuel.
Proof. discriminate. Qed.

Section Compositional.

Variable X : Externals.

(** A property of computations that holds of the primitive steps and
    is kept by sequencing. *)
Variable P : forall A : Type, Eff World A -> Prop.
Hypothesis P_ret : forall (A : Type) (x : A), P A (ret x).
Hypothesis P_throw : forall (A : Type) (e : Error), P A (throw e).
Hypothesis P_bind :
  forall (A B : Type) (m : Eff World A) (k : A -> Eff World B),
    P A m -> (forall x, P B (k x)) -> P B (bind m k).
Hypothesis P_log : forall line : string, P unit (console_log line).
Hypothesis P_call :
  forall (S A : Type) (obj : S) (m : Eff S A),
    snd (m obj) <> OutOfFuel -> P (S * A) (call obj m).

Lemma P_bind_ret (A B : Type) (x : A) (k : A -> Eff World B) :
  P B (k x) -> P B (bind (ret x) k).
Proof. intros H. exact H. Qed.

Lemma P_bind_throw (A B : Type) (e : Error) (k : A -> Eff World B) :
  P B (bind (throw e) k).
Proof. exact (P_throw B e). Qed.

Lemma P_send (S : Type) (obj : S) (m : Eff S unit) :
  snd (m obj) <> OutOfFuel -> P S (send obj m).
Proof.
  intros H. unfold send. apply P_bind; [apply P_call; exact H | intros r; apply P_ret].
Qed.

Lemma P_sendTo (output : CustomHtmlEmitter) (m : Eff HtmlEmitter unit) :
  snd (m (emitter output)) <> OutOfFuel -> P CustomHtmlEmitter (sendTo output m).
Proof.
  intros H. unfold sendTo. apply P_bind; [apply P_send; exact H | intros r; apply P_ret].
Qed.

Lemma P_forEach (A B : Type) (body : A -> B -> Eff World A) (xs : list B) :
  (forall acc x, In x xs -> P A (body acc x)) ->
  forall acc, P A (forEach body xs acc).
Proof.
  induction xs as [| x xs IH]; intros H acc; simpl.
  - apply P_ret.
  - apply P_bind.
    + apply H. left. reflexivity.
    + intros acc'. apply IH. intros acc'' y Hy. apply H. right. exact Hy.
Qed.

Ltac emitter_ends :=
  first [ apply appendChild_ends | apply addStyle_ends | apply openNode_ends
        | apply closeNode_ends | apply emit_ends ].

Ltac compositional :=
  repeat first
    [ apply P_ret
    | apply P_throw
    | apply P_log
    | apply P_send; emitter_ends
    | apply P_sendTo; emitter_ends
    | assumption
    | apply P_bind; [ | intro ]
    | progress cbv zeta
    | match goal with
      | |- P _ (match ?x with _ => _ end) => destruct x
      | |- P _ (if ?x then _ else _) => destruct x
      end ].

Lemma P_createDocNodesWith
  (translate : HtmlEmitter -> DocNode -> Eff World HtmlEmitter) (nodes : list DocNode) :
  (forall result node, In node nodes -> P HtmlEmitter (translate result node)) ->
  P (list HtmlNode) (createDocNodesWith translate nodes).
Proof.
  intros H. unfold createDocNodesWith. apply P_bind.
  - apply P_forEach. exact H.
  - intros result. apply P_ret.
Qed.

Lemma P_translateDocNode (contextApiItem : ApiItem) (node : DocNode) :
  forall result, P HtmlEmitter (translateDocNode X contextApiItem result node).
Proof.
  induction node as [nodes IH | nodes IH | node Hp Hb] using DocNode_forall_ind;
    intros result.
  - cbn [translateDocNode]. apply P_bind.
    + apply P_createDocNodesWith. intros r n Hn.
      rewrite Forall_forall in IH. apply IH. exact Hn.
    + intros children. compositional.
  - cbn [translateDocNode]. apply P_bind.
    + apply P_createDocNodesWith. intros r n Hn.
      rewrite Forall_forall in IH. apply IH. exact Hn.
    + intros children. compositional.
  - destruct node; cbn [translateDocNode]; compositional.
    + exfalso. eapply Hp. reflexivity.
    + exfalso. eapply Hb. reflexivity.
Qed.

Lemma P_createDocNodes (nodes : list DocNode) (contextApiItem : ApiItem) :
  P (list HtmlNode) (_createDocNodes X nodes contextApiItem).
Proof.
  unfold _createDocNodes. apply P_createDocNodesWith.
  intros result node _. apply P_translateDocNode.
Qed.

Ltac steps :=
  repeat first
    [ apply P_ret
    | apply P_throw
    | apply P_log
    | apply P_createDocNodes
    | apply P_send; emitter_ends
    | apply P_sendTo; emitter_ends
    | assumption
    | apply P_forEach; intros ? ? ?
    | apply P_bind; [ | intro ]
    | progress cbv zeta
    | match goal with
      | |- P _ (match ?x with _ => _ end) => destruct x
      | |- P _ (if ?x then _ else _) => destruct x
      end ].

Lemma P_createDescriptionCell (apiItem contextApiItem : ApiItem) :
  P HtmlNode (_createDescriptionCell X apiItem contextApiItem).
Proof. unfold _createDescriptionCell. steps. Qed.

Lemma P_writeTableIfLonger (least : nat) (title : string) (t : BlockHtmlNode)
  (output : CustomHtmlEmitter) :
  P CustomHtmlEmitter (writeTableIfLonger least title t output).
Proof. unfold writeTableIfLonger. steps. Qed.

Lemma P_writeSections (T : Type) (sections : list (T * string))
  (tables : T -> BlockHtmlNode) (output : CustomHtmlEmitter) :
  P CustomHtmlEmitter (writeSections sections tables output).
Proof.
  unfold writeSections. apply P_forEach. intros acc x _. apply P_writeTableIfLonger.
Qed.

Lemma P_writeBreadcrumb (output : CustomHtmlEmitter) (apiItem : ApiItem) :
  P CustomHtmlEmitter (_writeBreadcrumb X output apiItem).
Proof. unfold _writeBreadcrumb. steps. Qed.

Lemma P_writeRemarksSection (output : CustomHtmlEmitter) (apiItem : ApiItem) :
  P CustomHtmlEmitter (_writeRemarksSection X output apiItem).
Proof. unfold _writeRemarksSection. steps. Qed.

Lemma P_writeThrowsSection (output : CustomHtmlEmitter) (apiItem : ApiItem) :
  P CustomHtmlEmitter (_writeThrowsSection X output apiItem).
Proof. unfold _writeThrowsSection, throwsRow. steps. Qed.

Lemma P_parameterRow (contextApiItem : ApiItem) (acc : BlockHtmlNode * Cell)
  (apiParameter : Parameter_) :
  P (BlockHtmlNode * Cell) (parameterRow X contextApiItem acc apiParameter).
Proof. unfold parameterRow. destruct acc. steps. Qed.

Lemma P_writeParameterTables (output : CustomHtmlEmitter) (apiItem : ApiItem) :
  P CustomHtmlEmitter (_writeParameterTables X output apiItem).
Proof.
  unfold _writeParameterTables.
  destruct (parameterList (api_ X apiItem)); [| apply P_throw].
  apply P_bind; [apply P_forEach; intros; apply P_parameterRow |].
  intros acc. apply P_bind; [apply P_writeTableIfLonger |]. intros output'. steps.
Qed.

Lemma P_writeEnumTables (output : CustomHtmlEmitter) (apiEnum : ApiItem) :
  P CustomHtmlEmitter (_writeEnumTables X output apiEnum).
Proof.
  unfold _writeEnumTables. apply P_bind; [| intros; apply P_writeTableIfLonger].
  apply P_forEach. intros acc x _.
  destruct (initializerExcerpt (api_ X x)); [| apply P_throw].
  apply P_bind; [apply P_createDescriptionCell | intros; apply P_ret].
Qed.

Lemma P_writePageHeader (output : CustomHtmlEmitter) (first : ApiItem) :
  P CustomHtmlEmitter (writePageHeader X output first).
Proof. unfold writePageHeader. steps. Qed.

Lemma P_writeSummary (output : CustomHtmlEmitter) (apiItem : ApiItem) :
  P CustomHtmlEmitter (writeSummary X output apiItem).
Proof. unfold writeSummary. steps. Qed.

Lemma P_writeSignature (output : CustomHtmlEmitter) (apiItem : ApiItem) :
  P CustomHtmlEmitter (writeSignature X output apiItem).
Proof. unfold writeSignature. steps. Qed.

(** The functions that ask for the pages of members keep the property
    when the pages asked for do. *)
Section WithSelf.

Variable self : ApiItem -> Eff World unit.

Lemma P_writeModelTable (output : CustomHtmlEmitter) (apiModel : ApiItem) :
  (forall m, In m (members (api_ X apiModel)) -> P unit (self m)) ->
  P CustomHtmlEmitter (_writeModelTable X self output apiModel).
Proof.
  intros Hself. unfold _writeModelTable.
  apply P_bind; [| intros; apply P_writeTableIfLonger].
  apply P_forEach. intros acc x Hx.
  apply P_bind; [apply P_createDescriptionCell |]. intros description. cbv zeta.
  specialize (Hself x Hx).
  destruct (kind (api_ X x)); steps.
Qed.

Lemma P_writePackageOrNamespaceTables (output : CustomHtmlEmitter)
  (apiContainer : ApiItem) :
  (forall m, In m (scheduled X apiContainer) -> P unit (self m)) ->
  P CustomHtmlEmitter (_writePackageOrNamespaceTables X self output apiContainer).
Proof.
  intros Hself. unfold _writePackageOrNamespaceTables.
  assert (Hloop : forall apiMembers,
             (forall m, In m apiMembers -> P unit (self m)) ->
             P CustomHtmlEmitter
               (tables <-
                  forEach (fun tables apiMember =>
                     description <- _createDescriptionCell X apiMember (contextApiItem output) ;;
                     let row := tr [ CellNode (_createTitleCell X apiMember);
                                     CellNode description ] in
                     match containerTableOf X apiMember with
                     | Some t =>
                         let tables := pushRow ContainerTables.name_beq t row tables in
                         self apiMember ;;; ret tables
                     | None => ret tables
                     end) apiMembers newContainerTables ;;
                writeSections containerSections tables output)).
  { intros apiMembers H. apply P_bind; [| intros; apply P_writeSections].
    apply P_forEach. intros acc x Hx.
    apply P_bind; [apply P_createDescriptionCell |]. intros description. cbv zeta.
    specialize (H x Hx). destruct (containerTableOf X x); steps. }
  unfold scheduled in Hself.
  destruct (kind (api_ X apiContainer));
    try (apply P_bind_ret; apply Hloop; exact Hself).
  destruct (entryPoints (api_ X apiContainer)) as [| entryPoint others].
  - apply P_bind_throw.
  - apply P_bind_ret. apply Hloop. exact Hself.
Qed.

Lemma P_writeClassTables (output : CustomHtmlEmitter) (apiClass : ApiItem) :
  (forall m, In m (members (api_ X apiClass)) -> P unit (self m)) ->
  P CustomHtmlEmitter (_writeClassTables X self output apiClass).
Proof.
  intros Hself. unfold _writeClassTables.
  apply P_bind; [| intros; apply P_writeSections].
  apply P_forEach. intros acc x Hx. specialize (Hself x Hx).
  destruct (kind (api_ X x)); try apply P_ret;
    (apply P_bind; [apply P_createDescriptionCell | intros description; steps]).
Qed.

Lemma P_writeInterfaceTables (output : CustomHtmlEmitter) (apiClass : ApiItem) :
  (forall m, In m (members (api_ X apiClass)) -> P unit (self m)) ->
  P CustomHtmlEmitter (_writeInterfaceTables X self output apiClass).
Proof.
  intros Hself. unfold _writeInterfaceTables.
  apply P_bind; [| intros; apply P_writeSections].
  apply P_forEach. intros acc x Hx. specialize (Hself x Hx).
  destruct (kind (api_ X x)); try apply P_ret;
    (apply P_bind; [apply P_createDescriptionCell | intros description; steps]).
Qed.

Lemma P_writeKindTables (output : CustomHtmlEmitter) (apiItem : ApiItem) :
  (forall m, In m (scheduled X apiItem) -> P unit (self m)) ->
  P CustomHtmlEmitter (writeKindTables X self output apiItem).
Proof.
  intros Hself. unfold writeKindTables.
  pose proof (P_writePackageOrNamespaceTables output apiItem Hself) as Hcontainer.
  unfold scheduled in Hself.
  destruct (kind (api_ X apiItem)); try apply P_throw; try apply P_ret;
    try exact Hcontainer;
    try (apply P_bind; [apply P_writeParameterTables
                       | intros; apply P_writeThrowsSection]).
  - apply P_writeClassTables. exact Hself.
  - apply P_writeEnumTables.
  - apply P_writeInterfaceTables. exact Hself.
  - apply P_writeModelTable. exact Hself.
Qed.

Lemma P_writePageContent (first : ApiItem) (apiItems : list ApiItem) :
  (forall i m, In i apiItems -> In m (scheduled X i) -> P unit (self m)) ->
  P CustomHtmlEmitter (writePageContent X self first apiItems).
Proof.
  intros Hself. unfold writePageContent. cbv zeta.
  apply P_bind; [apply P_sendTo; apply addStyle_ends | intros output1].
  apply P_bind; [apply P_sendTo; apply appendChild_ends | intros output2].
  apply P_bind; [apply P_sendTo; apply openNode_ends | intros output3].
  apply P_bind; [apply P_writeBreadcrumb | intros output4].
  apply P_bind; [apply P_writePageHeader | intros output5].
  apply P_bind; [destruct (existsb (isBeta X) apiItems); apply P_ret | intros output6].
  apply P_bind; [apply P_forEach; intros; apply P_writeSummary | intros output7].
  apply P_bind; [| intros output8].
  { destruct (0 <? length (filter (hasSignature X) apiItems))%nat;
      [apply P_sendTo; apply appendChild_ends | apply P_ret]. }
  apply P_bind; [apply P_forEach; intros; apply P_writeSignature | intros output9].
  apply P_bind; [apply P_forEach; intros; apply P_writeRemarksSection | intros output10].
  apply P_bind; [| intros output11; apply P_sendTo; apply closeNode_ends].
  apply P_forEach. intros acc i Hi. apply P_writeKindTables.
  intros m Hm. apply (Hself i m Hi Hm).
Qed.

End WithSelf.

End Compositional.

(* ================================================================= *)
(** ** Three such properties *)

Lemma logged_nil (w : World) : logged w [] = w.
Proof. destruct w. unfold logged. simpl. rewrite app_nil_r. reflexivity. Qed.

Lemma logged_app (w : World) (xs ys : list string) :
  logged (logged w xs) ys = logged w (xs ++ ys).
Proof. unfold logged. simpl. rewrite app_assoc. reflexivity. Qed.

Lemma logsOnly_ret (A : Type) (x : A) : logsOnly (@ret World A x).
Proof.
  exists [], (Returned x). split; [discriminate |]. intros w.
  change (mkWorld (console w ++ []) (files w)) with (logged w []).
  rewrite logged_nil. reflexivity.
Qed.

Lemma logsOnly_throw (A : Type) (e : Error) : logsOnly (@throw World A e).
Proof.
  exists [], (Thrown e). split; [discriminate |]. intros w.
  change (mkWorld (console w ++ []) (files w)) with (logged w []).
  rewrite logged_nil. reflexivity.
Qed.

Lemma logsOnly_bind (A B : Type) (m : Eff World A) (k : A -> Eff World B) :
  logsOnly m -> (forall x, logsOnly (k x)) -> logsOnly (bind m k).
Proof.
  intros (log & out & Hout & Hm) Hk. destruct out as [x | e | ].
  - destruct (Hk x) as (log' & out' & Hout' & Hkx).
    exists (log ++ log'), out'. split; [exact Hout' |]. intros w.
    unfold bind. rewrite Hm. rewrite Hkx. simpl. rewrite app_assoc. reflexivity.
  - exists log, (Thrown e). split; [discriminate |]. intros w.
    unfold bind. rewrite Hm. reflexivity.
  - contradiction.
Qed.

Lemma logsOnly_log (line : string) : logsOnly (console_log line).
Proof. exists [ line ], (Returned tt). split; [discriminate |]. reflexivity. Qed.

Lemma logsOnly_call (S A : Type) (obj : S) (m : Eff S A) :
  snd (m obj) <> OutOfFuel -> logsOnly (@call World S A obj m).
Proof.
  intros H. unfold call.
  destruct (m obj) as [obj' [r | e | ]] eqn:Hrun.
  - exists [], (Returned (obj', r)). split; [discriminate |]. intros w.
    change (mkWorld (console w ++ []) (files w)) with (logged w []).
    rewrite logged_nil. reflexivity.
  - exists [], (Thrown e). split; [discriminate |]. intros w.
    change (mkWorld (console w ++ []) (files w)) with (logged w []).
    rewrite logged_nil. reflexivity.
  - exfalso. apply H. reflexivity.
Qed.



Lemma ends_bind (A B : Type) (m : Eff World A) (k : A -> Eff World B) :
  ends m -> (forall x, ends (k x)) -> ends (bind m k).
Proof.
  intros Hm Hk w. unfold bind. specialize (Hm w).
  destruct (m w) as [w' [x | e | ]]; simpl in *.
  - apply Hk.
  - discriminate.
  - exfalso. apply Hm. reflexivity.
Qed.

Lemma ends_call (S A : Type) (obj : S) (m : Eff S A) :
  snd (m obj) <> OutOfFuel -> ends (@call World S A obj m).
Proof.
  intros H w. unfold call. destruct (m obj) as [obj' [r | e | ]]; simpl in *.
  - discriminate.
  - discriminate.
  - exfalso. apply H. reflexivity.
Qed.

(** A computation that only logs, run in any world. *)
Lemma logsOnly_run {A : Type} (m : Eff World A) :
  logsOnly m ->
  forall w, m w = (logged w (console (fst (m emptyWorld))), snd (m emptyWorld)).
Proof.
  intros (log & out & _ & H) w. rewrite (H emptyWorld). simpl. apply H.
Qed.

Lemma createDocNodes_logsOnly (X : Externals) (nodes : list DocNode)
  (contextApiItem : ApiItem) :
  logsOnly (_createDocNodes X nodes contextApiItem).
Proof.
  apply (P_createDocNodes X (@logsOnly)).
  - exact logsOnly_ret.
  - exact logsOnly_throw.
  - exact logsOnly_bind.
  - exact logsOnly_log.
  - exact logsOnly_call.
Qed.

(** The translation of doc nodes in any world: the warnings are added
    to the console, and the nodes do not depend on the world. *)
Lemma createDocNodes_run (X : Externals) (nodes : list DocNode)
  (contextApiItem : ApiItem) (w : World) :
  _createDocNodes X nodes contextApiItem w
  = (logged w (warningsOf X contextApiItem nodes), translationOf X contextApiItem nodes).
Proof. apply (logsOnly_run _ (createDocNodes_logsOnly X nodes contextApiItem)). Qed.

Lemma translationOf_ends (X : Externals) (contextApiItem : ApiItem)
  (nodes : list DocNode) :
  translationOf X contextApiItem nodes <> OutOfFuel.
Proof.
  destruct (createDocNodes_logsOnly X nodes contextApiItem) as (log & out & Hout & H).
  unfold translationOf. rewrite H. exact Hout.
Qed.

(* ================================================================= *)
(** ** Doc comments *)

Lemma forEach_translate_logsOnly (X : Externals) (contextApiItem : ApiItem)
  (nodes : list DocNode) (result : HtmlEmitter) :
  logsOnly (forEach (translateDocNode X contextApiItem) nodes result).
Proof.
  apply (P_forEach (@logsOnly)).
  - exact logsOnly_ret.
  - exact logsOnly_bind.
  - intros acc x _. apply (P_translateDocNode X (@logsOnly)).
    + exact logsOnly_ret.
    + exact logsOnly_throw.
    + exact logsOnly_bind.
    + exact logsOnly_log.
    + exact logsOnly_call.
Qed.

(** The nodes translated do not depend on the console. *)
Lemma forEach_translate_same (X : Externals) (contextApiItem : ApiItem)
  (nodes : list DocNode) (result : HtmlEmitter) (w w' : World) :
  snd (forEach (translateDocNode X contextApiItem) nodes result w)
  = snd (forEach (translateDocNode X contextApiItem) nodes result w').
Proof.
  destruct (forEach_translate_logsOnly X contextApiItem nodes result)
    as (log & out & _ & H).
  rewrite (H w), (H w'). reflexivity.
Qed.

(** C8. A link whose code destination the model does not resolve, the
    model giving an error message: nothing is added to the translated
    nodes, one line is written to the console, the translation goes
    on with the nodes that follow, and the nodes translated are those
    of the comment without the link. *)
Theorem unresolved_reference_is_skipped (X : Externals) (contextApiItem : ApiItem)
  (linkText urlDestination : option string) (destination : DocDeclarationReference)
  (message : string) :
  truthyOption urlDestination = false ->
  resolveDeclarationReference_ X destination contextApiItem
  = mkResolved None (Some message) ->
  truthyString message = true ->
  let link := DocLinkTag linkText urlDestination (Some destination) in
  let line := unresolvedWarning destination message in
  (forall result w,
      translateDocNode X contextApiItem result link w = (logged w [ line ], Returned result))
  /\ (forall result after w,
         forEach (translateDocNode X contextApiItem) (link :: after) result w
         = forEach (translateDocNode X contextApiItem) after result (logged w [ line ]))
  /\ (forall w, _createDocNodes X [ link ] contextApiItem w
                = (logged w [ line ], Returned []))
  /\ (forall before after,
         translationOf X contextApiItem (before ++ link :: after)
         = translationOf X contextApiItem (before ++ after)).
Proof.
  intros Hurl Hlookup Hmessage link line.
  assert (Hstep : forall result w,
             translateDocNode X contextApiItem result link w
             = (logged w [ line ], Returned result)).
  { intros result w. unfold link. cbn [translateDocNode].
    rewrite Hurl, Hlookup. cbn [resolvedApiItem errorMessage]. rewrite Hmessage.
    reflexivity. }
  assert (Hcont : forall result after w,
             forEach (translateDocNode X contextApiItem) (link :: after) result w
             = forEach (translateDocNode X contextApiItem) after result (logged w [ line ])).
  { intros result after w. cbn [forEach]. unfold bind. rewrite Hstep. reflexivity. }
  split; [exact Hstep |]. split; [exact Hcont |]. split.
  - intros w. unfold _createDocNodes, createDocNodesWith, bind.
    rewrite Hcont. reflexivity.
  - intros before after.
    unfold translationOf, _createDocNodes, createDocNodesWith, bind.
    rewrite !forEach_app. unfold bind.
    destruct (forEach (translateDocNode X contextApiItem) before
                (newEmitter defaultRootTag) emptyWorld) as [w1 [r | e | ]].
    + rewrite Hcont.
      pose proof (forEach_translate_same X contextApiItem after r
                    (logged w1 [ line ]) w1) as Hsame.
      destruct (forEach (translateDocNode X contextApiItem) after r (logged w1 [ line ]))
        as [w2 [r2 | e2 | ]];
        destruct (forEach (translateDocNode X contextApiItem) after r w1)
          as [w3 [r3 | e3 | ]];
        simpl in Hsame; try discriminate; try reflexivity.
      * injection Hsame as ->. reflexivity.
      * injection Hsame as ->. reflexivity.
    + reflexivity.
    + reflexivity.
Qed.

Lemma unresolved_reference_is_skipped_witness :
  let X := Scenario.externals in
  let destination := Scenario.missingReference in
  let message := "The reference could not be resolved" in
  let link := DocLinkTag None None (Some destination) in
  let line := unresolvedWarning destination message in
  (forall result w,
      translateDocNode X 8 result link w = (logged w [ line ], Returned result))
  /\ (forall result after w,
         forEach (translateDocNode X 8) (link :: after) result w
         = forEach (translateDocNode X 8) after result (logged w [ line ]))
  /\ (forall w, _createDocNodes X [ link ] 8 w = (logged w [ line ], Returned []))
  /\ (forall before after,
         translationOf X 8 (before ++ link :: after)
         = translationOf X 8 (before ++ after)).
Proof.
  intros X destination message link line.
  apply (unresolved_reference_is_skipped X 8 None None destination message);
    reflexivity.
Defined.

(** The branch of the link case that C8 does not cover: a lookup that
    gives neither an entity nor an error message adds nothing and
    logs nothing. *)
Lemma unresolved_reference_without_message (X : Externals) (contextApiItem : ApiItem)
  (linkText urlDestination : option string) (destination : DocDeclarationReference)
  (result : HtmlEmitter) (w : World) :
  truthyOption urlDestination = false ->
  resolveDeclarationReference_ X destination contextApiItem = mkResolved None None ->
  translateDocNode X contextApiItem result
    (DocLinkTag linkText urlDestination (Some destination)) w
  = (w, Returned result).
Proof.
  intros Hurl Hlookup. cbn [translateDocNode]. rewrite Hurl, Hlookup. reflexivity.
Qed.

(** The function g of the small model has a summary with a reference
    that is not resolved and a start tag that is never closed: its
    page is written, the console has the one warning, and the summary
    has no anchor and holds the open node with the text after it. *)
Lemma page_with_unresolved_reference :
  let X := Scenario.externals in
  _writeApiItemPage X 1 8 emptyWorld
  = (mkWorld
       [ unresolvedWarning Scenario.missingReference "The reference could not be resolved" ]
       [ mkFileWrite "out/pkg.g.html" "<!DOCTYPE html>" CrLf ],
     Returned tt)
  /\ translationOf X 8 (summarySection Scenario.commentOfG1)
     = Returned [ BlockNode "p" None
                    [ TextNode "span" None "See ";
                      BlockNode "b" None [ TextNode "span" None "bold" ] ] ]
  /\ match translationOf X 8 (summarySection Scenario.commentOfG1) with
     | Returned nodes => existsb anchorOccurs nodes = false
     | _ => False
     end.
Proof. intros X. repeat split; vm_compute; reflexivity. Qed.

(** An end tag that does not match the open start tag stops the
    translation with the error of closeNode. *)
Lemma mismatched_end_tag_throws (X : Externals) (contextApiItem : ApiItem) (w : World) :
  _createDocNodes X [ DocHtmlStartTag "b"; DocPlainText "x"; DocHtmlEndTag "i" ]
    contextApiItem w
  = (w, Thrown (JsError "Unexpected closing tag. Expected: b Actual: i")).
Proof. reflexivity. Qed.

(* ================================================================= *)
(** ** File names *)

Lemma append_assoc (s1 s2 s3 : string) : (s1 +:+ s2) +:+ s3 = s1 +:+ (s2 +:+ s3).
Proof. induction s1 as [| c s1 IH]; simpl; [reflexivity | rewrite IH; reflexivity]. Qed.

Lemma length_append (s1 s2 : string) :
  String.length (s1 +:+ s2) = String.length s1 + String.length s2.
Proof. induction s1 as [| c s1 IH]; simpl; [reflexivity | rewrite IH; reflexivity]. Qed.

Lemma append_inj_l (s x y : string) : s +:+ x = s +:+ y -> x = y.
Proof.
  induction s as [| c s IH]; simpl; intros H.
  - exact H.
  - injection H as H. apply IH. exact H.
Qed.

Lemma append_inj_r (t x y : string) : x +:+ t = y +:+ t -> x = y.
Proof.
  revert y. induction x as [| c x IH]; intros [| d y] H; simpl in H.
  - reflexivity.
  - exfalso. apply (f_equal String.length) in H. simpl in H.
    rewrite length_append in H. lia.
  - exfalso. apply (f_equal String.length) in H. simpl in H.
    rewrite length_append in H. lia.
  - injection H as -> H. f_equal. apply IH. exact H.
Qed.

Lemma decimal_inj (n m : Z) : (0 < n)%Z -> (0 < m)%Z -> decimal n = decimal m -> n = m.
Proof.
  intros Hn Hm H. unfold decimal in H.
  apply DecimalZ.to_int_inj.
  assert (Hnil : forall z, (0 < z)%Z -> Z.to_int z <> Decimal.Pos Decimal.Nil
                                        /\ Z.to_int z <> Decimal.Neg Decimal.Nil).
  { intros z Hz. destruct z as [| p | p]; try lia. simpl. split.
    - intros E. injection E as E. exact (DecimalPos.Unsigned.to_uint_nonnil p E).
    - discriminate. }
  destruct (Hnil n Hn) as [Hn1 Hn2]. destruct (Hnil m Hm) as [Hm1 Hm2].
  pose proof (NilZero.isi (Z.to_int n) Hn1 Hn2) as En.
  pose proof (NilZero.isi (Z.to_int m) Hm1 Hm2) as Em.
  rewrite H in En. rewrite En in Em. injection Em as Em. exact Em.
Qed.

Lemma baseNameStep_segment (X : Externals) (baseName : string) (h : ApiItem) :
  addsSegment (kind (api_ X h)) = true ->
  baseNameStep X baseName h = baseName +:+ "." +:+ qualifiedNameOf X h.
Proof.
  intros H. unfold baseNameStep. destruct (kind (api_ X h)); try discriminate; reflexivity.
Qed.

Lemma baseNameStep_ext (X : Externals) (baseName : string) (h h' : ApiItem) :
  segmentOf X h = segmentOf X h' ->
  baseNameStep X baseName h = baseNameStep X baseName h'.
Proof.
  unfold segmentOf. intros H. injection H as Hk Hn Hp.
  unfold baseNameStep, qualifiedNameOf. rewrite Hk, Hn.
  destruct (parameterList (api_ X h)) as [pl |], (parameterList (api_ X h')) as [pl' |];
    simpl in Hp; try discriminate.
  - injection Hp as ->. reflexivity.
  - reflexivity.
Qed.

Lemma baseName_ext (X : Externals) (path path' : list ApiItem) :
  map (segmentOf X) path = map (segmentOf X) path' ->
  forall baseName,
    fold_left (baseNameStep X) path baseName = fold_left (baseNameStep X) path' baseName.
Proof.
  revert path'. induction path as [| h path IH]; intros [| h' path'] H baseName;
    simpl in H; try discriminate.
  - reflexivity.
  - remember (segmentOf X h) as sh eqn:Esh. remember (segmentOf X h') as sh' eqn:Esh'.
    injection H as Hh Hrest. subst sh sh'.
    simpl. rewrite (baseNameStep_ext X baseName h h' Hh).
    apply IH. exact Hrest.
Qed.

Lemma filename_not_model (X : Externals) (apiItem : ApiItem) :
  kind (api_ X apiItem) <> Model ->
  _getFilenameForApiItem X apiItem
  = fold_left (baseNameStep X) (hierarchy (api_ X apiItem)) "" +:+ ".html".
Proof.
  intros H. unfold _getFilenameForApiItem.
  destruct (kind (api_ X apiItem)); try reflexivity. contradiction.
Qed.

(** C6. A level of the hierarchy that has a parameter list: with an
    overload index n above 1 its segment is the encoded name, an
    underscore and n - 1 in decimal (index 2 gives _1, index 3 gives
    _2); with an index of 1 or less the segment is the encoded name
    alone.  The segment is what the level adds to the file name. *)
Theorem overload_suffix (X : Externals) (h : ApiItem) (pl : ParameterList) :
  parameterList (api_ X h) = Some pl ->
  let name := getSafeFilenameForName_ X (displayName (api_ X h)) in
  ((1 < overloadIndex pl)%Z ->
   qualifiedNameOf X h = name +:+ "_" +:+ decimal (overloadIndex pl - 1))
  /\ ((overloadIndex pl <= 1)%Z -> qualifiedNameOf X h = name)
  /\ (overloadIndex pl = 2%Z -> qualifiedNameOf X h = name +:+ "_1")
  /\ (overloadIndex pl = 3%Z -> qualifiedNameOf X h = name +:+ "_2")
  /\ (addsSegment (kind (api_ X h)) = true ->
      forall (apiItem : ApiItem) (above below : list ApiItem),
        kind (api_ X apiItem) <> Model ->
        hierarchy (api_ X apiItem) = above ++ h :: below ->
        _getFilenameForApiItem X apiItem
        = fold_left (baseNameStep X) below
            (fold_left (baseNameStep X) above "" +:+ "." +:+ qualifiedNameOf X h)
          +:+ ".html").
Proof.
  intros Hpl name.
  assert (Hgt : (1 < overloadIndex pl)%Z ->
                qualifiedNameOf X h = name +:+ "_" +:+ decimal (overloadIndex pl - 1)).
  { intros H. unfold qualifiedNameOf. rewrite Hpl.
    apply Z.ltb_lt in H. rewrite H. reflexivity. }
  split; [exact Hgt |]. split; [| split; [| split]].
  - intros H. unfold qualifiedNameOf. rewrite Hpl.
    destruct (1 <? overloadIndex pl)%Z eqn:E; [| reflexivity].
    apply Z.ltb_lt in E. lia.
  - intros H. rewrite Hgt by lia. rewrite H. reflexivity.
  - intros H. rewrite Hgt by lia. rewrite H. reflexivity.
  - intros Hk apiItem above below Hmodel Hpath.
    rewrite (filename_not_model X apiItem Hmodel). rewrite Hpath.
    rewrite fold_left_app. cbn [fold_left].
    rewrite (baseNameStep_segment X _ h Hk). reflexivity.
Qed.

Lemma overload_suffix_witness :
  let X := Scenario.externals in
  qualifiedNameOf X 9 = "g_1"
  /\ qualifiedNameOf X 8 = "g"
  /\ _getFilenameForApiItem X 9 = "pkg.g_1.html".
Proof.
  intros X.
  destruct (overload_suffix X 9 (mkParameterList 2 Scenario.paramsOfG) eq_refl)
    as (_ & _ & H2 & _ & Hfile).
  destruct (overload_suffix X 8 (mkParameterList 1 Scenario.paramsOfG) eq_refl)
    as (_ & H1 & _).
  split; [exact (H2 eq_refl) |]. split.
  - apply H1. simpl. lia.
  - rewrite (Hfile eq_refl 9 [ 0; 1; 2 ] []); [| discriminate | reflexivity].
    rewrite (H2 eq_refl). reflexivity.
Defined.

(** C5, as the code has it.  The file name is a function of what the
    hierarchy of the entity holds (the kind, the display name and the
    overload index of each level); the model root has the name
    index.html; and among the overloads of one callable, different
    overload indices give different names.  Entities that differ in
    kind only are not told apart. *)
Theorem filename_depends_on_hierarchy (X : Externals) :
  (forall apiItem,
      kind (api_ X apiItem) = Model -> _getFilenameForApiItem X apiItem = "index.html")
  /\ (forall a b,
         kind (api_ X a) = kind (api_ X b) ->
         map (segmentOf X) (hierarchy (api_ X a)) = map (segmentOf X) (hierarchy (api_ X b)) ->
         _getFilenameForApiItem X a = _getFilenameForApiItem X b)
  /\ (forall a b above pa pb,
         addsSegment (kind (api_ X a)) = true ->
         addsSegment (kind (api_ X b)) = true ->
         hierarchy (api_ X a) = above ++ [ a ] ->
         hierarchy (api_ X b) = above ++ [ b ] ->
         displayName (api_ X a) = displayName (api_ X b) ->
         parameterList (api_ X a) = Some pa ->
         parameterList (api_ X b) = Some pb ->
         (1 <= overloadIndex pa)%Z ->
         (1 <= overloadIndex pb)%Z ->
         overloadIndex pa <> overloadIndex pb ->
         _getFilenameForApiItem X a <> _getFilenameForApiItem X b).
Proof.
  split; [| split].
  - intros apiItem H. unfold _getFilenameForApiItem. rewrite H. reflexivity.
  - intros a b Hk Hpath. unfold _getFilenameForApiItem. rewrite Hk.
    rewrite (baseName_ext X _ _ Hpath ""). reflexivity.
  - intros a b above pa pb Ha Hb Hpa Hpb Hname Hla Hlb Hia Hib Hdiff Heq.
    assert (Hma : kind (api_ X a) <> Model) by (intros E; rewrite E in Ha; discriminate).
    assert (Hmb : kind (api_ X b) <> Model) by (intros E; rewrite E in Hb; discriminate).
    rewrite (filename_not_model X a Hma), (filename_not_model X b Hmb) in Heq.
    rewrite Hpa, Hpb in Heq. rewrite !fold_left_app in Heq. cbn [fold_left] in Heq.
    rewrite (baseNameStep_segment X _ a Ha), (baseNameStep_segment X _ b Hb) in Heq.
    apply append_inj_r in Heq. apply append_inj_l in Heq. apply append_inj_l in Heq.
    unfold qualifiedNameOf in Heq. rewrite Hla, Hlb, Hname in Heq.
    set (name := getSafeFilenameForName_ X (displayName (api_ X b))) in Heq.
    assert (Hempty : forall t, name = name +:+ "_" +:+ t -> False).
    { intros t E. apply (f_equal String.length) in E.
      rewrite length_append in E. simpl in E. lia. }
    destruct (1 <? overloadIndex pa)%Z eqn:Ea, (1 <? overloadIndex pb)%Z eqn:Eb.
    + apply append_inj_l in Heq. apply append_inj_l in Heq.
      apply Z.ltb_lt in Ea, Eb. apply decimal_inj in Heq; lia.
    + symmetry in Heq. exact (Hempty _ Heq).
    + exact (Hempty _ Heq).
    + apply Z.ltb_ge in Ea, Eb. lia.
Qed.

(** C5 as stated fails: a function and a namespace of the same name,
    declared side by side, are two entities that both get a page in
    one run, under one file name, whatever the encoding of names. *)
Lemma filename_collision :
  6 <> 7
  /\ (forall X : Externals,
         api_ X = Scenario.store ->
         _getFilenameForApiItem X 6 = _getFilenameForApiItem X 7)
  /\ _getFilenameForApiItem Scenario.externals 6 = "pkg.f.html"
  /\ _getFilenameForApiItem Scenario.externals 7 = "pkg.f.html"
  /\ snd (_writeApiItemPage Scenario.externals 4 0 emptyWorld) = Returned tt
  /\ map filePath (files (fst (_writeApiItemPage Scenario.externals 4 0 emptyWorld)))
     = [ "out/pkg.Foo.bar.html"; "out/pkg.Foo.baz.html"; "out/pkg.Foo.html";
         "out/pkg.Bar.html"; "out/pkg.f.html"; "out/pkg.f.html";
         "out/pkg.g.html"; "out/pkg.g_1.html"; "out/pkg.html"; "out/index.html" ].
Proof.
  split; [discriminate |]. split.
  - intros X HX. unfold _getFilenameForApiItem, baseNameStep, qualifiedNameOf.
    rewrite HX. reflexivity.
  - repeat split; vm_compute; reflexivity.
Qed.

(* ================================================================= *)
(** ** Writing into the page *)

Lemma withChildrenC_nil (output : CustomHtmlEmitter) : withChildrenC output [] = output.
Proof. destruct output. unfold withChildrenC. simpl. rewrite withChildren_nil. reflexivity. Qed.

Lemma withChildrenC_app (output : CustomHtmlEmitter) (xs ys : list HtmlNode) :
  withChildrenC (withChildrenC output xs) ys = withChildrenC output (xs ++ ys).
Proof. unfold withChildrenC. simpl. rewrite withChildren_app. reflexivity. Qed.

Lemma sendTo_appendChild (output : CustomHtmlEmitter) (child : HtmlNode) (w : World) :
  sendTo output (appendChild child) w = (w, Returned (withChildrenC output [ child ])).
Proof. reflexivity. Qed.

Lemma writeTableIfLonger_run (least : nat) (title : string) (t : BlockHtmlNode)
  (output : CustomHtmlEmitter) (w : World) :
  writeTableIfLonger least title t output w
  = (w, Returned (withChildrenC output
                    (if (least <? length (content t))%nat
                     then [ sectionHeading title; block t ] else []))).
Proof.
  unfold writeTableIfLonger. destruct (least <? length (content t))%nat.
  - unfold bind. rewrite !sendTo_appendChild. rewrite withChildrenC_app. reflexivity.
  - rewrite withChildrenC_nil. reflexivity.
Qed.

Lemma withRows_nil (t : BlockHtmlNode) : withRows t [] = t.
Proof. destruct t. unfold withRows. simpl. rewrite app_nil_r. reflexivity. Qed.

Lemma withRows_app (t : BlockHtmlNode) (xs ys : list HtmlNode) :
  withRows (withRows t xs) ys = withRows t (xs ++ ys).
Proof. unfold withRows. simpl. rewrite app_assoc. reflexivity. Qed.

Lemma content_push_withRows (t : BlockHtmlNode) (row : HtmlNode) :
  content_push t row = withRows t [ row ].
Proof. reflexivity. Qed.

(* ================================================================= *)
(** ** The parameters table *)

Lemma lastParamBlock_app (seen : list Parameter_) (p : Parameter_) :
  lastParamBlock (seen ++ [ p ])
  = match tsdocParamBlock p with
    | Some paramBlock => Some paramBlock
    | None => lastParamBlock seen
    end.
Proof.
  induction seen as [| q seen IH]; simpl.
  - destruct (tsdocParamBlock p); reflexivity.
  - rewrite IH. destruct (tsdocParamBlock p); reflexivity.
Qed.

Lemma parameterRow_loop (X : Externals) (contextApiItem : ApiItem) (ps : list Parameter_) :
  paramBlocksTranslate X contextApiItem ps ->
  forall (seen : list Parameter_) (t : BlockHtmlNode) (w : World),
  exists log : list string,
    forEach (parameterRow X contextApiItem) ps (t, describedBy X contextApiItem seen) w
    = (logged w log,
       Returned (withRows t (parameterRows X contextApiItem seen ps),
                 describedBy X contextApiItem (seen ++ ps))).
Proof.
  induction ps as [| p ps IH]; intros Hall seen t w.
  - exists []. simpl. rewrite logged_nil, withRows_nil, app_nil_r. reflexivity.
  - assert (Hrest : paramBlocksTranslate X contextApiItem ps).
    { intros q b Hq Hb. apply (Hall q b); [right; exact Hq | exact Hb]. }
    assert (Hstep : exists log1,
               parameterRow X contextApiItem (t, describedBy X contextApiItem seen) p w
               = (logged w log1,
                  Returned (withRows t [ block (tr [ CellString (parameterName p);
                                                     CellString (parameterTypeExcerpt p);
                                                     describedBy X contextApiItem (seen ++ [ p ]) ]) ],
                            describedBy X contextApiItem (seen ++ [ p ])))).
    { unfold parameterRow, describedBy at 2 3. rewrite lastParamBlock_app.
      destruct (tsdocParamBlock p) as [paramBlock |] eqn:Hblock.
      - destruct (Hall p paramBlock (or_introl eq_refl) Hblock) as [nodes Hnodes].
        exists (warningsOf X contextApiItem (blockNodes paramBlock)).
        unfold bind. rewrite createDocNodes_run, Hnodes. reflexivity.
      - exists []. rewrite logged_nil. reflexivity. }
    destruct Hstep as [log1 Hstep].
    destruct (IH Hrest (seen ++ [ p ])
                (withRows t [ block (tr [ CellString (parameterName p);
                                          CellString (parameterTypeExcerpt p);
                                          describedBy X contextApiItem (seen ++ [ p ]) ]) ])
                (logged w log1)) as [log2 Hloop].
    exists (log1 ++ log2). cbn [forEach]. unfold bind. rewrite Hstep, Hloop.
    rewrite logged_app, withRows_app, <- app_assoc. reflexivity.
Qed.

Lemma parameterRows_length (X : Externals) (contextApiItem : ApiItem)
  (ps seen : list Parameter_) :
  length (parameterRows X contextApiItem seen ps) = length ps.
Proof.
  revert seen. induction ps as [| p ps IH]; intros seen; simpl; [| rewrite IH]; reflexivity.
Qed.

Lemma parameterRows_nth (X : Externals) (contextApiItem : ApiItem)
  (ps : list Parameter_) :
  forall (seen : list Parameter_) (i : nat) (p : Parameter_),
    nth_error ps i = Some p ->
    nth_error (parameterRows X contextApiItem seen ps) i
    = Some (block (tr [ CellString (parameterName p);
                        CellString (parameterTypeExcerpt p);
                        describedBy X contextApiItem (seen ++ firstn (S i) ps) ])).
Proof.
  induction ps as [| q ps IH]; intros seen i p H.
  - destruct i; discriminate.
  - destruct i as [| i].
    + injection H as ->. reflexivity.
    + cbn [nth_error parameterRows]. cbn [nth_error] in H.
      rewrite (IH (seen ++ [ q ]) i p H). rewrite <- app_assoc. reflexivity.
Qed.

(** C10. In the parameters table of a callable, the description cell
    of a parameter is the translated description of the most recent
    parameter, itself included, that has a doc block: a parameter
    without a doc block repeats the cell of the parameter before it,
    and the cell is the empty string only when no parameter so far
    has a doc block. *)
Theorem parameter_descriptions_carry_over (X : Externals) (output : CustomHtmlEmitter)
  (apiItem : ApiItem) (pl : ParameterList) :
  parameterList (api_ X apiItem) = Some pl ->
  paramBlocksTranslate X (contextApiItem output) (parameters pl) ->
  let context := contextApiItem output in
  let ps := parameters pl in
  let parametersTable :=
    withRows (table [ "Parameter"; "Type"; "Description" ])
      (parameterRows X context [] ps) in
  (forall w, exists log,
        forEach (parameterRow X context) ps
          (table [ "Parameter"; "Type"; "Description" ], CellString "") w
        = (logged w log, Returned (parametersTable, describedBy X context ps)))
  /\ (forall i p,
         nth_error ps i = Some p ->
         nth_error (parameterRows X context [] ps) i
         = Some (block (tr [ CellString (parameterName p);
                             CellString (parameterTypeExcerpt p);
                             describedBy X context (firstn (S i) ps) ])))
  /\ (forall seen p,
         tsdocParamBlock p = None ->
         describedBy X context (seen ++ [ p ]) = describedBy X context seen)
  /\ (forall seen p paramBlock nodes,
         tsdocParamBlock p = Some paramBlock ->
         translationOf X context (blockNodes paramBlock) = Returned nodes ->
         describedBy X context (seen ++ [ p ]) = CellNode (firstNode nodes))
  /\ (forall seen,
         Forall (fun p => tsdocParamBlock p = None) seen ->
         describedBy X context seen = CellString "")
  /\ (forall w w' output',
         _writeParameterTables X output apiItem w = (w', Returned output') ->
         exists rest,
           output'
           = withChildrenC output
               (match ps with
                | [] => []
                | _ :: _ => [ sectionHeading "Parameters"; block parametersTable ]
                end ++ rest)).
Proof.
  intros Hpl Hall context ps parametersTable.
  assert (Hloop : forall w, exists log,
             forEach (parameterRow X context) ps
               (table [ "Parameter"; "Type"; "Description" ], CellString "") w
             = (logged w log, Returned (parametersTable, describedBy X context ps))).
  { intros w.
    destruct (parameterRow_loop X context ps Hall []
                (table [ "Parameter"; "Type"; "Description" ]) w) as [log H].
    exists log. exact H. }
  split; [exact Hloop |]. split; [| split; [| split; [| split]]].
  - intros i p H. apply (parameterRows_nth X context ps [] i p H).
  - intros seen p H. unfold describedBy. rewrite lastParamBlock_app, H. reflexivity.
  - intros seen p paramBlock nodes H Hnodes.
    unfold describedBy. rewrite lastParamBlock_app, H, Hnodes. reflexivity.
  - intros seen H. unfold describedBy.
    assert (Hnone : lastParamBlock seen = None).
    { induction H as [| p seen Hp Hseen IH]; simpl; [reflexivity |].
      rewrite IH. exact Hp. }
    rewrite Hnone. reflexivity.
  - intros w w' output' Hrun. unfold _writeParameterTables in Hrun. rewrite Hpl in Hrun.
    destruct (Hloop w) as [log Hl]. fold context ps in Hrun.
    unfold bind at 1 in Hrun. rewrite Hl in Hrun. cbn [fst] in Hrun.
    unfold bind at 1 in Hrun. rewrite writeTableIfLonger_run in Hrun.
    assert (Hif : (if (1 <? length (content parametersTable))%nat
                   then [ sectionHeading "Parameters"; block parametersTable ]
                   else [])
                  = match ps with
                    | [] => []
                    | _ :: _ => [ sectionHeading "Parameters"; block parametersTable ]
                    end).
    { unfold parametersTable, withRows. cbn [content table tagBlock].
      rewrite length_app, parameterRows_length. destruct ps; reflexivity. }
    rewrite Hif in Hrun. clear Hif.
    set (section := match ps with
                    | [] => []
                    | _ :: _ => [ sectionHeading "Parameters"; block parametersTable ]
                    end) in *.
    destruct (returnTypeExcerpt (api_ X apiItem)) as [returnType |];
      [| exists []; rewrite app_nil_r; injection Hrun as _ <-; reflexivity].
    destruct (isDocumentedItem (api_ X apiItem));
      [| exists []; rewrite app_nil_r; injection Hrun as _ <-; reflexivity].
    destruct (tsdocComment (api_ X apiItem)) as [comment |];
      [| exists []; rewrite app_nil_r; injection Hrun as _ <-; reflexivity].
    destruct (returnsBlock comment) as [returns |];
      [| exists []; rewrite app_nil_r; injection Hrun as _ <-; reflexivity].
    unfold bind at 1 in Hrun. rewrite createDocNodes_run in Hrun.
    destruct (translationOf X (contextApiItem (withChildrenC output section))
                (blockNodes returns)) as [nodes | e | ]; try discriminate.
    unfold bind in Hrun. rewrite !sendTo_appendChild in Hrun.
    rewrite !withChildrenC_app in Hrun. injection Hrun as _ <-.
    eexists. reflexivity.
Qed.

Lemma parameter_descriptions_carry_over_witness :
  let X := Scenario.externals in
  let described := CellNode (BlockNode "p" None [ TextNode "span" None "the input" ]) in
  parameterRows X 8 [] Scenario.paramsOfG
  = [ block (tr [ CellString "x"; CellString "number"; described ]);
      block (tr [ CellString "y"; CellString "number"; described ]) ]
  /\ exists rest,
       snd (_writeParameterTables X (newCustomHtmlEmitter 8) 8 emptyWorld)
       = Returned
           (withChildrenC (newCustomHtmlEmitter 8)
              ([ sectionHeading "Parameters";
                 block (withRows (table [ "Parameter"; "Type"; "Description" ])
                          (parameterRows X 8 [] Scenario.paramsOfG)) ] ++ rest)).
Proof.
  intros X described. split; [reflexivity |].
  assert (Hall : paramBlocksTranslate X 8 Scenario.paramsOfG).
  { intros p b [<- | [<- | []]] Hb; simpl in Hb; [| discriminate].
    injection Hb as <-. eexists. reflexivity. }
  destruct (parameter_descriptions_carry_over X (newCustomHtmlEmitter 8) 8
              (mkParameterList 1 Scenario.paramsOfG) eq_refl Hall)
    as (_ & _ & _ & _ & _ & Hpage).
  destruct (_writeParameterTables X (newCustomHtmlEmitter 8) 8 emptyWorld)
    as [w' [output' | e | ]] eqn:Hrun; try (vm_compute in Hrun; discriminate).
  destruct (Hpage emptyWorld w' output' Hrun) as [rest Hrest].
  exists rest. rewrite Hrest. reflexivity.
Defined.

(* ================================================================= *)
(** ** The Throws section *)

Lemma throwsRow_run (X : Externals) (contextApiItem : ApiItem) (t : BlockHtmlNode)
  (b : DocBlock) (w : World) :
  throwsRow X contextApiItem t b w
  = (logged w (warningsOf X contextApiItem (blockNodes b)),
     match translationOf X contextApiItem (blockNodes b) with
     | Returned nodes =>
         Returned (withRows t [ block (tr [ CellNode (tag "span" (ArgNodes nodes)
                                                        ArgUndefined) ]) ])
     | Thrown e => Thrown e
     | OutOfFuel => OutOfFuel
     end).
Proof.
  unfold throwsRow, bind. rewrite createDocNodes_run.
  destruct (translationOf X contextApiItem (blockNodes b)); reflexivity.
Qed.

Lemma throws_loop (X : Externals) (contextApiItem : ApiItem) (blocks : list DocBlock) :
  forall (t : BlockHtmlNode) (w : World),
    (exists w' rows,
        forEach (throwsRow X contextApiItem) blocks t w = (w', Returned (withRows t rows))
        /\ length rows = length blocks)
    \/ (exists w' e,
           forEach (throwsRow X contextApiItem) blocks t w = (w', Thrown e)).
Proof.
  induction blocks as [| b blocks IH]; intros t w.
  - left. exists w, []. rewrite withRows_nil. split; reflexivity.
  - cbn [forEach]. unfold bind. rewrite throwsRow_run.
    destruct (translationOf X contextApiItem (blockNodes b)) as [nodes | e | ] eqn:Hb.
    + destruct (IH (withRows t [ block (tr [ CellNode (tag "span" (ArgNodes nodes)
                                                         ArgUndefined) ]) ])
                  (logged w (warningsOf X contextApiItem (blockNodes b))))
        as [(w' & rows & Hrun & Hlen) | (w' & e & Hrun)].
      * left. exists w', (block (tr [ CellNode (tag "span" (ArgNodes nodes) ArgUndefined) ]) :: rows).
        split; [| simpl; rewrite Hlen; reflexivity].
        rewrite Hrun. rewrite withRows_app. reflexivity.
      * right. exists w', e. exact Hrun.
    + right. eexists. eexists. reflexivity.
    + exfalso. exact (translationOf_ends X contextApiItem (blockNodes b) Hb).
Qed.

(** C2, as the code has it.  A callable that carries a doc comment
    gets the Throws heading and a table with one row for each throws
    block, also when there is none (the table then has its heading
    row only), unless the translation of a throws block throws; a
    callable without a doc comment gets no Throws section. *)
Theorem throws_section_needs_a_comment (X : Externals) (output : CustomHtmlEmitter)
  (apiItem : ApiItem) (w : World) :
  match isDocumentedItem (api_ X apiItem), tsdocComment (api_ X apiItem) with
  | true, Some comment =>
      ((exists w' rows,
           _writeThrowsSection X output apiItem w
           = (w', Returned (withChildrenC output
                              [ sectionHeading "Throws";
                                block (withRows (table [ "Error" ]) rows) ]))
           /\ length rows = length (throwsBlocksOf comment))
       \/ (exists w' e, _writeThrowsSection X output apiItem w = (w', Thrown e)))
      /\ (throwsBlocksOf comment = [] ->
          _writeThrowsSection X output apiItem w
          = (w, Returned (withChildrenC output
                            [ sectionHeading "Throws"; block (table [ "Error" ]) ])))
  | _, _ => _writeThrowsSection X output apiItem w = (w, Returned output)
  end.
Proof.
  unfold _writeThrowsSection.
  destruct (isDocumentedItem (api_ X apiItem)); [| reflexivity].
  destruct (tsdocComment (api_ X apiItem)) as [comment |]; [| reflexivity].
  split.
  - unfold bind at 1 3. rewrite sendTo_appendChild.
    destruct (throws_loop X (contextApiItem (withChildrenC output [ sectionHeading "Throws" ]))
                (throwsBlocksOf comment) (table [ "Error" ]) w)
      as [(w' & rows & Hrun & Hlen) | (w' & e & Hrun)].
    + left. exists w', rows. split; [| exact Hlen].
      unfold bind. rewrite Hrun. rewrite sendTo_appendChild, withChildrenC_app.
      reflexivity.
    + right. exists w', e. unfold bind. rewrite Hrun. reflexivity.
  - intros Hnone. rewrite Hnone. unfold bind. rewrite sendTo_appendChild.
    cbn [forEach ret]. rewrite sendTo_appendChild, withChildrenC_app. reflexivity.
Qed.

(** C2 as stated fails: the page of a function that has no doc
    comment is written, and the text Throws is nowhere in it. *)
Lemma page_without_throws_section :
  let X := Scenario.externals in
  kind (api_ X 6) = Function
  /\ tsdocComment (api_ X 6) = None
  /\ exists (w : World) (output : CustomHtmlEmitter),
       writePageContent X (_writeApiItemPage X 1) 6 [ 6 ] emptyWorld = (w, Returned output)
       /\ textOccurs "Throws" (block (root (emitter output))) = false
       /\ textOccurs "f function" (block (root (emitter output))) = true.
Proof.
  intros X. split; [reflexivity |]. split; [reflexivity |].
  eexists. eexists. split; [vm_compute; reflexivity |]. split; vm_compute; reflexivity.
Qed.

Lemma callable_page_body (X : Externals) (self : ApiItem -> Eff World unit)
  (output : CustomHtmlEmitter) (apiItem : ApiItem) :
  isCallable (kind (api_ X apiItem)) = true ->
  writeKindTables X self output apiItem
  = (output' <- _writeParameterTables X output apiItem ;;
     _writeThrowsSection X output' apiItem).
Proof.
  intros H. unfold writeKindTables.
  destruct (kind (api_ X apiItem)); try discriminate; reflexivity.
Qed.

(* ================================================================= *)
(** ** The tables of a package or namespace *)

Lemma writeSections_run (T : Type) (sections : list (T * string))
  (tables : T -> BlockHtmlNode) :
  forall (output : CustomHtmlEmitter) (w : World),
    writeSections sections tables output w
    = (w, Returned (withChildrenC output (sectionsWritten sections tables))).
Proof.
  unfold writeSections, sectionsWritten.
  induction sections as [| s sections IH]; intros output w.
  - simpl. rewrite withChildrenC_nil. reflexivity.
  - cbn [forEach flat_map]. unfold bind. rewrite writeTableIfLonger_run.
    rewrite IH. rewrite withChildrenC_app. reflexivity.
Qed.

Lemma pushRow_content (t t' : ContainerTables.name) (row : BlockHtmlNode)
  (tables : ContainerTables.name -> BlockHtmlNode) :
  pushRow ContainerTables.name_beq t row tables t'
  = withRows (tables t') (if ContainerTables.name_beq t t' then [ block row ] else []).
Proof.
  unfold pushRow. destruct (ContainerTables.name_beq t t').
  - reflexivity.
  - rewrite withRows_nil. reflexivity.
Qed.

(** The loop over the members: each table gets one row for each
    member listed in it. *)
Lemma container_loop (X : Externals) (self : ApiItem -> Eff World unit)
  (contextApiItem : ApiItem) (apiMembers : list ApiItem) :
  forall (tables tables' : ContainerTables.name -> BlockHtmlNode) (w w' : World),
    forEach (fun tables apiMember =>
               description <- _createDescriptionCell X apiMember contextApiItem ;;
               let row := tr [ CellNode (_createTitleCell X apiMember);
                               CellNode description ] in
               match containerTableOf X apiMember with
               | Some t =>
                   let tables := pushRow ContainerTables.name_beq t row tables in
                   self apiMember ;;; ret tables
               | None => ret tables
               end) apiMembers tables w
    = (w', Returned tables') ->
    forall t, exists rows,
      tables' t = withRows (tables t) rows
      /\ length rows = countIn X t apiMembers.
Proof.
  induction apiMembers as [| m apiMembers IH]; intros tables tables' w w' Hrun t.
  - injection Hrun as _ <-. exists []. rewrite withRows_nil. split; reflexivity.
  - cbn [forEach] in Hrun.
    apply bind_inv in Hrun. destruct Hrun as (w1 & tables1 & Hbody & Hrest).
    apply bind_inv in Hbody. destruct Hbody as (w2 & description & _ & Hbody).
    cbv zeta in Hbody.
    destruct (IH tables1 tables' w1 w' Hrest t) as (rows & Hrows & Hlen).
    unfold countIn, listedIn. cbn [filter].
    destruct (containerTableOf X m) as [t0 |] eqn:Ht0.
    + apply bind_inv in Hbody. destruct Hbody as (w3 & [] & _ & Hbody).
      injection Hbody as _ <-.
      rewrite Hrows, pushRow_content, withRows_app.
      eexists. split; [reflexivity |].
      rewrite length_app, Hlen. unfold countIn, listedIn.
      destruct (ContainerTables.name_beq t0 t); reflexivity.
    + injection Hbody as _ <-. exists rows. split; [exact Hrows | exact Hlen].
Qed.

Lemma sectionHeading_inj (a b : string) :
  a <> "" -> b <> "" -> sectionHeading a = sectionHeading b -> a = b.
Proof.
  intros Ha Hb. unfold sectionHeading, tag. cbn [truthy]. unfold truthyString.
  destruct (a =? "") eqn:Ea; [apply String.eqb_eq in Ea; contradiction |].
  destruct (b =? "") eqn:Eb; [apply String.eqb_eq in Eb; contradiction |].
  cbn. intros H. injection H as H. exact H.
Qed.

Lemma sectionHeading_not_block (title : string) (b : BlockHtmlNode) :
  sectionHeading title <> block b.
Proof.
  unfold sectionHeading, tag. cbn [truthy]. destruct (truthyString title); discriminate.
Qed.

Lemma NoDup_snd_eq (A B : Type) (l : list (A * B)) :
  NoDup (map snd l) ->
  forall x y, In x l -> In y l -> snd x = snd y -> x = y.
Proof.
  induction l as [| z l IH]; intros Hnodup x y Hx Hy Heq; [contradiction |].
  cbn [map] in Hnodup. apply NoDup_cons_iff in Hnodup. destruct Hnodup as [Hnotin Hnodup].
  destruct Hx as [Hx | Hx], Hy as [Hy | Hy].
  - congruence.
  - exfalso. apply Hnotin. rewrite Hx, Heq. apply in_map. exact Hy.
  - exfalso. apply Hnotin. rewrite Hy, <- Heq. apply in_map. exact Hx.
  - apply IH; assumption.
Qed.

(** A heading is on the page exactly when its table has a row. *)
Lemma heading_written (T : Type) (sections : list (T * string))
  (tables : T -> BlockHtmlNode) :
  NoDup (map snd sections) ->
  (forall s, In s sections -> snd s <> "") ->
  forall t title,
    In (t, title) sections ->
    (In (sectionHeading title) (sectionsWritten sections tables)
     <-> (1 < length (content (tables t)))%nat).
Proof.
  intros Hnodup Hnonempty t title Hin. unfold sectionsWritten. rewrite in_flat_map. split.
  - intros (s & Hs & Hhead).
    destruct (1 <? length (content (tables (fst s))))%nat eqn:Hlong; [| contradiction].
    destruct Hhead as [Hhead | [Hhead | []]].
    + apply sectionHeading_inj in Hhead;
        [| apply Hnonempty; exact Hs | apply (Hnonempty (t, title)); exact Hin].
      assert (Hsame : s = (t, title)).
      { apply (NoDup_snd_eq _ _ sections Hnodup); [exact Hs | exact Hin | exact Hhead]. }
      rewrite Hsame in Hlong. apply Nat.ltb_lt in Hlong. exact Hlong.
    + exfalso. symmetry in Hhead. exact (sectionHeading_not_block _ _ Hhead).
  - intros Hlong. exists (t, title). split; [exact Hin |]. cbn [fst snd].
    apply Nat.ltb_lt in Hlong. rewrite Hlong. left. reflexivity.
Qed.

Lemma containerSections_titles :
  NoDup (map snd containerSections)
  /\ (forall s, In s containerSections -> snd s <> "").
Proof.
  split.
  - cbn. repeat constructor; cbn; intuition discriminate.
  - intros s Hs. cbn in Hs.
    repeat (destruct Hs as [<- | Hs]; [discriminate |]). contradiction.
Qed.

Lemma newContainerTables_length (t : ContainerTables.name) :
  length (content (newContainerTables t)) = 1.
Proof. destruct t; reflexivity. Qed.

(** C1, as the code has it.  On the page of a package or a namespace,
    the heading and the table of a category are written exactly when
    the category has at least one member; the table then has one row
    for each member after its heading row, and a category without
    members has neither heading nor table.  A table is therefore
    written for a category of exactly one member. *)
Theorem container_table_needs_one_member (X : Externals)
  (self : ApiItem -> Eff World unit) (output output' : CustomHtmlEmitter)
  (apiContainer : ApiItem) (w w' : World) :
  _writePackageOrNamespaceTables X self output apiContainer w = (w', Returned output') ->
  let apiMembers := scheduled X apiContainer in
  exists tables : ContainerTables.name -> BlockHtmlNode,
    (forall t, exists rows,
        tables t = withRows (newContainerTables t) rows
        /\ length rows = countIn X t apiMembers)
    /\ output' = withChildrenC output (sectionsWritten containerSections tables)
    /\ (forall t title,
           In (t, title) containerSections ->
           (In (sectionHeading title) (sectionsWritten containerSections tables)
            <-> 1 <= countIn X t apiMembers)
           /\ (In (block (tables t)) (sectionsWritten containerSections tables)
               <-> 1 <= countIn X t apiMembers)).
Proof.
  intros Hrun apiMembers. unfold _writePackageOrNamespaceTables in Hrun.
  apply bind_inv in Hrun. destruct Hrun as (w1 & ms & Hms & Hrun).
  assert (Hscheduled : ms = apiMembers /\ w1 = w).
  { unfold apiMembers, scheduled.
    destruct (kind (api_ X apiContainer));
      try (injection Hms as <- <-; split; reflexivity).
    destruct (entryPoints (api_ X apiContainer)); [discriminate |].
    injection Hms as <- <-. split; reflexivity. }
  destruct Hscheduled as [-> ->].
  apply bind_inv in Hrun. destruct Hrun as (w2 & tables & Hloop & Hsections).
  rewrite writeSections_run in Hsections. injection Hsections as _ <-.
  pose proof (container_loop X self (contextApiItem output) apiMembers
                newContainerTables tables w w2 Hloop) as Hrows.
  assert (Hlong : forall t,
             (1 < length (content (tables t)))%nat <-> 1 <= countIn X t apiMembers).
  { intros t. destruct (Hrows t) as (rows & -> & <-).
    unfold withRows. cbn [content]. rewrite length_app, newContainerTables_length. lia. }
  exists tables. split; [exact Hrows |]. split; [reflexivity |].
  intros t title Hin. split.
  - rewrite <- Hlong.
    apply heading_written; [apply containerSections_titles | apply containerSections_titles
                           | exact Hin].
  - rewrite <- Hlong. unfold sectionsWritten. rewrite in_flat_map. split.
    + intros (s & Hs & Htable).
      destruct (1 <? length (content (tables (fst s))))%nat eqn:Hs_long; [| contradiction].
      destruct Htable as [Htable | [Htable | []]].
      * exfalso. exact (sectionHeading_not_block _ _ Htable).
      * apply Nat.ltb_lt in Hs_long. unfold block in Htable.
        injection Htable as _ _ Hcontent. rewrite <- Hcontent. exact Hs_long.
    + intros Ht. exists (t, title). split; [exact Hin |]. cbn [fst snd].
      apply Nat.ltb_lt in Ht. rewrite Ht. right. left. reflexivity.
Qed.

Lemma container_table_needs_one_member_witness :
  let X := Scenario.externals in
  let apiMembers := scheduled X 1 in
  exists (w' : World) (output' : CustomHtmlEmitter)
         (tables : ContainerTables.name -> BlockHtmlNode),
    _writePackageOrNamespaceTables X (fun _ => ret tt) (newCustomHtmlEmitter 1) 1 emptyWorld
    = (w', Returned output')
    /\ (forall t, exists rows,
           tables t = withRows (newContainerTables t) rows
           /\ length rows = countIn X t apiMembers)
    /\ output' = withChildrenC (newCustomHtmlEmitter 1)
                   (sectionsWritten containerSections tables)
    /\ (forall t title,
           In (t, title) containerSections ->
           (In (sectionHeading title) (sectionsWritten containerSections tables)
            <-> 1 <= countIn X t apiMembers)
           /\ (In (block (tables t)) (sectionsWritten containerSections tables)
               <-> 1 <= countIn X t apiMembers)).
Proof.
  intros X apiMembers.
  destruct (_writePackageOrNamespaceTables X (fun _ => ret tt) (newCustomHtmlEmitter 1) 1
              emptyWorld) as [w' [output' | e | ]] eqn:Hrun;
    try (vm_compute in Hrun; discriminate).
  destruct (container_table_needs_one_member X (fun _ => ret tt) (newCustomHtmlEmitter 1)
              output' 1 emptyWorld w' Hrun) as (tables & H1 & H2 & H3).
  exists w', output', tables. split; [reflexivity |].
  split; [exact H1 |]. split; [exact H2 | exact H3].
Defined.

(** C1 as stated fails: the package of the small model declares one
    class, and its page has the Classes heading and the table with
    the one row. *)
Lemma single_member_table_is_written :
  let X := Scenario.externals in
  let classRow :=
    block (tr [ CellNode (a "Bar" "./pkg.Bar.html" (Some "ref"));
                CellNode (BlockNode "div" (Some [ ("class", "description") ]) []) ]) in
  countIn X ContainerTables.classesTable (scheduled X 1) = 1
  /\ exists (w : World) (output : CustomHtmlEmitter) (before after : list HtmlNode),
       writePageContent X (_writeApiItemPage X 2) 1 [ 1 ] emptyWorld = (w, Returned output)
       /\ content (root (emitter output))
          = [ siteHeader;
              BlockNode "div" (Some [ ("class", "main") ])
                (before
                 ++ [ sectionHeading "Classes";
                      block (withRows (table [ "Class"; "Description" ]) [ classRow ]) ]
                 ++ after) ].
Proof.
  intros X classRow. split; [reflexivity |].
  destruct (writePageContent X (_writeApiItemPage X 2) 1 [ 1 ] emptyWorld)
    as [w [output | e | ]] eqn:Hrun; try (vm_compute in Hrun; discriminate).
  exists w, output.
  assert (Hcontent : content (root (emitter output))
                     = content (root (emitter
                         match snd (writePageContent X (_writeApiItemPage X 2) 1 [ 1 ]
                                      emptyWorld) with
                         | Returned o => o
                         | _ => newCustomHtmlEmitter 0
                         end))).
  { rewrite Hrun. reflexivity. }
  rewrite Hcontent. clear Hcontent Hrun.
  match goal with
  | |- exists before after, _ /\ ?lhs = _ =>
      let v := eval vm_compute in lhs in
      match v with
      | [ _; BlockNode _ _ ?children ] =>
          exists (firstn 4 children), (skipn 6 children)
      end
  end.
  split; [reflexivity |]. vm_compute. reflexivity.
Qed.

(** The Packages table of the model page is written whatever it
    holds: its heading row alone makes its content longer than 0. *)
Lemma model_table_always_written (X : Externals) (self : ApiItem -> Eff World unit)
  (output : CustomHtmlEmitter) (apiModel : ApiItem) (w : World) :
  members (api_ X apiModel) = [] ->
  _writeModelTable X self output apiModel w
  = (w, Returned (withChildrenC output
                    [ sectionHeading "Packages";
                      block (table [ "Package"; "Description" ]) ])).
Proof.
  intros H. unfold _writeModelTable. rewrite H. cbn [forEach]. unfold bind. cbn [ret].
  rewrite writeTableIfLonger_run. reflexivity.
Qed.

(* ================================================================= *)
(** ** Pages and their grouping *)




Lemma ends_ret (A : Type) (x : A) : ends (@ret World A x).
Proof. intros w. discriminate. Qed.

Lemma ends_throw (A : Type) (e : Error) : ends (@throw World A e).
Proof. intros w. discriminate. Qed.

Lemma ends_log (line : string) : ends (console_log line).
Proof. intros w. discriminate. Qed.






(** The pair of the small model: processing the namespace writes
    nothing; processing the interface writes the pages of the two
    members and then one page, and that page has the table of the
    method of the interface and the table of the variable of the
    namespace. *)
Lemma pair_of_the_small_model :
  let X := Scenario.externals in
  isInterfaceNamespacePair X (mergedSiblings (api_ X 3)) = true
  /\ _writeApiItemPage X 2 4 emptyWorld = (emptyWorld, Returned tt)
  /\ snd (_writeApiItemPage X 2 3 emptyWorld) = Returned tt
  /\ map filePath (files (fst (_writeApiItemPage X 2 3 emptyWorld)))
     = [ "out/pkg.Foo.bar.html"; "out/pkg.Foo.baz.html"; "out/pkg.Foo.html" ]
  /\ exists w output,
       writePageContent X (_writeApiItemPage X 1) 3 [ 3; 4 ] emptyWorld
       = (w, Returned output)
       /\ textOccurs "Foo interface" (block (root (emitter output))) = true
       /\ textOccurs "Methods" (block (root (emitter output))) = true
       /\ textOccurs "Variables" (block (root (emitter output))) = true.
Proof.
  intros X. split; [reflexivity |]. split; [reflexivity |].
  split; [vm_compute; reflexivity |]. split; [vm_compute; reflexivity |].
  eexists. eexists. split; [vm_compute; reflexivity |]. repeat split; vm_compute; reflexivity.
Qed.

Lemma writePageContent_ends (X : Externals) (self : ApiItem -> Eff World unit)
  (first : ApiItem) (apiItems : list ApiItem) :
  (forall i m, In i apiItems -> In m (scheduled X i) -> ends (self m)) ->
  ends (writePageContent X self first apiItems).
Proof.
  intros H. apply (P_writePageContent X (@ends)).
  - exact ends_ret.
  - exact ends_throw.
  - exact ends_bind.
  - exact ends_log.
  - exact ends_call.
  - exact H.
Qed.

Lemma writeApiItemPageWithSiblings_ends (X : Externals) (self : ApiItem -> Eff World unit)
  (apiItems : list ApiItem) :
  (forall i m, In i apiItems -> In m (scheduled X i) -> ends (self m)) ->
  ends (_writeApiItemPageWithSiblings X self apiItems).
Proof.
  intros H. unfold _writeApiItemPageWithSiblings.
  destruct apiItems as [| first rest]; [apply ends_throw |].
  apply ends_bind; [apply writePageContent_ends; exact H | intros output].
  cbv zeta. apply ends_bind; [apply ends_call; discriminate | intros page].
  intros w. discriminate.
Qed.

(** The recursion ends on a model of finite depth: when a rank goes
    down from every entity to the members of the entities on its
    page, fuel above the rank of an entity is enough for its page. *)
Theorem enough_fuel (X : Externals) (rank : ApiItem -> nat) :
  (forall apiItem i m,
      In i (pageUnitOf X apiItem) -> In m (scheduled X i) -> rank m < rank apiItem) ->
  forall fuel apiItem, rank apiItem < fuel -> ends (_writeApiItemPage X fuel apiItem).
Proof.
  intros Hrank. induction fuel as [| fuel IH]; intros apiItem Hfuel; [lia |].
  specialize (Hrank apiItem). unfold pageUnitOf in Hrank. cbn [_writeApiItemPage].
  destruct (isInterfaceNamespacePair X (mergedSiblings (api_ X apiItem))).
  - destruct (ApiItemKind_beq (kind (api_ X apiItem)) Interface); [| apply ends_ret].
    apply writeApiItemPageWithSiblings_ends. intros i m Hi Hm.
    apply IH. specialize (Hrank i m Hi Hm). lia.
  - apply writeApiItemPageWithSiblings_ends. intros i m Hi Hm.
    apply IH. specialize (Hrank i m Hi Hm). lia.
Qed.

(* ================================================================= *)
(** ** More fuel changes nothing *)

Lemma refines_refl (A : Type) (m : Eff World A) : refines m m.
Proof. intros w _. reflexivity. Qed.

Lemma refines_bind (A B : Type) (m1 m2 : Eff World A) (k1 k2 : A -> Eff World B) :
  refines m1 m2 -> (forall x, refines (k1 x) (k2 x)) ->
  refines (bind m1 k1) (bind m2 k2).
Proof.
  intros Hm Hk w Hends. unfold bind in *. specialize (Hm w).
  destruct (m1 w) as [w1 [x | e | ]] eqn:H1.
  - rewrite Hm by discriminate. apply Hk. exact Hends.
  - rewrite Hm by discriminate. reflexivity.
  - exfalso. apply Hends. reflexivity.
Qed.

Lemma refines_forEach (A B : Type) (body1 body2 : A -> B -> Eff World A) (xs : list B) :
  (forall acc x, refines (body1 acc x) (body2 acc x)) ->
  forall acc, refines (forEach body1 xs acc) (forEach body2 xs acc).
Proof.
  intros H. induction xs as [| x xs IH]; intros acc; cbn [forEach].
  - apply refines_refl.
  - apply refines_bind; [apply H | exact IH].
Qed.

Section MoreFuel.

Variable X : Externals.
Variables self1 self2 : ApiItem -> Eff World unit.
Hypothesis self_refines : forall m, refines (self1 m) (self2 m).

Ltac same := intros; apply refines_refl.

Ltac asks_self :=
  apply refines_bind; [apply self_refines | same].

Lemma writeModelTable_refines (output : CustomHtmlEmitter) (apiModel : ApiItem) :
  refines (_writeModelTable X self1 output apiModel)
          (_writeModelTable X self2 output apiModel).
Proof.
  unfold _writeModelTable. apply refines_bind; [| same].
  apply refines_forEach. intros acc x. apply refines_bind; [same | intros description].
  cbv zeta. destruct (kind (api_ X x)); try (same; fail); asks_self.
Qed.

Lemma writePackageOrNamespaceTables_refines (output : CustomHtmlEmitter)
  (apiContainer : ApiItem) :
  refines (_writePackageOrNamespaceTables X self1 output apiContainer)
          (_writePackageOrNamespaceTables X self2 output apiContainer).
Proof.
  unfold _writePackageOrNamespaceTables. apply refines_bind; [same | intros apiMembers].
  apply refines_bind; [| same].
  apply refines_forEach. intros acc x. apply refines_bind; [same | intros description].
  cbv zeta. destruct (containerTableOf X x); [asks_self | same].
Qed.

Lemma writeClassTables_refines (output : CustomHtmlEmitter) (apiClass : ApiItem) :
  refines (_writeClassTables X self1 output apiClass)
          (_writeClassTables X self2 output apiClass).
Proof.
  unfold _writeClassTables. apply refines_bind; [| same].
  apply refines_forEach. intros acc x.
  destruct (kind (api_ X x)); try (same; fail);
    (apply refines_bind; [same | intros description; cbv zeta; asks_self]).
Qed.

Lemma writeInterfaceTables_refines (output : CustomHtmlEmitter) (apiClass : ApiItem) :
  refines (_writeInterfaceTables X self1 output apiClass)
          (_writeInterfaceTables X self2 output apiClass).
Proof.
  unfold _writeInterfaceTables. apply refines_bind; [| same].
  apply refines_forEach. intros acc x.
  destruct (kind (api_ X x)); try (same; fail);
    (apply refines_bind; [same | intros description; cbv zeta; asks_self]).
Qed.

Lemma writeKindTables_refines (output : CustomHtmlEmitter) (apiItem : ApiItem) :
  refines (writeKindTables X self1 output apiItem)
          (writeKindTables X self2 output apiItem).
Proof.
  unfold writeKindTables. destruct (kind (api_ X apiItem)); try (same; fail).
  - apply writeClassTables_refines.
  - apply writeInterfaceTables_refines.
  - apply writeModelTable_refines.
  - apply writePackageOrNamespaceTables_refines.
  - apply writePackageOrNamespaceTables_refines.
Qed.

Lemma writePageContent_refines (first : ApiItem) (apiItems : list ApiItem) :
  refines (writePageContent X self1 first apiItems)
          (writePageContent X self2 first apiItems).
Proof.
  unfold writePageContent. cbv zeta.
  repeat (apply refines_bind; [same | intros ?]).
  apply refines_bind; [| same].
  apply refines_forEach. intros ? ?. apply writeKindTables_refines.
Qed.

Lemma writeApiItemPageWithSiblings_refines (apiItems : list ApiItem) :
  refines (_writeApiItemPageWithSiblings X self1 apiItems)
          (_writeApiItemPageWithSiblings X self2 apiItems).
Proof.
  unfold _writeApiItemPageWithSiblings. destruct apiItems as [| first rest]; [same |].
  apply refines_bind; [apply writePageContent_refines | same].
Qed.

End MoreFuel.

Lemma one_more_fuel (X : Externals) (fuel : nat) :
  forall apiItem,
    refines (_writeApiItemPage X fuel apiItem) (_writeApiItemPage X (S fuel) apiItem).
Proof.
  induction fuel as [| fuel IH]; intros apiItem.
  - intros w H. exfalso. apply H. reflexivity.
  - cbn [_writeApiItemPage].
    destruct (isInterfaceNamespacePair X (mergedSiblings (api_ X apiItem))).
    + destruct (ApiItemKind_beq (kind (api_ X apiItem)) Interface); [| apply refines_refl].
      apply writeApiItemPageWithSiblings_refines. exact IH.
    + apply writeApiItemPageWithSiblings_refines. exact IH.
Qed.

(** A run that did not run out of fuel is the run with any larger
    fuel. *)
Theorem more_fuel_same_run (X : Externals) (fuel fuel' : nat) (apiItem : ApiItem)
  (w : World) :
  fuel <= fuel' ->
  snd (_writeApiItemPage X fuel apiItem w) <> OutOfFuel ->
  _writeApiItemPage X fuel' apiItem w = _writeApiItemPage X fuel apiItem w.
Proof.
  intros Hle Hends. induction Hle as [| fuel' Hle IH].
  - reflexivity.
  - rewrite <- IH. apply one_more_fuel. rewrite IH. exact Hends.
Qed.

(* ================================================================= *)
(** ** Further properties of the emitter *)

Lemma removelast_cons {A : Type} (x y : A) (l : list A) :
  removelast (x :: y :: l) = x :: removelast (y :: l).
Proof. reflexivity. Qed.

(** X1. closeNode(k) returns exactly when a node other than the
    synthetic root is open and k is the tag of the innermost open
    node; it then takes one node off the stack and changes neither
    the tree nor the styles. *)
Theorem closeNode_returns_iff (e : HtmlEmitter) (k : string) :
  ((exists e', closeNode k e = (e', Returned tt))
   <-> (_parents e <> [] /\ type (_current e) = k))
  /\ (forall e',
         closeNode k e = (e', Returned tt) ->
         S (length (_parents e')) = length (_parents e)
         /\ openTags e = k :: openTags e'
         /\ root e' = root e
         /\ _styles e' = _styles e).
Proof.
  split.
  - split.
    + intros [e' H]. unfold closeNode in H.
      destruct (type (_current e) =? k) eqn:Hk; [| discriminate].
      apply String.eqb_eq in Hk. cbn in H.
      destruct (_parents e); [discriminate |]. split; [discriminate | exact Hk].
    + intros [Hp Hk]. unfold closeNode. rewrite Hk, String.eqb_refl. cbn.
      destruct (_parents e); [contradiction |]. eexists. reflexivity.
  - intros e' H. unfold closeNode in H.
    destruct (type (_current e) =? k) eqn:Hk; [| discriminate].
    apply String.eqb_eq in Hk. cbn in H.
    destruct (_parents e) as [| parent rest] eqn:Hp; [discriminate |].
    injection H as <-. split; [reflexivity |]. split; [| split].
    + unfold openTags. rewrite Hp. cbn. rewrite Hk. reflexivity.
    + unfold root. rewrite Hp. reflexivity.
    + reflexivity.
Qed.

Lemma runCall_nesting (c : BuilderCall) (e : HtmlEmitter) :
  match nestingAfter (openTags e) [ c ] with
  | Some open' => exists e', runCall c e = (e', Returned tt) /\ openTags e' = open'
  | None => exists message, runCall c e = (e, Thrown (JsError message))
  end.
Proof.
  destruct c as [child | child | name]; cbn [nestingAfter runCall].
  - eexists. split; reflexivity.
  - eexists. split; [reflexivity |]. unfold openTags. cbn.
    destruct (_parents e); reflexivity.
  - unfold closeNode, openTags. cbn [map].
    destruct (_parents e) as [| parent rest] eqn:Hp.
    + cbn. destruct (type (_current e) =? name); cbn; eexists; reflexivity.
    + cbn [map]. rewrite removelast_cons.
      destruct (type (_current e) =? name) eqn:Hk; cbn.
      * eexists. split; [reflexivity |]. reflexivity.
      * eexists. reflexivity.
Qed.

(** X2. A sequence of builder calls returns exactly when each of its
    closes names the innermost node open at that point, the nodes
    open before the sequence included; the open tags afterwards are
    those the sequence leaves.  Otherwise the sequence stops with the
    error of the first close that does not. *)
Theorem runCalls_returns_iff_nested (calls : list BuilderCall) :
  forall e : HtmlEmitter,
    match nestingAfter (openTags e) calls with
    | Some open' =>
        exists e', runCalls calls e = (e', Returned tt) /\ openTags e' = open'
    | None => exists e' message, runCalls calls e = (e', Thrown (JsError message))
    end.
Proof.
  induction calls as [| c calls IH]; intros e.
  - cbn. exists e. split; reflexivity.
  - pose proof (runCall_nesting c e) as Hc.
    cbn [runCalls]. unfold bind.
    destruct c as [child | child | name]; cbn [nestingAfter] in *.
    + destruct Hc as (e1 & Hrun & Htags). rewrite Hrun, <- Htags. apply IH.
    + destruct Hc as (e1 & Hrun & Htags). rewrite Hrun, <- Htags. apply IH.
    + destruct (openTags e) as [| top below].
      * destruct Hc as (message & Hrun). rewrite Hrun. eexists. eexists. reflexivity.
      * destruct (top =? name).
        -- destruct Hc as (e1 & Hrun & Htags). rewrite Hrun, <- Htags. apply IH.
        -- destruct Hc as (message & Hrun). rewrite Hrun. eexists. eexists. reflexivity.
Qed.






(** X4. When the last argument of tag is the empty string or is
    missing, the argument before it is not a class name but the
    content: the node has no class attribute and the class name as
    its text.  So the modifiers cell of a member that is not static
    is a div with the text modifiers, the type cell of a member that
    is not a property, or whose type text is empty, is a code element
    with the text type, and a page header with an empty text has the
    text page-header.  With any other content the class is set. *)
Theorem tag_without_content_takes_class_as_text (X : Externals) (type cls : string) :
  tag type (ArgString cls) (ArgString "") = TextNode type None cls
  /\ tag type (ArgString cls) ArgUndefined = TextNode type None cls
  /\ (forall s, s <> "" -> cls <> "" ->
        tag type (ArgString cls) (ArgString s) = TextNode type (Some [ ("class", cls) ]) s)
  /\ (forall l, cls <> "" ->
        tag type (ArgString cls) (ArgNodes l) = BlockNode type (Some [ ("class", cls) ]) l)
  /\ (forall apiItem,
         isStatic (api_ X apiItem) <> Some true ->
         _createModifiersCell X apiItem = TextNode "div" None "modifiers")
  /\ (forall apiItem,
         (propertyItem (api_ X apiItem) = None
          \/ exists p, propertyItem (api_ X apiItem) = Some p /\ propertyTypeExcerpt p = "") ->
         _createPropertyTypeCell X apiItem = TextNode "code" None "type")
  /\ pageHeader "" = TextNode "h1" None "page-header".
Proof.
  assert (Htruthy : forall s, s <> "" -> truthyString s = true).
  { intros s Hs. unfold truthyString. destruct (s =? "") eqn:E; [| reflexivity].
    apply String.eqb_eq in E. contradiction. }
  split; [reflexivity |]. split; [reflexivity |]. split; [| split; [| split; [| split]]].
  - intros s Hs Hc. unfold tag, _tag, classAttributes. cbn [truthy].
    rewrite (Htruthy s Hs), (Htruthy cls Hc). reflexivity.
  - intros l Hc. unfold tag, _tag, classAttributes. cbn [truthy].
    rewrite (Htruthy cls Hc). reflexivity.
  - intros apiItem H. unfold _createModifiersCell.
    destruct (isStatic (api_ X apiItem)) as [[|] |]; try reflexivity. contradiction.
  - intros apiItem [H | (p & H & Hp)]; unfold _createPropertyTypeCell; rewrite H.
    + reflexivity.
    + rewrite Hp. reflexivity.
  - reflexivity.
Qed.

(* ================================================================= *)
(** ** Further properties of file names *)

Lemma baseName_stem (X : Externals) (path : list ApiItem) :
  forall baseName,
    fold_left (baseNameStep X) path baseName
    = match lastPackage X path with
      | Some (package, below) =>
          getSafeFilenameForName_ X (getUnscopedName_ X (displayName (api_ X package)))
            +:+ segmentsOf X below
      | None => baseName +:+ segmentsOf X path
      end.
Proof.
  induction path as [| h path IH]; intros baseName; cbn [fold_left lastPackage segmentsOf].
  - induction baseName as [| c s IHs]; [reflexivity |]. cbn. rewrite <- IHs. reflexivity.
  - rewrite IH. destruct (lastPackage X path) as [[package below] |]; [reflexivity |].
    unfold baseNameStep.
    destruct (kind (api_ X h)); cbn [addsSegment]; try reflexivity;
      rewrite !append_assoc; reflexivity.
Qed.

Lemma lastPackage_app (X : Externals) (above below : list ApiItem) (package : ApiItem) :
  kind (api_ X package) = Package ->
  lastPackage X below = None ->
  lastPackage X (above ++ package :: below) = Some (package, below).
Proof.
  intros Hk Hb. induction above as [| h above IH]; cbn [app lastPackage].
  - rewrite Hb, Hk. reflexivity.
  - rewrite IH. reflexivity.
Qed.

(** X5. The file name of an entity other than the model is read off
    its hierarchy from the last package on: the encoded unscoped name
    of that package, then a dot and the segment of each level below
    it except entry points and models, then .html.  The levels above
    the last package do not matter.  In a hierarchy without a package
    the name is the dotted segments alone and so starts with a dot.
    The link of an entity is its file name after ./ *)
Theorem filename_from_last_package (X : Externals) (apiItem : ApiItem) :
  kind (api_ X apiItem) <> Model ->
  _getFilenameForApiItem X apiItem = fileStem X (hierarchy (api_ X apiItem)) +:+ ".html"
  /\ _getLinkFilenameForApiItem X apiItem
     = "./" +:+ fileStem X (hierarchy (api_ X apiItem)) +:+ ".html"
  /\ (forall above above' package below,
         kind (api_ X package) = Package ->
         lastPackage X below = None ->
         fileStem X (above ++ package :: below) = fileStem X (above' ++ package :: below))
  /\ (forall h rest,
         lastPackage X (h :: rest) = None ->
         addsSegment (kind (api_ X h)) = true ->
         exists tail, fileStem X (h :: rest) = "." +:+ tail).
Proof.
  intros Hmodel.
  assert (Hname : _getFilenameForApiItem X apiItem
                  = fileStem X (hierarchy (api_ X apiItem)) +:+ ".html").
  { rewrite (filename_not_model X apiItem Hmodel), baseName_stem. unfold fileStem.
    destruct (lastPackage X (hierarchy (api_ X apiItem))) as [[package below] |];
      reflexivity. }
  split; [exact Hname |]. split; [| split].
  - unfold _getLinkFilenameForApiItem. rewrite Hname. reflexivity.
  - intros above above' package below Hk Hb. unfold fileStem.
    rewrite !(lastPackage_app X _ below package Hk Hb). reflexivity.
  - intros h rest Hnone Hseg. unfold fileStem. rewrite Hnone. cbn [segmentsOf].
    rewrite Hseg. rewrite append_assoc. eexists. reflexivity.
Qed.

Lemma filename_from_last_package_witness :
  let X := Scenario.externals in
  kind (api_ X 10) <> Model
  /\ _getFilenameForApiItem X 10 = "pkg.Foo.bar.html"
  /\ fileStem X (hierarchy (api_ X 10)) = "pkg.Foo.bar".
Proof.
  intros X. split; [discriminate |].
  assert (H : kind (api_ X 10) <> Model) by discriminate.
  destruct (filename_from_last_package X 10 H) as (Hname & _).
  split; [rewrite Hname; reflexivity | reflexivity].
Defined.

(* ================================================================= *)
(** ** Further properties of the translation of doc comments *)

Lemma closeNode_returned (e e' : HtmlEmitter) (k : string) :
  closeNode k e = (e', Returned tt) ->
  root e' = root e /\ openTags e = k :: openTags e'.
Proof.
  intros H. unfold closeNode in H.
  destruct (type (_current e) =? k) eqn:Hk; [| discriminate].
  apply String.eqb_eq in Hk. cbn in H.
  destruct (_parents e) as [| parent rest] eqn:Hp; [discriminate |].
  injection H as <-. split.
  - unfold root. rewrite Hp. reflexivity.
  - unfold openTags. rewrite Hp. cbn. rewrite Hk. reflexivity.
Qed.

Lemma send_returned {W S : Type} (obj obj' : S) (m : Eff S unit) (w w' : W) :
  send obj m w = (w', Returned obj') -> m obj = (obj', Returned tt) /\ w' = w.
Proof.
  unfold send, bind, call, ret. destruct (m obj) as [o [[] | e | ]]; intros H.
  - injection H as <- <-. split; reflexivity.
  - discriminate.
  - discriminate.
Qed.

Lemma textsOf_block_push (b : BlockHtmlNode) (child : HtmlNode) :
  textsOf (block (content_push b child)) = textsOf (block b) ++ textsOf child.
Proof.
  unfold block, content_push. cbn [textsOf type attributes content].
  rewrite flat_map_app. cbn [flat_map]. rewrite app_nil_r. reflexivity.
Qed.

Lemma plug_texts (parents : list BlockHtmlNode) :
  forall (current current' : BlockHtmlNode) (extra : list string),
    textsOf (block current') = textsOf (block current) ++ extra ->
    textsOf (block (plug current' parents)) = textsOf (block (plug current parents)) ++ extra.
Proof.
  induction parents as [| p rest IH]; intros current current' extra H.
  - exact H.
  - cbn [plug]. apply IH. rewrite !textsOf_block_push, H, app_assoc. reflexivity.
Qed.

Lemma root_texts_append (e : HtmlEmitter) (child : HtmlNode) :
  textsOf (block (root (withChildren e [ child ])))
  = textsOf (block (root e)) ++ textsOf child.
Proof.
  unfold root, withChildren. cbn [_current _parents].
  apply plug_texts. apply (textsOf_block_push (_current e) child).
Qed.

Lemma root_texts_open (e : HtmlEmitter) (child : BlockHtmlNode) :
  textsOf (block (root (mkEmitter child (_current e :: _parents e) (_styles e))))
  = textsOf (block (root e)) ++ textsOf (block child).
Proof.
  unfold root. cbn [_current _parents plug].
  apply plug_texts. apply textsOf_block_push.
Qed.

Lemma appended_texts (X : Externals) (result result' : HtmlEmitter) (child : HtmlNode)
  (w w' : World) :
  send result (appendChild child) w = (w', Returned result') ->
  textsOf (block (root result')) = textsOf (block (root result)) ++ textsOf child.
Proof.
  intros H. apply send_returned in H. destruct H as [H _].
  rewrite appendChild_run in H. injection H as <-. apply root_texts_append.
Qed.

Lemma createDocNodesWith_texts (X : Externals) (contextApiItem : ApiItem)
  (nodes : list DocNode) :
  Forall (fun node =>
            forall result w w' result',
              translateDocNode X contextApiItem result node w = (w', Returned result') ->
              textsOf (block (root result'))
              = textsOf (block (root result)) ++ docTexts X contextApiItem node) nodes ->
  forall result w w' result',
    forEach (translateDocNode X contextApiItem) nodes result w = (w', Returned result') ->
    textsOf (block (root result'))
    = textsOf (block (root result)) ++ flat_map (docTexts X contextApiItem) nodes.
Proof.
  induction 1 as [| node nodes Hnode Hnodes IH]; intros result w w' result' Hrun.
  - injection Hrun as _ <-. cbn. rewrite app_nil_r. reflexivity.
  - cbn [forEach] in Hrun. apply bind_inv in Hrun.
    destruct Hrun as (w1 & result1 & Hstep & Hrest).
    rewrite (IH _ _ _ _ Hrest), (Hnode _ _ _ _ Hstep). cbn [flat_map].
    rewrite app_assoc. reflexivity.
Qed.

Lemma translateDocNode_texts (X : Externals) (contextApiItem : ApiItem) (node : DocNode) :
  forall result w w' result',
    translateDocNode X contextApiItem result node w = (w', Returned result') ->
    textsOf (block (root result'))
    = textsOf (block (root result)) ++ docTexts X contextApiItem node.
Proof.
  induction node as [nodes IH | nodes IH | node Hp Hb] using DocNode_forall_ind;
    intros result w w' result' Hrun.
  - cbn [translateDocNode] in Hrun. apply bind_inv in Hrun.
    destruct Hrun as (w1 & children & Hchildren & Hsend).
    unfold createDocNodesWith in Hchildren. apply bind_inv in Hchildren.
    destruct Hchildren as (w2 & inner & Hloop & Hret). injection Hret as _ <-.
    rewrite (appended_texts X _ _ _ _ _ Hsend).
    pose proof (createDocNodesWith_texts X contextApiItem nodes IH _ _ _ _ Hloop) as Ht.
    cbn in Ht. cbn [docTexts]. rewrite <- Ht. reflexivity.
  - cbn [translateDocNode] in Hrun. apply bind_inv in Hrun.
    destruct Hrun as (w1 & children & Hchildren & Hsend).
    unfold createDocNodesWith in Hchildren. apply bind_inv in Hchildren.
    destruct Hchildren as (w2 & inner & Hloop & Hret). injection Hret as _ <-.
    rewrite (appended_texts X _ _ _ _ _ Hsend).
    pose proof (createDocNodesWith_texts X contextApiItem nodes IH _ _ _ _ Hloop) as Ht.
    cbn in Ht. cbn [docTexts]. rewrite <- Ht. reflexivity.
  - destruct node; cbn [translateDocNode docTexts] in *;
      try (exfalso; eapply Hp; reflexivity);
      try (exfalso; eapply Hb; reflexivity);
      try (rewrite (appended_texts X _ _ _ _ _ Hrun); reflexivity).
    + injection Hrun as _ <-. rewrite app_nil_r. reflexivity.
    + destruct (truthyOption urlDestination).
      * rewrite (appended_texts X _ _ _ _ _ Hrun). unfold a. reflexivity.
      * destruct codeDestination as [destination |];
          [| injection Hrun as _ <-; rewrite app_nil_r; reflexivity].
        destruct (resolvedApiItem
                    (resolveDeclarationReference_ X destination contextApiItem))
          as [resolved |].
        -- rewrite (appended_texts X _ _ _ _ _ Hrun). reflexivity.
        -- rewrite app_nil_r.
           destruct (errorMessage
                       (resolveDeclarationReference_ X destination contextApiItem))
             as [message |]; [| injection Hrun as _ <-; reflexivity].
           destruct (truthyString message); [| injection Hrun as _ <-; reflexivity].
           apply bind_inv in Hrun. destruct Hrun as (w1 & [] & _ & Hret).
           injection Hret as _ <-. reflexivity.
    + apply send_returned in Hrun. destruct Hrun as [Hrun _].
      unfold openNode, bind, modify, ret in Hrun. injection Hrun as <-.
      rewrite root_texts_open. reflexivity.
    + apply send_returned in Hrun. destruct Hrun as [Hrun _].
      apply closeNode_returned in Hrun. destruct Hrun as [Hroot _].
      rewrite Hroot, app_nil_r. reflexivity.
    + discriminate.
Qed.

(** X6. The translation of doc nodes keeps every text and the order
    of the texts: read in document order, the texts of the nodes
    returned are the texts of the doc nodes in the order of the
    comment, whatever raw start and end tags nest them into. *)
Theorem translation_keeps_the_texts_in_order (X : Externals) (contextApiItem : ApiItem)
  (nodes : list DocNode) (w w' : World) (translated : list HtmlNode) :
  _createDocNodes X nodes contextApiItem w = (w', Returned translated) ->
  flat_map textsOf translated = flat_map (docTexts X contextApiItem) nodes.
Proof.
  intros Hrun. unfold _createDocNodes, createDocNodesWith in Hrun.
  apply bind_inv in Hrun. destruct Hrun as (w1 & result & Hloop & Hret).
  injection Hret as _ <-.
  assert (Hall : Forall (fun node =>
            forall result w w' result',
              translateDocNode X contextApiItem result node w = (w', Returned result') ->
              textsOf (block (root result'))
              = textsOf (block (root result)) ++ docTexts X contextApiItem node) nodes).
  { apply Forall_forall. intros node _. apply translateDocNode_texts. }
  pose proof (createDocNodesWith_texts X contextApiItem nodes Hall _ _ _ _ Hloop) as Ht.
  cbn in Ht. exact Ht.
Qed.

Lemma translation_keeps_the_texts_in_order_witness :
  let X := Scenario.externals in
  let nodes :=
    [ DocPlainText "a"; DocHtmlStartTag "b"; DocCodeSpan "c";
      DocLinkTag None None (Some Scenario.missingReference);
      DocLinkTag (Some "d") (Some "http://e") None;
      DocHtmlEndTag "b"; DocParagraph [ DocPlainText "f" ] ] in
  exists translated,
    _createDocNodes X nodes 8 emptyWorld
    = (logged emptyWorld
         [ unresolvedWarning Scenario.missingReference
             "The reference could not be resolved" ],
       Returned translated)
    /\ flat_map textsOf translated = [ "a"; "c"; "d"; "f" ].
Proof.
  intros X nodes.
  destruct (_createDocNodes X nodes 8 emptyWorld) as [w' [translated | e | ]] eqn:Hrun;
    try (vm_compute in Hrun; discriminate).
  exists translated. split.
  - vm_compute in Hrun. injection Hrun as <- <-. reflexivity.
  - rewrite (translation_keeps_the_texts_in_order X 8 nodes emptyWorld w' translated Hrun).
    reflexivity.
Defined.

Lemma send_appendChild_run {W : Type} (result : HtmlEmitter) (child : HtmlNode) (w : W) :
  send result (appendChild child) w = (w, Returned (withChildren result [ child ])).
Proof. reflexivity. Qed.

Lemma translate_loop (X : Externals) (contextApiItem : ApiItem) (nodes : list DocNode) :
  Forall (translatesWhenTranslatable X contextApiItem) nodes ->
  forall (result : HtmlEmitter) (w : World),
    if nestedRawTags translatable nodes (openTags result)
    then exists w' result',
           forEach (translateDocNode X contextApiItem) nodes result w
           = (w', Returned result')
    else exists w' e,
           forEach (translateDocNode X contextApiItem) nodes result w = (w', Thrown e).
Proof.
  induction 1 as [| node nodes Hnode Hnodes IH]; intros result w.
  - cbn. eexists. eexists. reflexivity.
  - cbn [forEach]. unfold bind.
    assert (Hother :
              match node with
              | DocHtmlStartTag _ => True
              | DocHtmlEndTag _ => True
              | _ =>
                  if translatable node && nestedRawTags translatable nodes (openTags result)
                  then exists w' result',
                         match translateDocNode X contextApiItem result node w with
                         | (s', Returned x) =>
                             forEach (translateDocNode X contextApiItem) nodes x s'
                         | (s', Thrown e) => (s', Thrown e)
                         | (s', OutOfFuel) => (s', OutOfFuel)
                         end = (w', Returned result')
                  else exists w' e,
                         match translateDocNode X contextApiItem result node w with
                         | (s', Returned x) =>
                             forEach (translateDocNode X contextApiItem) nodes x s'
                         | (s', Thrown e) => (s', Thrown e)
                         | (s', OutOfFuel) => (s', OutOfFuel)
                         end = (w', Thrown e)
              end).
    { specialize (Hnode result w). unfold translatesWhenTranslatable in Hnode.
      destruct node; try exact I;
        (destruct (translatable _) eqn:Hok; cbn [andb];
         [ destruct Hnode as (w1 & result1 & Hrun & Htags); rewrite Hrun, <- Htags;
           apply IH
         | destruct Hnode as (w1 & e & Hrun); rewrite Hrun; eexists; eexists;
           reflexivity ]). }
    destruct node; cbn [nestedRawTags]; try exact Hother.
    + (* a start tag *)
      cbn [translateDocNode]. unfold send, bind, call, openNode, bind, modify, ret.
      cbn [fst].
      specialize (IH (mkEmitter (tagBlock name None [])
                        (_current result :: _parents result) (_styles result)) w).
      assert (Htags : openTags (mkEmitter (tagBlock name None [])
                                  (_current result :: _parents result) (_styles result))
                      = name :: openTags result).
      { unfold openTags. cbn. destruct (_parents result); reflexivity. }
      rewrite Htags in IH. exact IH.
    + (* an end tag *)
      cbn [translateDocNode]. unfold send, bind, call, ret.
      destruct (closeNode name result) as [result1 [[] | e | ]] eqn:Hclose.
      * apply closeNode_returned in Hclose. destruct Hclose as [_ Htags].
        rewrite Htags, String.eqb_refl. cbn [andb fst]. apply IH.
      * assert (Hfalse : match openTags result with
                         | top :: below =>
                             (top =? name) && nestedRawTags translatable nodes below
                         | [] => false
                         end = false).
        { unfold closeNode in Hclose. unfold openTags.
          destruct (type (_current result) =? name) eqn:Hk; cbn in Hclose.
          - destruct (_parents result) as [| p rest]; [reflexivity | discriminate].
          - destruct (_parents result) as [| p rest]; [reflexivity |].
            cbn. rewrite Hk. reflexivity. }
        rewrite Hfalse. eexists. eexists. reflexivity.
      * exfalso. apply (closeNode_ends name result). rewrite Hclose. reflexivity.
Qed.

Lemma translatable_translates (X : Externals) (contextApiItem : ApiItem) (node : DocNode) :
  translatesWhenTranslatable X contextApiItem node.
Proof.
  induction node as [nodes IH | nodes IH | node Hp Hb] using DocNode_forall_ind;
    intros result w.
  - cbn [translatable translateDocNode]. unfold createDocNodesWith, bind.
    pose proof (translate_loop X contextApiItem nodes IH (newEmitter defaultRootTag) w)
      as Hloop.
    change (openTags (newEmitter defaultRootTag)) with (@nil string) in Hloop.
    destruct (nestedRawTags translatable nodes []).
    + destruct Hloop as (w1 & inner & Hrun). rewrite Hrun. cbn [ret].
      rewrite send_appendChild_run. eexists. eexists. split; reflexivity.
    + destruct Hloop as (w1 & e & Hrun). rewrite Hrun. eexists. eexists. reflexivity.
  - cbn [translatable translateDocNode]. unfold createDocNodesWith, bind.
    pose proof (translate_loop X contextApiItem nodes IH (newEmitter defaultRootTag) w)
      as Hloop.
    change (openTags (newEmitter defaultRootTag)) with (@nil string) in Hloop.
    destruct (nestedRawTags translatable nodes []).
    + destruct Hloop as (w1 & inner & Hrun). rewrite Hrun. cbn [ret].
      rewrite send_appendChild_run. eexists. eexists. split; reflexivity.
    + destruct Hloop as (w1 & e & Hrun). rewrite Hrun. eexists. eexists. reflexivity.
  - destruct node; try exact I; cbn [translatable translateDocNode];
      try (exfalso; eapply Hp; reflexivity);
      try (exfalso; eapply Hb; reflexivity);
      try (rewrite send_appendChild_run; eexists; eexists; split; reflexivity).
    + eexists. eexists. split; reflexivity.
    + destruct (truthyOption urlDestination).
      * rewrite send_appendChild_run. eexists. eexists. split; reflexivity.
      * destruct codeDestination as [destination |];
          [| eexists; eexists; split; reflexivity].
        destruct (resolvedApiItem
                    (resolveDeclarationReference_ X destination contextApiItem)).
        -- rewrite send_appendChild_run. eexists. eexists. split; reflexivity.
        -- destruct (errorMessage
                       (resolveDeclarationReference_ X destination contextApiItem))
             as [message |]; [| eexists; eexists; split; reflexivity].
           destruct (truthyString message); eexists; eexists; split; reflexivity.
    + eexists. eexists. reflexivity.
Qed.

(** X7. The translation of doc nodes returns exactly when every node,
    at every depth, is of a kind the translator has a case for and
    every raw end tag names the innermost raw start tag open in its
    own list of nodes; otherwise it throws.  Start tags left open,
    links that are not resolved and soft breaks never make it throw. *)
Theorem translation_returns_iff_translatable (X : Externals) (contextApiItem : ApiItem)
  (nodes : list DocNode) (w : World) :
  if nestedRawTags translatable nodes []
  then exists w' translated,
         _createDocNodes X nodes contextApiItem w = (w', Returned translated)
  else exists w' e, _createDocNodes X nodes contextApiItem w = (w', Thrown e).
Proof.
  assert (Hall : Forall (translatesWhenTranslatable X contextApiItem) nodes).
  { apply Forall_forall. intros node _. apply translatable_translates. }
  pose proof (translate_loop X contextApiItem nodes Hall (newEmitter defaultRootTag) w)
    as Hloop.
  change (openTags (newEmitter defaultRootTag)) with (@nil string) in Hloop.
  unfold _createDocNodes, createDocNodesWith, bind.
  destruct (nestedRawTags translatable nodes []).
  - destruct Hloop as (w1 & result & Hrun). rewrite Hrun. eexists. eexists. reflexivity.
  - destruct Hloop as (w1 & e & Hrun). rewrite Hrun. eexists. eexists. reflexivity.
Qed.

(* ================================================================= *)
(** ** Further properties of pages *)

Lemma breadcrumb_loop (X : Externals) (path : list ApiItem) :
  forall (output : CustomHtmlEmitter) (w : World),
    forEach (fun output hierarchyItem =>
               match kind (api_ X hierarchyItem) with
               | Model | EntryPoint => ret output
               | _ =>
                   output <- sendTo output
                     (appendChild (tag "span" (ArgString "breadcrumb") (ArgString " / "))) ;;
                   sendTo output
                     (appendChild (a (displayName (api_ X hierarchyItem))
                                     (_getLinkFilenameForApiItem X hierarchyItem)
                                     (Some "breadcrumb")))
               end) path output w
    = (w, Returned
            (withChildrenC output
               (flat_map
                  (fun hierarchyItem =>
                     match kind (api_ X hierarchyItem) with
                     | Model | EntryPoint => []
                     | _ =>
                         [ tag "span" (ArgString "breadcrumb") (ArgString " / ");
                           a (displayName (api_ X hierarchyItem))
                             (_getLinkFilenameForApiItem X hierarchyItem)
                             (Some "breadcrumb") ]
                     end) path))).
Proof.
  induction path as [| h path IH]; intros output w.
  - cbn. rewrite withChildrenC_nil. reflexivity.
  - cbn [forEach flat_map]. unfold bind at 1.
    destruct (kind (api_ X h));
      try (cbn [ret app]; rewrite IH; reflexivity);
      (unfold bind; rewrite !sendTo_appendChild, IH, !withChildrenC_app; reflexivity).
Qed.

Lemma writeBreadcrumb_run (X : Externals) (output : CustomHtmlEmitter) (apiItem : ApiItem)
  (w : World) :
  _writeBreadcrumb X output apiItem w
  = (w, Returned (withChildrenC output (breadcrumbOf X apiItem))).
Proof.
  unfold _writeBreadcrumb, breadcrumbOf, bind. rewrite sendTo_appendChild.
  rewrite breadcrumb_loop, withChildrenC_app. reflexivity.
Qed.

Lemma writePageHeader_run (X : Externals) (output : CustomHtmlEmitter) (first : ApiItem)
  (w : World) :
  writePageHeader X output first w
  = match headerTextOf X first with
    | Some text =>
        (logged w (headerLog X first), Returned (withChildrenC output [ pageHeader text ]))
    | None =>
        (w, Thrown (JsError ("Unsupported API item kind: " +:+ kindName (kind (api_ X first)))))
    end.
Proof.
  unfold writePageHeader, headerTextOf, headerLog.
  destruct (kind (api_ X first));
    try (rewrite sendTo_appendChild, logged_nil; reflexivity); try reflexivity.
Qed.

Lemma appendsOnly_forEach {B : Type}
  (body : CustomHtmlEmitter -> B -> Eff World CustomHtmlEmitter) (xs : list B) :
  (forall x, In x xs -> appendsOnly (fun output => body output x)) ->
  appendsOnly (forEach body xs).
Proof.
  induction xs as [| x xs IH]; intros H output w w' output' Hrun.
  - injection Hrun as _ <-. exists []. rewrite withChildrenC_nil. reflexivity.
  - cbn [forEach] in Hrun. apply bind_inv in Hrun.
    destruct Hrun as (w1 & output1 & Hstep & Hrest).
    destruct (H x (or_introl eq_refl) output w w1 output1 Hstep) as [nodes1 ->].
    destruct (IH (fun y Hy => H y (or_intror Hy)) _ _ _ _ Hrest) as [nodes2 ->].
    exists (nodes1 ++ nodes2). apply withChildrenC_app.
Qed.

Lemma appendsOnly_writeThrowsSection (X : Externals) (apiItem : ApiItem) :
  appendsOnly (fun output => _writeThrowsSection X output apiItem).
Proof.
  intros output w w' output' Hrun. unfold _writeThrowsSection in Hrun.
  destruct (isDocumentedItem (api_ X apiItem));
    [| injection Hrun as _ <-; exists []; rewrite withChildrenC_nil; reflexivity].
  destruct (tsdocComment (api_ X apiItem)) as [comment |];
    [| injection Hrun as _ <-; exists []; rewrite withChildrenC_nil; reflexivity].
  unfold bind at 1 in Hrun. rewrite sendTo_appendChild in Hrun.
  apply bind_inv in Hrun. destruct Hrun as (w1 & exceptionsTable & _ & Hsend).
  rewrite sendTo_appendChild in Hsend. injection Hsend as _ <-.
  rewrite withChildrenC_app. eexists. reflexivity.
Qed.

Lemma appendsOnly_writeParameterTables (X : Externals) (apiItem : ApiItem) :
  appendsOnly (fun output => _writeParameterTables X output apiItem).
Proof.
  intros output w w' output' Hrun. unfold _writeParameterTables in Hrun.
  destruct (parameterList (api_ X apiItem)) as [pl |]; [| discriminate].
  apply bind_inv in Hrun. destruct Hrun as (w1 & acc & _ & Hrun).
  unfold bind at 1 in Hrun. rewrite writeTableIfLonger_run in Hrun.
  match type of Hrun with
  | context [withChildrenC output ?nodes] => set (section := nodes) in *
  end.
  destruct (returnTypeExcerpt (api_ X apiItem));
    [| injection Hrun as _ <-; eexists; reflexivity].
  destruct (isDocumentedItem (api_ X apiItem));
    [| injection Hrun as _ <-; eexists; reflexivity].
  destruct (tsdocComment (api_ X apiItem)) as [comment |];
    [| injection Hrun as _ <-; eexists; reflexivity].
  destruct (returnsBlock comment) as [returns |];
    [| injection Hrun as _ <-; eexists; reflexivity].
  apply bind_inv in Hrun. destruct Hrun as (w2 & nodes & _ & Hrun).
  cbv zeta in Hrun. unfold bind in Hrun. rewrite !sendTo_appendChild in Hrun.
  injection Hrun as _ <-. rewrite !withChildrenC_app. eexists. reflexivity.
Qed.

Lemma appendsOnly_writeKindTables (X : Externals) (self : ApiItem -> Eff World unit)
  (apiItem : ApiItem) :
  appendsOnly (fun output => writeKindTables X self output apiItem).
Proof.
  intros output w w' output' Hrun. unfold writeKindTables in Hrun.
  assert (Hcontainer :
            _writePackageOrNamespaceTables X self output apiItem w = (w', Returned output') ->
            exists nodes, output' = withChildrenC output nodes).
  { intros H. unfold _writePackageOrNamespaceTables in H.
    apply bind_inv in H. destruct H as (w1 & ms & _ & H).
    apply bind_inv in H. destruct H as (w2 & tables & _ & H).
    rewrite writeSections_run in H. injection H as _ <-. eexists. reflexivity. }
  destruct (kind (api_ X apiItem)); try discriminate;
    try (injection Hrun as _ <-; exists []; rewrite withChildrenC_nil; reflexivity);
    try (exact (Hcontainer Hrun));
    try (apply bind_inv in Hrun; destruct Hrun as (w1 & output1 & Hparams & Hthrows);
         destruct (appendsOnly_writeParameterTables X apiItem _ _ _ _ Hparams)
           as [nodes1 ->];
         destruct (appendsOnly_writeThrowsSection X apiItem _ _ _ _ Hthrows)
           as [nodes2 ->];
         rewrite withChildrenC_app; eexists; reflexivity).
  - unfold _writeClassTables in Hrun.
    apply bind_inv in Hrun. destruct Hrun as (w1 & tables & _ & H).
    rewrite writeSections_run in H. injection H as _ <-. eexists. reflexivity.
  - unfold _writeEnumTables in Hrun.
    apply bind_inv in Hrun. destruct Hrun as (w1 & t & _ & H).
    rewrite writeTableIfLonger_run in H. injection H as _ <-. eexists. reflexivity.
  - unfold _writeInterfaceTables in Hrun.
    apply bind_inv in Hrun. destruct Hrun as (w1 & tables & _ & H).
    rewrite writeSections_run in H. injection H as _ <-. eexists. reflexivity.
  - unfold _writeModelTable in Hrun.
    apply bind_inv in Hrun. destruct Hrun as (w1 & t & _ & H).
    rewrite writeTableIfLonger_run in H. injection H as _ <-. eexists. reflexivity.
Qed.

Lemma writePageContent_start (X : Externals) (self : ApiItem -> Eff World unit)
  (first : ApiItem) (apiItems : list ApiItem) (w : World) :
  writePageContent X self first apiItems w
  = (output <- writePageHeader X (withChildrenC (openedPage first) (breadcrumbOf X first))
                 first ;;
     output <- (if existsb (isBeta X) apiItems
                then _writeBetaWarning output else ret output) ;;
     output <- forEach (writeSummary X) apiItems output ;;
     output <-
       (if (0 <? length (filter (hasSignature X) apiItems))%nat
        then sendTo output
               (appendChild (tag "div" (ArgString "signature-heading")
                               (ArgString "Signature")))
        else ret output) ;;
     output <- forEach (writeSignature X) (filter (hasSignature X) apiItems) output ;;
     output <- forEach (_writeRemarksSection X) apiItems output ;;
     output <- forEach (writeKindTables X self) apiItems output ;;
     sendTo output (closeNode "div")) w.
Proof.
  unfold writePageContent. cbv zeta.
  unfold bind at 1. change (sendTo (newCustomHtmlEmitter first) (addStyle "styles.css") w)
    with (w, Returned (mkCustom (mkEmitter (mkBlock "body" None []) [] [ "styles.css" ])
                         first)).
  cbv iota beta. unfold bind at 1.
  change (sendTo (mkCustom (mkEmitter (mkBlock "body" None []) [] [ "styles.css" ]) first)
            (appendChild siteHeader) w)
    with (w, Returned (mkCustom (mkEmitter (mkBlock "body" None [ siteHeader ]) []
                                   [ "styles.css" ]) first)).
  cbv iota beta. unfold bind at 1.
  change (sendTo (mkCustom (mkEmitter (mkBlock "body" None [ siteHeader ]) []
                              [ "styles.css" ]) first)
            (openNode (tagBlock "div" (Some "main") []) None) w)
    with (w, Returned (openedPage first)).
  cbv iota beta. unfold bind at 1. rewrite writeBreadcrumb_run. reflexivity.
Qed.

(** X8. An entity of a kind without a page (a call signature, an
    entry point, an enum member, an index signature, the kind None)
    cannot be the first entity of a page: the page stops with the
    error that names the kind before anything is written to the
    console or to a file and before any page of a member is asked
    for.  These are the only kinds for which this happens. *)
Theorem page_of_unsupported_kind_throws (X : Externals)
  (self : ApiItem -> Eff World unit) (first : ApiItem) (rest : list ApiItem) (w : World) :
  (headerTextOf X first = None
   <-> In (kind (api_ X first))
         [ CallSignature; EntryPoint; EnumMember; IndexSignature; NoKind ])
  /\ (headerTextOf X first = None ->
      _writeApiItemPageWithSiblings X self (first :: rest) w
      = (w, Thrown (JsError ("Unsupported API item kind: "
                               +:+ kindName (kind (api_ X first))))))
  /\ (forall fuel,
         headerTextOf X first = None ->
         isInterfaceNamespacePair X (mergedSiblings (api_ X first)) = false ->
         _writeApiItemPage X (S fuel) first w
         = (w, Thrown (JsError ("Unsupported API item kind: "
                                  +:+ kindName (kind (api_ X first)))))).
Proof.
  assert (Hpage : forall others,
             headerTextOf X first = None ->
             _writeApiItemPageWithSiblings X self (first :: others) w
             = (w, Thrown (JsError ("Unsupported API item kind: "
                                      +:+ kindName (kind (api_ X first)))))).
  { intros others Hnone. unfold _writeApiItemPageWithSiblings.
    unfold bind at 1. rewrite writePageContent_start.
    unfold bind at 1. rewrite writePageHeader_run, Hnone. reflexivity. }
  split; [| split].
  - unfold headerTextOf. destruct (kind (api_ X first)); cbn; split; intros H;
      try discriminate; try reflexivity; intuition discriminate.
  - apply Hpage.
  - intros fuel Hnone Hpair. cbn [_writeApiItemPage]. rewrite Hpair.
    unfold _writeApiItemPageWithSiblings.
    unfold bind at 1. rewrite writePageContent_start.
    unfold bind at 1. rewrite writePageHeader_run, Hnone. reflexivity.
Qed.

(* ================================================================= *)
(** ** What a run leaves behind *)











(* ================================================================= *)
(** ** The tables of a class and of an interface *)

Lemma pushRow_rows (T : Type) (T_beq : T -> T -> bool) (t t' : T) (row : BlockHtmlNode)
  (tables : T -> BlockHtmlNode) :
  pushRow T_beq t row tables t'
  = withRows (tables t') (if T_beq t t' then [ block row ] else []).
Proof.
  unfold pushRow. destruct (T_beq t t').
  - reflexivity.
  - rewrite withRows_nil. reflexivity.
Qed.

Lemma createDescriptionCell_returned (X : Externals) (apiItem contextApiItem : ApiItem)
  (w w' : World) (cell : HtmlNode) :
  _createDescriptionCell X apiItem contextApiItem w = (w', Returned cell) ->
  describes X contextApiItem apiItem cell.
Proof.
  unfold _createDescriptionCell, describes. intros H.
  destruct (isDocumentedItem (api_ X apiItem));
    [| injection H as _ <-; exists []; split; reflexivity].
  destruct (tsdocComment (api_ X apiItem)) as [comment |];
    [| injection H as _ <-; exists []; split; reflexivity].
  apply bind_inv in H. destruct H as (w1 & nodes & Hnodes & H).
  injection H as _ <-. exists nodes. split; [reflexivity |].
  rewrite createDocNodes_run in Hnodes. injection Hnodes as _ Hnodes. exact Hnodes.
Qed.

(** One more member [m], listed in [t0], after the rows of the
    members before it. *)
Lemma membersIn_step (X : Externals) (T : Type) (T_beq : T -> T -> bool)
  (T_bl : forall x y, T_beq x y = true -> x = y)
  (tableOf : ApiItem -> option T) (new : T -> BlockHtmlNode)
  (contextApiItem m : ApiItem) (ms : list ApiItem) (t0 : T) (middle : list Cell)
  (description : HtmlNode) (tables tables' : T -> BlockHtmlNode) :
  tableOf m = Some t0 ->
  describes X contextApiItem m description ->
  headingsOf (new t0) = Some (S (S (length middle))) ->
  (forall t, exists rows,
      tables' t
      = withRows (pushRow T_beq t0
                    (tr (CellNode (_createTitleCell X m)
                           :: middle ++ [ CellNode description ])) tables t)
          rows
      /\ Forall2 (listsMember X contextApiItem (new t)) (membersIn T_beq tableOf t ms)
           rows) ->
  forall t, exists rows,
    tables' t = withRows (tables t) rows
    /\ Forall2 (listsMember X contextApiItem (new t))
         (membersIn T_beq tableOf t (m :: ms)) rows.
Proof.
  intros Hm Hdescription Hcells H t. destruct (H t) as (rows & Hrows & Hall).
  rewrite pushRow_rows, withRows_app in Hrows.
  unfold membersIn. cbn [filter]. rewrite Hm. fold (membersIn T_beq tableOf t ms).
  destruct (T_beq t0 t) eqn:Ht.
  - apply T_bl in Ht. subst t0.
    exists (block (tr (CellNode (_createTitleCell X m)
                         :: middle ++ [ CellNode description ])) :: rows).
    split; [exact Hrows |]. constructor; [| exact Hall].
    exists middle, description. split; [reflexivity |]. split; assumption.
  - exists rows. split; [exact Hrows | exact Hall].
Qed.

Lemma membersIn_skip (T : Type) (T_beq : T -> T -> bool)
  (tableOf : ApiItem -> option T) (m : ApiItem) (ms : list ApiItem) (t : T) :
  tableOf m = None ->
  membersIn T_beq tableOf t (m :: ms) = membersIn T_beq tableOf t ms.
Proof. intros H. unfold membersIn. cbn [filter]. rewrite H. reflexivity. Qed.

Lemma class_loop (X : Externals) (self : ApiItem -> Eff World unit)
  (contextApiItem : ApiItem) (apiMembers : list ApiItem) :
  forall (tables tables' : ClassTables.name -> BlockHtmlNode) (w w' : World),
    forEach (fun tables apiMember =>
               match kind (api_ X apiMember) with
               | Constructor =>
                   description <- _createDescriptionCell X apiMember contextApiItem ;;
                   let tables :=
                     pushRow ClassTables.name_beq ClassTables.constructorsTable
                       (tr [ CellNode (_createTitleCell X apiMember);
                             CellNode (_createModifiersCell X apiMember);
                             CellNode description ]) tables in
                   self apiMember ;;; ret tables
               | Method =>
                   description <- _createDescriptionCell X apiMember contextApiItem ;;
                   let tables :=
                     pushRow ClassTables.name_beq ClassTables.methodsTable
                       (tr [ CellNode (_createTitleCell X apiMember);
                             CellNode (_createModifiersCell X apiMember);
                             CellNode description ]) tables in
                   self apiMember ;;; ret tables
               | Property =>
                   description <- _createDescriptionCell X apiMember contextApiItem ;;
                   let tables :=
                     pushRow ClassTables.name_beq
                       (if isEventPropertyOf X apiMember
                        then ClassTables.eventsTable else ClassTables.propertiesTable)
                       (tr [ CellNode (_createTitleCell X apiMember);
                             CellNode (_createModifiersCell X apiMember);
                             CellNode (_createPropertyTypeCell X apiMember);
                             CellNode description ]) tables in
                   self apiMember ;;; ret tables
               | _ => ret tables
               end) apiMembers tables w
    = (w', Returned tables') ->
    forall t, exists rows,
      tables' t = withRows (tables t) rows
      /\ Forall2 (listsMember X contextApiItem (newClassTables t))
           (membersIn ClassTables.name_beq (classTableOf X) t apiMembers) rows.
Proof.
  induction apiMembers as [| m apiMembers IH]; intros tables tables' w w' Hrun.
  - injection Hrun as _ <-. intros t. exists []. rewrite withRows_nil.
    split; [reflexivity | constructor].
  - cbn [forEach] in Hrun.
    apply bind_inv in Hrun. destruct Hrun as (w1 & tables1 & Hbody & Hrest).
    specialize (IH tables1 tables' w1 w' Hrest).
    destruct (kind (api_ X m)) eqn:Hkind;
      try (injection Hbody as _ <-; intros t;
           rewrite membersIn_skip by (unfold classTableOf; rewrite Hkind; reflexivity);
           exact (IH t));
      apply bind_inv in Hbody; destruct Hbody as (w2 & description & Hdescription & Hbody);
      apply createDescriptionCell_returned in Hdescription;
      cbv zeta in Hbody;
      apply bind_inv in Hbody; destruct Hbody as (w3 & [] & _ & Hbody);
      injection Hbody as _ <-.
    + apply (membersIn_step X _ _ ClassTables.internal_name_dec_bl (classTableOf X)
               newClassTables contextApiItem m apiMembers ClassTables.constructorsTable
               [ CellNode (_createModifiersCell X m) ] description tables tables');
        [unfold classTableOf; rewrite Hkind; reflexivity | exact Hdescription
        | reflexivity | exact IH].
    + apply (membersIn_step X _ _ ClassTables.internal_name_dec_bl (classTableOf X)
               newClassTables contextApiItem m apiMembers ClassTables.methodsTable
               [ CellNode (_createModifiersCell X m) ] description tables tables');
        [unfold classTableOf; rewrite Hkind; reflexivity | exact Hdescription
        | reflexivity | exact IH].
    + apply (membersIn_step X _ _ ClassTables.internal_name_dec_bl (classTableOf X)
               newClassTables contextApiItem m apiMembers
               (if isEventPropertyOf X m
                then ClassTables.eventsTable else ClassTables.propertiesTable)
               [ CellNode (_createModifiersCell X m);
                 CellNode (_createPropertyTypeCell X m) ] description tables tables');
        [unfold classTableOf; rewrite Hkind; reflexivity | exact Hdescription
        | destruct (isEventPropertyOf X m); reflexivity | exact IH].
Qed.

Lemma interface_loop (X : Externals) (self : ApiItem -> Eff World unit)
  (contextApiItem : ApiItem) (apiMembers : list ApiItem) :
  forall (tables tables' : InterfaceTables.name -> BlockHtmlNode) (w w' : World),
    forEach (fun tables apiMember =>
               match kind (api_ X apiMember) with
               | ConstructSignature | MethodSignature =>
                   description <- _createDescriptionCell X apiMember contextApiItem ;;
                   let tables :=
                     pushRow InterfaceTables.name_beq InterfaceTables.methodsTable
                       (tr [ CellNode (_createTitleCell X apiMember);
                             CellNode description ]) tables in
                   self apiMember ;;; ret tables
               | PropertySignature =>
                   description <- _createDescriptionCell X apiMember contextApiItem ;;
                   let tables :=
                     pushRow InterfaceTables.name_beq
                       (if isEventPropertyOf X apiMember
                        then InterfaceTables.eventsTable
                        else InterfaceTables.propertiesTable)
                       (tr [ CellNode (_createTitleCell X apiMember);
                             CellNode (_createPropertyTypeCell X apiMember);
                             CellNode description ]) tables in
                   self apiMember ;;; ret tables
               | _ => ret tables
               end) apiMembers tables w
    = (w', Returned tables') ->
    forall t, exists rows,
      tables' t = withRows (tables t) rows
      /\ Forall2 (listsMember X contextApiItem (newInterfaceTables t))
           (membersIn InterfaceTables.name_beq (interfaceTableOf X) t apiMembers) rows.
Proof.
  induction apiMembers as [| m apiMembers IH]; intros tables tables' w w' Hrun.
  - injection Hrun as _ <-. intros t. exists []. rewrite withRows_nil.
    split; [reflexivity | constructor].
  - cbn [forEach] in Hrun.
    apply bind_inv in Hrun. destruct Hrun as (w1 & tables1 & Hbody & Hrest).
    specialize (IH tables1 tables' w1 w' Hrest).
    destruct (kind (api_ X m)) eqn:Hkind;
      try (injection Hbody as _ <-; intros t;
           rewrite membersIn_skip by (unfold interfaceTableOf; rewrite Hkind; reflexivity);
           exact (IH t));
      apply bind_inv in Hbody; destruct Hbody as (w2 & description & Hdescription & Hbody);
      apply createDescriptionCell_returned in Hdescription;
      cbv zeta in Hbody;
      apply bind_inv in Hbody; destruct Hbody as (w3 & [] & _ & Hbody);
      injection Hbody as _ <-.
    + apply (membersIn_step X _ _ InterfaceTables.internal_name_dec_bl
               (interfaceTableOf X) newInterfaceTables contextApiItem m apiMembers
               InterfaceTables.methodsTable [] description tables tables');
        [unfold interfaceTableOf; rewrite Hkind; reflexivity | exact Hdescription
        | reflexivity | exact IH].
    + apply (membersIn_step X _ _ InterfaceTables.internal_name_dec_bl
               (interfaceTableOf X) newInterfaceTables contextApiItem m apiMembers
               InterfaceTables.methodsTable [] description tables tables');
        [unfold interfaceTableOf; rewrite Hkind; reflexivity | exact Hdescription
        | reflexivity | exact IH].
    + apply (membersIn_step X _ _ InterfaceTables.internal_name_dec_bl
               (interfaceTableOf X) newInterfaceTables contextApiItem m apiMembers
               (if isEventPropertyOf X m
                then InterfaceTables.eventsTable else InterfaceTables.propertiesTable)
               [ CellNode (_createPropertyTypeCell X m) ] description tables tables');
        [unfold interfaceTableOf; rewrite Hkind; reflexivity | exact Hdescription
        | destruct (isEventPropertyOf X m); reflexivity | exact IH].
Qed.

(** A heading is written exactly for the tables that list a member. *)
Lemma sections_of_members (T : Type) (A : Type) (R : T -> A -> HtmlNode -> Prop)
  (sections : list (T * string)) (new tables : T -> BlockHtmlNode)
  (listed : T -> list A) :
  NoDup (map snd sections) ->
  (forall s, In s sections -> snd s <> "") ->
  (forall t, length (content (new t)) = 1) ->
  (forall t, exists rows,
      tables t = withRows (new t) rows /\ Forall2 (R t) (listed t) rows) ->
  forall t title,
    In (t, title) sections ->
    (In (sectionHeading title) (sectionsWritten sections tables) <-> listed t <> []).
Proof.
  intros Hnodup Hnonempty Hnew Htables t title Hin.
  rewrite (heading_written T sections tables Hnodup Hnonempty t title Hin).
  destruct (Htables t) as (rows & -> & Hall). apply Forall2_length in Hall.
  unfold withRows. cbn [content]. rewrite length_app, Hnew, <- Hall.
  destruct (listed t); cbn [length]; split; intros H; try lia; try discriminate.
  exfalso. apply H. reflexivity.
Qed.

(** X10. The four tables of a class page.  When [_writeClassTables]
    returns, each table holds, after its heading row, one row for
    each constructor (Constructors), method (Methods), event property
    (Events) and other property (Properties) of the class, in the
    order of the members; members of any other kind have no row.
    The first cell of a row is the link to the page of its member and
    the row has one cell for each heading of its table.  The tables
    that list a member are written with their heading, in the order
    Events, Constructors, Properties, Methods; a table that lists no
    member is not written. *)
Theorem class_tables_list_the_members (X : Externals) (self : ApiItem -> Eff World unit)
  (output output' : CustomHtmlEmitter) (apiClass : ApiItem) (w w' : World) :
  _writeClassTables X self output apiClass w = (w', Returned output') ->
  let listed := fun t =>
    membersIn ClassTables.name_beq (classTableOf X) t (members (api_ X apiClass)) in
  exists tables : ClassTables.name -> BlockHtmlNode,
    (forall t, exists rows,
        tables t = withRows (newClassTables t) rows
        /\ Forall2 (listsMember X (contextApiItem output) (newClassTables t)) (listed t)
             rows)
    /\ output' = withChildrenC output (sectionsWritten classSections tables)
    /\ (forall t title,
           In (t, title) classSections ->
           (In (sectionHeading title) (sectionsWritten classSections tables)
            <-> listed t <> [])).
Proof.
  intros Hrun listed. unfold _writeClassTables in Hrun.
  apply bind_inv in Hrun. destruct Hrun as (w1 & tables & Hloop & Hsections).
  rewrite writeSections_run in Hsections. injection Hsections as _ <-.
  pose proof (class_loop X self (contextApiItem output) (members (api_ X apiClass))
                newClassTables tables w w1 Hloop) as Hrows.
  exists tables. split; [exact Hrows |]. split; [reflexivity |].
  apply (sections_of_members _ _
           (fun t => listsMember X (contextApiItem output) (newClassTables t))
           classSections newClassTables tables listed).
  - cbn. repeat constructor; cbn; intuition discriminate.
  - intros s Hs. cbn in Hs.
    repeat (destruct Hs as [<- | Hs]; [discriminate |]). contradiction.
  - intros t. destruct t; reflexivity.
  - exact Hrows.
Qed.

Lemma class_tables_list_the_members_witness :
  let X := Library.externals in
  let listed := fun t =>
    membersIn ClassTables.name_beq (classTableOf X) t (members (api_ X 3)) in
  exists (w' : World) (output' : CustomHtmlEmitter),
    _writeClassTables X (fun _ => ret tt) (newCustomHtmlEmitter 3) 3 emptyWorld
    = (w', Returned output')
    /\ listed ClassTables.eventsTable = [ 7 ]
    /\ listed ClassTables.constructorsTable = [ 4 ]
    /\ listed ClassTables.propertiesTable = [ 6 ]
    /\ listed ClassTables.methodsTable = [ 5 ]
    /\ exists tables : ClassTables.name -> BlockHtmlNode,
        (forall t, exists rows,
            tables t = withRows (newClassTables t) rows
            /\ Forall2 (listsMember X 3 (newClassTables t)) (listed t)
             rows)
        /\ output' = withChildrenC (newCustomHtmlEmitter 3)
                       (sectionsWritten classSections tables)
        /\ (forall t title,
               In (t, title) classSections ->
               (In (sectionHeading title) (sectionsWritten classSections tables)
                <-> listed t <> [])).
Proof.
  intros X listed.
  destruct (_writeClassTables X (fun _ => ret tt) (newCustomHtmlEmitter 3) 3 emptyWorld)
    as [w' [output' | e | ]] eqn:Hrun; try (vm_compute in Hrun; discriminate).
  exists w', output'. split; [reflexivity |].
  split; [reflexivity |]. split; [reflexivity |]. split; [reflexivity |].
  split; [reflexivity |].
  exact (class_tables_list_the_members X (fun _ => ret tt) (newCustomHtmlEmitter 3)
           output' 3 emptyWorld w' Hrun).
Defined.

(** X11. The three tables of an interface page.  When
    [_writeInterfaceTables] returns, each table holds, after its
    heading row, one row for each construct signature or method
    signature (Methods), event property signature (Events) and other
    property signature (Properties) of the interface, in the order of
    the members; members of any other kind, a call signature or an
    index signature among them, have no row.  The first cell of a
    row is the link to the page of its member and the row has one
    cell for each heading of its table.  The tables that list a
    member are written with their heading, in the order Events,
    Properties, Methods. *)
Theorem interface_tables_list_the_members (X : Externals)
  (self : ApiItem -> Eff World unit) (output output' : CustomHtmlEmitter)
  (apiInterface : ApiItem) (w w' : World) :
  _writeInterfaceTables X self output apiInterface w = (w', Returned output') ->
  let listed := fun t =>
    membersIn InterfaceTables.name_beq (interfaceTableOf X) t
      (members (api_ X apiInterface)) in
  exists tables : InterfaceTables.name -> BlockHtmlNode,
    (forall t, exists rows,
        tables t = withRows (newInterfaceTables t) rows
        /\ Forall2 (listsMember X (contextApiItem output) (newInterfaceTables t))
             (listed t) rows)
    /\ output' = withChildrenC output (sectionsWritten interfaceSections tables)
    /\ (forall t title,
           In (t, title) interfaceSections ->
           (In (sectionHeading title) (sectionsWritten interfaceSections tables)
            <-> listed t <> [])).
Proof.
  intros Hrun listed. unfold _writeInterfaceTables in Hrun.
  apply bind_inv in Hrun. destruct Hrun as (w1 & tables & Hloop & Hsections).
  rewrite writeSections_run in Hsections. injection Hsections as _ <-.
  pose proof (interface_loop X self (contextApiItem output)
                (members (api_ X apiInterface))
                newInterfaceTables tables w w1 Hloop) as Hrows.
  exists tables. split; [exact Hrows |]. split; [reflexivity |].
  apply (sections_of_members _ _
           (fun t => listsMember X (contextApiItem output) (newInterfaceTables t))
           interfaceSections newInterfaceTables tables listed).
  - cbn. repeat constructor; cbn; intuition discriminate.
  - intros s Hs. cbn in Hs.
    repeat (destruct Hs as [<- | Hs]; [discriminate |]). contradiction.
  - intros t. destruct t; reflexivity.
  - exact Hrows.
Qed.

Lemma interface_tables_list_the_members_witness :
  let X := Library.externals in
  let listed := fun t =>
    membersIn InterfaceTables.name_beq (interfaceTableOf X) t (members (api_ X 9)) in
  exists (w' : World) (output' : CustomHtmlEmitter),
    _writeInterfaceTables X (fun _ => ret tt) (newCustomHtmlEmitter 9) 9 emptyWorld
    = (w', Returned output')
    /\ listed InterfaceTables.eventsTable = [ 13 ]
    /\ listed InterfaceTables.propertiesTable = [ 12 ]
    /\ listed InterfaceTables.methodsTable = [ 10; 11 ]
    /\ exists tables : InterfaceTables.name -> BlockHtmlNode,
        (forall t, exists rows,
            tables t = withRows (newInterfaceTables t) rows
            /\ Forall2 (listsMember X 9 (newInterfaceTables t))
             (listed t) rows)
        /\ output' = withChildrenC (newCustomHtmlEmitter 9)
                       (sectionsWritten interfaceSections tables)
        /\ (forall t title,
               In (t, title) interfaceSections ->
               (In (sectionHeading title) (sectionsWritten interfaceSections tables)
                <-> listed t <> [])).
Proof.
  intros X listed.
  destruct (_writeInterfaceTables X (fun _ => ret tt) (newCustomHtmlEmitter 9) 9
              emptyWorld)
    as [w' [output' | e | ]] eqn:Hrun; try (vm_compute in Hrun; discriminate).
  exists w', output'. split; [reflexivity |].
  split; [reflexivity |]. split; [reflexivity |]. split; [reflexivity |].
  exact (interface_tables_list_the_members X (fun _ => ret tt) (newCustomHtmlEmitter 9)
           output' 9 emptyWorld w' Hrun).
Defined.

(* ================================================================= *)
(** ** The table of an enum and the table of the model *)

Lemma createDescriptionCell_thrown (X : Externals) (apiItem contextApiItem : ApiItem)
  (w w' : World) (e : Error) :
  _createDescriptionCell X apiItem contextApiItem w = (w', Thrown e) ->
  summaryThrows X contextApiItem apiItem e.
Proof.
  unfold _createDescriptionCell, summaryThrows. intros H.
  destruct (isDocumentedItem (api_ X apiItem)); [| discriminate].
  destruct (tsdocComment (api_ X apiItem)) as [comment |]; [| discriminate].
  exists comment. split; [reflexivity |]. split; [reflexivity |].
  unfold bind in H. rewrite createDocNodes_run in H.
  destruct (translationOf X contextApiItem (summarySection comment)) as [nodes | e' | ];
    try discriminate.
  injection H as _ <-. reflexivity.
Qed.

Lemma createDescriptionCell_ends (X : Externals) (apiItem contextApiItem : ApiItem)
  (w : World) :
  snd (_createDescriptionCell X apiItem contextApiItem w) <> OutOfFuel.
Proof.
  unfold _createDescriptionCell.
  destruct (isDocumentedItem (api_ X apiItem)); [| discriminate].
  destruct (tsdocComment (api_ X apiItem)) as [comment |]; [| discriminate].
  unfold bind. rewrite createDocNodes_run.
  pose proof (translationOf_ends X contextApiItem (summarySection comment)) as H.
  destruct (translationOf X contextApiItem (summarySection comment)); cbn [snd];
    [discriminate | discriminate | intros _; apply H; reflexivity].
Qed.

Lemma enum_loop (X : Externals) (contextApiItem : ApiItem) (apiMembers : list ApiItem) :
  forall (enumMembersTable : BlockHtmlNode) (w : World),
    match
      forEach (fun enumMembersTable apiEnumMember =>
                 match initializerExcerpt (api_ X apiEnumMember) with
                 | Some initializer =>
                     description <-
                       _createDescriptionCell X apiEnumMember contextApiItem ;;
                     ret (content_push enumMembersTable
                            (block (tr [ CellString (getConciseSignature_ X apiEnumMember);
                                         CellString initializer;
                                         CellNode description ])))
                 | None => throw (JsTypeError "initializerExcerpt is undefined")
                 end) apiMembers enumMembersTable w
    with
    | (_, Returned enumMembersTable') =>
        exists rows,
          enumMembersTable' = withRows enumMembersTable rows
          /\ Forall2 (listsEnumMember X contextApiItem) apiMembers rows
    | (_, Thrown e) =>
        exists apiEnumMember,
          In apiEnumMember apiMembers
          /\ ((initializerExcerpt (api_ X apiEnumMember) = None
               /\ e = JsTypeError "initializerExcerpt is undefined")
              \/ summaryThrows X contextApiItem apiEnumMember e)
    | (_, OutOfFuel) => False
    end.
Proof.
  induction apiMembers as [| m apiMembers IH]; intros enumMembersTable w.
  - cbn. exists []. rewrite withRows_nil. split; [reflexivity | constructor].
  - cbn [forEach]. unfold bind at 1.
    destruct (initializerExcerpt (api_ X m)) as [value |] eqn:Hvalue.
    + unfold bind at 1.
      destruct (_createDescriptionCell X m contextApiItem w) as [w1 [d | e | ]] eqn:Hd.
      * cbn [ret]. apply createDescriptionCell_returned in Hd.
        specialize (IH (content_push enumMembersTable
                          (block (tr [ CellString (getConciseSignature_ X m);
                                       CellString value; CellNode d ]))) w1).
        match goal with
        | |- match ?run with _ => _ end => destruct run as [w2 [t' | e | ]]
        end.
        -- destruct IH as (rows & -> & Hrows).
           exists (block (tr [ CellString (getConciseSignature_ X m);
                               CellString value; CellNode d ]) :: rows).
           split.
           ++ rewrite content_push_withRows, withRows_app. reflexivity.
           ++ constructor; [| exact Hrows]. exists value, d.
              split; [exact Hvalue |]. split; [exact Hd | reflexivity].
        -- destruct IH as (m' & Hin & H). exists m'. split; [right; exact Hin | exact H].
        -- exact IH.
      * apply createDescriptionCell_thrown in Hd.
        exists m. split; [left; reflexivity | right; exact Hd].
      * pose proof (createDescriptionCell_ends X m contextApiItem w) as H.
        rewrite Hd in H. apply H. reflexivity.
    + cbn. exists m. split; [left; reflexivity |]. left.
      split; [exact Hvalue | reflexivity].
Qed.

(** X12. The table of an enum page.  A run of [_writeEnumTables]
    either returns, and then every member of the enum has a value and
    the table holds, after its heading row, one row for each member,
    in order, with its name, its value and its description (the
    section is left out only for an enum without members); or it
    throws, and then some member has no value (a TypeError) or the
    summary of some member does not translate. *)
Theorem enum_table_lists_every_member (X : Externals) (output : CustomHtmlEmitter)
  (apiEnum : ApiItem) (w : World) :
  match _writeEnumTables X output apiEnum w with
  | (_, Returned output') =>
      exists rows,
        Forall2 (listsEnumMember X (contextApiItem output)) (members (api_ X apiEnum)) rows
        /\ output'
           = withChildrenC output
               (match members (api_ X apiEnum) with
                | [] => []
                | _ :: _ =>
                    [ sectionHeading "Enumeration Members";
                      block (withRows (table [ "Member"; "Value"; "Description" ]) rows) ]
                end)
  | (_, Thrown e) =>
      exists apiEnumMember,
        In apiEnumMember (members (api_ X apiEnum))
        /\ ((initializerExcerpt (api_ X apiEnumMember) = None
             /\ e = JsTypeError "initializerExcerpt is undefined")
            \/ summaryThrows X (contextApiItem output) apiEnumMember e)
  | (_, OutOfFuel) => False
  end.
Proof.
  unfold _writeEnumTables, bind.
  pose proof (enum_loop X (contextApiItem output) (members (api_ X apiEnum))
                (table [ "Member"; "Value"; "Description" ]) w) as Hloop.
  destruct (forEach _ (members (api_ X apiEnum)) _ w) as [w1 [t' | e | ]].
  - destruct Hloop as (rows & -> & Hrows). rewrite writeTableIfLonger_run.
    exists rows. split; [exact Hrows |].
    apply Forall2_length in Hrows.
    destruct (members (api_ X apiEnum)); destruct rows; try discriminate; reflexivity.
  - exact Hloop.
  - exact Hloop.
Qed.

Lemma model_loop (X : Externals) (self : ApiItem -> Eff World unit)
  (contextApiItem : ApiItem) (apiMembers : list ApiItem) :
  forall (packagesTable packagesTable' : BlockHtmlNode) (w w' : World),
    forEach (fun packagesTable apiMember =>
               description <- _createDescriptionCell X apiMember contextApiItem ;;
               let row := tr [ CellNode (_createTitleCell X apiMember);
                               CellNode description ] in
               match kind (api_ X apiMember) with
               | Package =>
                   let packagesTable := content_push packagesTable (block row) in
                   self apiMember ;;; ret packagesTable
               | _ => ret packagesTable
               end) apiMembers packagesTable w
    = (w', Returned packagesTable') ->
    exists rows,
      packagesTable' = withRows packagesTable rows
      /\ Forall2 (listsMember X contextApiItem (table [ "Package"; "Description" ]))
           (packagesOf X apiMembers) rows.
Proof.
  induction apiMembers as [| m apiMembers IH]; intros packagesTable packagesTable' w w' Hrun.
  - injection Hrun as _ <-. exists []. rewrite withRows_nil.
    split; [reflexivity | constructor].
  - cbn [forEach] in Hrun.
    apply bind_inv in Hrun. destruct Hrun as (w1 & table1 & Hbody & Hrest).
    apply bind_inv in Hbody. destruct Hbody as (w2 & description & Hdescription & Hbody).
    apply createDescriptionCell_returned in Hdescription. cbv zeta in Hbody.
    destruct (IH table1 packagesTable' w1 w' Hrest) as (rows & -> & Hrows).
    unfold packagesOf. cbn [filter]. fold (packagesOf X apiMembers).
    destruct (kind (api_ X m)) eqn:Hkind;
      try (injection Hbody as _ <-; exists rows; split; [reflexivity | exact Hrows]).
    apply bind_inv in Hbody. destruct Hbody as (w3 & [] & _ & Hbody).
    injection Hbody as _ <-. cbn [ApiItemKind_beq].
    exists (block (tr [ CellNode (_createTitleCell X m); CellNode description ]) :: rows).
    split.
    + rewrite content_push_withRows, withRows_app. reflexivity.
    + constructor; [| exact Hrows]. exists [], description.
      split; [reflexivity |]. split; [exact Hdescription | reflexivity].
Qed.

(** X13. The table of the model page.  When [_writeModelTable]
    returns, the page has got the heading Packages and the packages
    table, which holds after its heading row one row for each package
    among the members of the model, in order, with the link to the
    page of the package and its description; members of other kinds
    have no row.  Unlike every other table, this one is written even
    when it lists nothing. *)
Theorem model_table_lists_the_packages (X : Externals) (self : ApiItem -> Eff World unit)
  (output output' : CustomHtmlEmitter) (apiModel : ApiItem) (w w' : World) :
  _writeModelTable X self output apiModel w = (w', Returned output') ->
  exists rows,
    Forall2 (listsMember X (contextApiItem output) (table [ "Package"; "Description" ]))
      (packagesOf X (members (api_ X apiModel))) rows
    /\ output'
       = withChildrenC output
           [ sectionHeading "Packages";
             block (withRows (table [ "Package"; "Description" ]) rows) ].
Proof.
  intros Hrun. unfold _writeModelTable in Hrun.
  apply bind_inv in Hrun. destruct Hrun as (w1 & packagesTable & Hloop & Hwrite).
  apply model_loop in Hloop. destruct Hloop as (rows & -> & Hrows).
  rewrite writeTableIfLonger_run in Hwrite. injection Hwrite as _ <-.
  exists rows. split; [exact Hrows | reflexivity].
Qed.

Lemma model_table_lists_the_packages_witness :
  let X := Library.externals in
  exists (w' : World) (output' : CustomHtmlEmitter) (rows : list HtmlNode),
    _writeModelTable X (fun _ => ret tt) (newCustomHtmlEmitter 0) 0 emptyWorld
    = (w', Returned output')
    /\ packagesOf X (members (api_ X 0)) = [ 1 ]
    /\ Forall2 (listsMember X 0 (table [ "Package"; "Description" ]))
         (packagesOf X (members (api_ X 0))) rows
    /\ output'
       = withChildrenC (newCustomHtmlEmitter 0)
           [ sectionHeading "Packages";
             block (withRows (table [ "Package"; "Description" ]) rows) ].
Proof.
  intros X.
  destruct (_writeModelTable X (fun _ => ret tt) (newCustomHtmlEmitter 0) 0 emptyWorld)
    as [w' [output' | e | ]] eqn:Hrun; try (vm_compute in Hrun; discriminate).
  destruct (model_table_lists_the_packages X (fun _ => ret tt) (newCustomHtmlEmitter 0)
              output' 0 emptyWorld w' Hrun) as (rows & Hrows & Houtput).
  exists w', output', rows. split; [reflexivity |]. split; [reflexivity |].
  split; [exact Hrows | exact Houtput].
Defined.

(* ================================================================= *)
(** ** The layout of a page *)

Lemma forEach_appends {B : Type}
  (body : CustomHtmlEmitter -> B -> Eff World CustomHtmlEmitter)
  (f : ApiItem -> B -> list HtmlNode) (xs : list B) :
  (forall x output w w' output',
      body output x w = (w', Returned output') ->
      output' = withChildrenC output (f (contextApiItem output) x)) ->
  forall output w w' output',
    forEach body xs output w = (w', Returned output') ->
    output' = withChildrenC output (flat_map (f (contextApiItem output)) xs).
Proof.
  intros H. induction xs as [| x xs IH]; intros output w w' output' Hrun.
  - injection Hrun as _ <-. cbn. rewrite withChildrenC_nil. reflexivity.
  - cbn [forEach] in Hrun. apply bind_inv in Hrun.
    destruct Hrun as (w1 & output1 & Hstep & Hrest).
    apply H in Hstep. subst output1. apply IH in Hrest. subst output'.
    cbn [flat_map]. rewrite withChildrenC_app. reflexivity.
Qed.

Lemma writeSummary_returned (X : Externals) (apiItem : ApiItem)
  (output : CustomHtmlEmitter) (w w' : World) (output' : CustomHtmlEmitter) :
  writeSummary X output apiItem w = (w', Returned output') ->
  output' = withChildrenC output (summaryOf X (contextApiItem output) apiItem).
Proof.
  unfold writeSummary, summaryOf. intros Hrun.
  destruct (isDocumentedItem (api_ X apiItem));
    [| injection Hrun as _ <-; rewrite withChildrenC_nil; reflexivity].
  destruct (tsdocComment (api_ X apiItem)) as [comment |];
    [| injection Hrun as _ <-; rewrite withChildrenC_nil; reflexivity].
  apply bind_inv in Hrun. destruct Hrun as (w1 & nodes & Hnodes & Hsend).
  rewrite createDocNodes_run in Hnodes. injection Hnodes as _ Hnodes. rewrite Hnodes.
  rewrite sendTo_appendChild in Hsend. injection Hsend as _ <-. reflexivity.
Qed.

Lemma writeRemarksSection_returned (X : Externals) (apiItem : ApiItem)
  (output : CustomHtmlEmitter) (w w' : World) (output' : CustomHtmlEmitter) :
  _writeRemarksSection X output apiItem w = (w', Returned output') ->
  output' = withChildrenC output (remarksOf X (contextApiItem output) apiItem).
Proof.
  unfold _writeRemarksSection, remarksOf. intros Hrun.
  destruct (isDocumentedItem (api_ X apiItem));
    [| injection Hrun as _ <-; rewrite withChildrenC_nil; reflexivity].
  destruct (tsdocComment (api_ X apiItem)) as [comment |];
    [| injection Hrun as _ <-; rewrite withChildrenC_nil; reflexivity].
  destruct (remarksBlock comment) as [remarks |];
    [| injection Hrun as _ <-; rewrite withChildrenC_nil; reflexivity].
  unfold bind at 1 in Hrun. rewrite sendTo_appendChild in Hrun.
  apply bind_inv in Hrun. destruct Hrun as (w1 & nodes & Hnodes & Hsend).
  rewrite createDocNodes_run in Hnodes. injection Hnodes as _ Hnodes.
  cbn [contextApiItem withChildrenC] in Hnodes. rewrite Hnodes.
  rewrite sendTo_appendChild in Hsend. injection Hsend as _ <-.
  rewrite withChildrenC_app. reflexivity.
Qed.

(** The loop over the signatures never meets an entity without one. *)
Lemma signatures_run (X : Externals) (apiItems : list ApiItem) :
  forall (output : CustomHtmlEmitter) (w : World),
    forEach (writeSignature X) (filter (hasSignature X) apiItems) output w
    = (w, Returned (withChildrenC output (flat_map (signatureOf X) apiItems))).
Proof.
  induction apiItems as [| x xs IH]; intros output w.
  - cbn. rewrite withChildrenC_nil. reflexivity.
  - cbn [filter flat_map]. unfold hasSignature at 1, signatureOf at 1.
    destruct (declared (api_ X x)) as [d |] eqn:Hd.
    + destruct (0 <? String.length (excerptText d))%nat.
      * cbn [forEach]. unfold bind, writeSignature. rewrite Hd, sendTo_appendChild.
        rewrite IH, withChildrenC_app. reflexivity.
      * rewrite IH. reflexivity.
    + rewrite IH. reflexivity.
Qed.

Lemma some_signature (X : Externals) (apiItems : list ApiItem) :
  (0 <? length (filter (hasSignature X) apiItems))%nat
  = existsb (hasSignature X) apiItems.
Proof.
  induction apiItems as [| x xs IH]; [reflexivity |].
  cbn [filter existsb]. destruct (hasSignature X x); [reflexivity | exact IH].
Qed.

Lemma no_tables_run (X : Externals) (self : ApiItem -> Eff World unit)
  (apiItems : list ApiItem) :
  forallb (fun apiItem => hasNoTables (kind (api_ X apiItem))) apiItems = true ->
  forall (output : CustomHtmlEmitter) (w : World),
    forEach (writeKindTables X self) apiItems output w = (w, Returned output).
Proof.
  induction apiItems as [| x xs IH]; intros H output w; [reflexivity |].
  cbn [forallb] in H. apply andb_prop in H. destruct H as [Hx Hxs].
  cbn [forEach]. unfold bind, writeKindTables.
  destruct (kind (api_ X x)); try discriminate; cbn [ret]; apply IH; exact Hxs.
Qed.

(** X14. The layout of a page.  When the content of the page of the
    entities [apiItems] is complete, no node is left open, the
    document has the one style sheet styles.css, and its body holds
    the site header and the main container.  The main container
    holds, in this order: the breadcrumb (the Home link, then a
    separator and a link for each level of the hierarchy of the first
    entity except models and entry points); the one page header, of
    the kind of the first entity; the summaries of all the entities;
    the heading Signature, when some entity has a signature, and the
    signatures of all the entities; the remarks of all the entities;
    the tables of all the entities.  The page is laid out section
    by section, not entity by entity, and a page of properties,
    property signatures, type aliases and variables has no table. *)
Theorem written_page_layout (X : Externals) (self : ApiItem -> Eff World unit)
  (first : ApiItem) (apiItems : list ApiItem) (w w' : World) (output : CustomHtmlEmitter) :
  writePageContent X self first apiItems w = (w', Returned output) ->
  exists text tables,
    headerTextOf X first = Some text
    /\ output
       = pageOf first
           (breadcrumbOf X first
              ++ [ pageHeader text ]
              ++ flat_map (summaryOf X first) apiItems
              ++ (if existsb (hasSignature X) apiItems
                  then [ tag "div" (ArgString "signature-heading") (ArgString "Signature") ]
                  else [])
              ++ flat_map (signatureOf X) apiItems
              ++ flat_map (remarksOf X first) apiItems
              ++ tables)
    /\ emitDocument (emitter output)
       = [ BlockNode "head" None
             [ SingleNode "link"
                 (Some [ ("rel", "stylesheet"); ("type", "text/css");
                         ("href", "styles.css") ]) ];
           block (root (emitter output)) ]
    /\ (forallb (fun apiItem => hasNoTables (kind (api_ X apiItem))) apiItems = true ->
        tables = []).
Proof.
  intros Hrun. rewrite writePageContent_start in Hrun.
  apply bind_inv in Hrun. destruct Hrun as (w5 & o5 & H5 & Hrun).
  rewrite writePageHeader_run in H5.
  destruct (headerTextOf X first) as [text |] eqn:Htext; [| discriminate].
  injection H5 as <- <-. rewrite withChildrenC_app in Hrun.
  apply bind_inv in Hrun. destruct Hrun as (w6 & o6 & H6 & Hrun).
  assert (Ho6 : o6 = withChildrenC (openedPage first)
                       (breadcrumbOf X first ++ [ pageHeader text ])).
  { destruct (existsb (isBeta X) apiItems); injection H6 as _ <-; reflexivity. }
  subst o6. clear H6.
  apply bind_inv in Hrun. destruct Hrun as (w7 & o7 & H7 & Hrun).
  apply (forEach_appends (writeSummary X) (summaryOf X) apiItems
           (writeSummary_returned X)) in H7.
  cbn [contextApiItem withChildrenC openedPage] in H7. subst o7.
  rewrite withChildrenC_app in Hrun.
  apply bind_inv in Hrun. destruct Hrun as (w8 & o8 & H8 & Hrun).
  rewrite some_signature in H8.
  assert (Ho8 : o8 = withChildrenC
                       (withChildrenC (openedPage first)
                          ((breadcrumbOf X first ++ [ pageHeader text ])
                             ++ flat_map (summaryOf X first) apiItems))
                       (if existsb (hasSignature X) apiItems
                        then [ tag "div" (ArgString "signature-heading")
                                 (ArgString "Signature") ]
                        else [])).
  { destruct (existsb (hasSignature X) apiItems).
    - rewrite sendTo_appendChild in H8. injection H8 as _ <-. reflexivity.
    - injection H8 as _ <-. rewrite withChildrenC_nil. reflexivity. }
  subst o8. clear H8. rewrite withChildrenC_app in Hrun.
  apply bind_inv in Hrun. destruct Hrun as (w9 & o9 & H9 & Hrun).
  rewrite signatures_run in H9. injection H9 as <- <-.
  rewrite withChildrenC_app in Hrun.
  apply bind_inv in Hrun. destruct Hrun as (w10 & o10 & H10 & Hrun).
  apply (forEach_appends (_writeRemarksSection X) (remarksOf X) apiItems
           (writeRemarksSection_returned X)) in H10.
  cbn [contextApiItem withChildrenC openedPage] in H10. subst o10.
  rewrite withChildrenC_app in Hrun.
  apply bind_inv in Hrun. destruct Hrun as (w11 & o11 & H11 & Hrun).
  assert (Htables : exists tables,
             o11 = withChildrenC
                     (withChildrenC (openedPage first)
                        (((((breadcrumbOf X first ++ [ pageHeader text ])
                              ++ flat_map (summaryOf X first) apiItems)
                             ++ (if existsb (hasSignature X) apiItems
                                 then [ tag "div" (ArgString "signature-heading")
                                          (ArgString "Signature") ]
                                 else []))
                            ++ flat_map (signatureOf X) apiItems)
                           ++ flat_map (remarksOf X first) apiItems))
                     tables
             /\ (forallb (fun apiItem => hasNoTables (kind (api_ X apiItem))) apiItems
                 = true -> tables = [])).
  { destruct (forallb (fun apiItem => hasNoTables (kind (api_ X apiItem))) apiItems)
      eqn:Hleaf.
    - rewrite (no_tables_run X self apiItems Hleaf) in H11. injection H11 as _ <-.
      exists []. rewrite withChildrenC_nil. split; reflexivity.
    - apply (appendsOnly_forEach (writeKindTables X self) _
               (fun x _ => appendsOnly_writeKindTables X self x)) in H11.
      destruct H11 as [tables ->]. exists tables. split; [reflexivity | discriminate]. }
  destruct Htables as (tables & -> & Hleaf). rewrite withChildrenC_app in Hrun.
  rewrite <- !app_assoc in Hrun.
  exists text, tables. split; [reflexivity |].
  assert (Hout : output
                 = pageOf first
                     (breadcrumbOf X first
                        ++ [ pageHeader text ]
                        ++ flat_map (summaryOf X first) apiItems
                        ++ (if existsb (hasSignature X) apiItems
                            then [ tag "div" (ArgString "signature-heading")
                                     (ArgString "Signature") ]
                            else [])
                        ++ flat_map (signatureOf X) apiItems
                        ++ flat_map (remarksOf X first) apiItems
                        ++ tables)).
  { unfold openedPage, sendTo, send, call, bind, ret, closeNode, withChildrenC,
      withChildren in Hrun.
    cbn in Hrun. injection Hrun as _ <-. reflexivity. }
  split; [exact Hout |]. split; [rewrite Hout; reflexivity | exact Hleaf].
Qed.

Lemma written_page_layout_witness :
  let X := Library.externals in
  exists (w' : World) (output : CustomHtmlEmitter) (text : string)
         (tables : list HtmlNode),
    writePageContent X (fun _ => ret tt) 18 [ 18 ] emptyWorld = (w', Returned output)
    /\ headerTextOf X 18 = Some text
    /\ text = "count function"
    /\ flat_map (remarksOf X 18) [ 18 ]
       = [ sectionHeading "Remarks";
           BlockNode "div" None
             [ BlockNode "p" None [ TextNode "span" None "Slow on long shelves." ] ] ]
    /\ output
       = pageOf 18
           (breadcrumbOf X 18
              ++ [ pageHeader text ]
              ++ flat_map (summaryOf X 18) [ 18 ]
              ++ (if existsb (hasSignature X) [ 18 ]
                  then [ tag "div" (ArgString "signature-heading") (ArgString "Signature") ]
                  else [])
              ++ flat_map (signatureOf X) [ 18 ]
              ++ flat_map (remarksOf X 18) [ 18 ]
              ++ tables).
Proof.
  intros X.
  destruct (writePageContent X (fun _ => ret tt) 18 [ 18 ] emptyWorld)
    as [w' [output | e | ]] eqn:Hrun; try (vm_compute in Hrun; discriminate).
  destruct (written_page_layout X (fun _ => ret tt) 18 [ 18 ] emptyWorld w' output Hrun)
    as (text & tables & Htext & Hout & _ & _).
  exists w', output, text, tables. split; [reflexivity |]. split; [exact Htext |].
  split; [cbv in Htext; injection Htext as <-; reflexivity |].
  split; [vm_compute; reflexivity | exact Hout].
Defined.

(* ================================================================= *)
(** ** The Returns section *)

(** X15. The Returns section of a callable.  When
    [_writeParameterTables] returns, the page has got the parameters
    section (nothing, or the heading Parameters and the table) and
    then, exactly when the entity has a return type and a doc comment
    with a returns block, the heading Returns and a table of one row:
    the trimmed return type and the first node of the translation of
    the block.  The nodes after the first are dropped, and a block
    that translates to nothing gives a cell that holds undefined. *)
Theorem returns_section_shows_the_first_node (X : Externals)
  (output output' : CustomHtmlEmitter) (apiItem : ApiItem) (w w' : World) :
  _writeParameterTables X output apiItem w = (w', Returned output') ->
  exists parametersSection,
    (parametersSection = []
     \/ exists parametersTable,
         parametersSection = [ sectionHeading "Parameters"; block parametersTable ])
    /\ match returnsOf X apiItem with
       | Some (returnType, returns) =>
           exists nodes,
             translationOf X (contextApiItem output) (blockNodes returns) = Returned nodes
             /\ output'
                = withChildrenC output
                    (parametersSection
                       ++ [ sectionHeading "Returns";
                            block (withRows (table [ "Type"; "Description" ])
                                     [ block (tr [ CellString (trim_ X returnType);
                                                   CellNode (firstNode nodes) ]) ]) ])
             /\ (nodes = [] -> firstNode nodes = UndefinedNode)
             /\ (forall node more, nodes = node :: more -> firstNode nodes = node)
       | None => output' = withChildrenC output parametersSection
       end.
Proof.
  intros Hrun. unfold _writeParameterTables in Hrun.
  destruct (parameterList (api_ X apiItem)) as [pl |]; [| discriminate].
  apply bind_inv in Hrun. destruct Hrun as (w1 & acc & _ & Hrun).
  unfold bind at 1 in Hrun. rewrite writeTableIfLonger_run in Hrun.
  exists (if (1 <? length (content (fst acc)))%nat
          then [ sectionHeading "Parameters"; block (fst acc) ] else []).
  split.
  { destruct (1 <? length (content (fst acc)))%nat;
      [right; exists (fst acc); reflexivity | left; reflexivity]. }
  unfold returnsOf.
  destruct (returnTypeExcerpt (api_ X apiItem)) as [returnType |];
    [| injection Hrun as _ <-; reflexivity].
  destruct (isDocumentedItem (api_ X apiItem));
    [| injection Hrun as _ <-; reflexivity].
  destruct (tsdocComment (api_ X apiItem)) as [comment |];
    [| injection Hrun as _ <-; reflexivity].
  destruct (returnsBlock comment) as [returns |];
    [| injection Hrun as _ <-; reflexivity].
  apply bind_inv in Hrun. destruct Hrun as (w2 & nodes & Hnodes & Hrun).
  rewrite createDocNodes_run in Hnodes. injection Hnodes as _ Hnodes.
  cbn [contextApiItem withChildrenC] in Hnodes.
  cbv zeta in Hrun. unfold bind in Hrun. rewrite !sendTo_appendChild in Hrun.
  injection Hrun as _ <-. rewrite !withChildrenC_app.
  exists nodes. split; [exact Hnodes |]. split; [reflexivity |].
  split; [intros ->; reflexivity | intros node more ->; reflexivity].
Qed.

Lemma returns_section_shows_the_first_node_witness :
  let X := Library.externals in
  exists (w' : World) (output' : CustomHtmlEmitter) (parametersSection : list HtmlNode),
    _writeParameterTables X (newCustomHtmlEmitter 18) 18 emptyWorld
    = (w', Returned output')
    /\ translationOf X 18 [ DocParagraph [ DocPlainText "the number" ];
                            DocParagraph [ DocPlainText "of books" ] ]
       = Returned [ BlockNode "p" None [ TextNode "span" None "the number" ];
                    BlockNode "p" None [ TextNode "span" None "of books" ] ]
    /\ output'
       = withChildrenC (newCustomHtmlEmitter 18)
           (parametersSection
              ++ [ sectionHeading "Returns";
                   block (withRows (table [ "Type"; "Description" ])
                            [ block (tr [ CellString " number ";
                                          CellNode (BlockNode "p" None
                                                      [ TextNode "span" None
                                                          "the number" ]) ]) ]) ]).
Proof.
  intros X.
  destruct (_writeParameterTables X (newCustomHtmlEmitter 18) 18 emptyWorld)
    as [w' [output' | e | ]] eqn:Hrun; try (vm_compute in Hrun; discriminate).
  destruct (returns_section_shows_the_first_node X (newCustomHtmlEmitter 18) output' 18
              emptyWorld w' Hrun) as (parametersSection & _ & H).
  assert (Hreturns : returnsOf X 18
                     = Some (" number ",
                             mkDocBlock "@RETURNS"
                               [ DocParagraph [ DocPlainText "the number" ];
                                 DocParagraph [ DocPlainText "of books" ] ]))
    by reflexivity.
  rewrite Hreturns in H. destruct H as (nodes & Hnodes & Hout & _ & _).
  exists w', output', parametersSection. split; [reflexivity |].
  assert (Hvalue : translationOf X 18
                     [ DocParagraph [ DocPlainText "the number" ];
                       DocParagraph [ DocPlainText "of books" ] ]
                   = Returned [ BlockNode "p" None [ TextNode "span" None "the number" ];
                                BlockNode "p" None [ TextNode "span" None "of books" ] ])
    by (vm_compute; reflexivity).
  split; [exact Hvalue |].
  change (translationOf X 18
            [ DocParagraph [ DocPlainText "the number" ];
              DocParagraph [ DocPlainText "of books" ] ] = Returned nodes) in Hnodes.
  rewrite Hvalue in Hnodes. injection Hnodes as <-. exact Hout.
Defined.

(* ================================================================= *)
(** ** The recursion over the model *)

(** X16. The recursion over the model comes to an end.  On a model
    of finite depth (a rank goes down from every entity to the
    members listed on its page), the run for an entity neither goes
    on for ever nor depends on how deep the recursion is allowed to
    go: with any bound above the rank of the entity the run returns
    or throws, and it is the same run with every larger bound. *)
Theorem page_run_ends_on_a_finite_model (X : Externals) (rank : ApiItem -> nat)
  (fuel fuel' : nat) (apiItem : ApiItem) (w : World) :
  (forall apiItem i m,
      In i (pageUnitOf X apiItem) -> In m (scheduled X i) -> rank m < rank apiItem) ->
  rank apiItem < fuel ->
  fuel <= fuel' ->
  snd (_writeApiItemPage X fuel apiItem w) <> OutOfFuel
  /\ _writeApiItemPage X fuel' apiItem w = _writeApiItemPage X fuel apiItem w.
Proof.
  intros Hrank Hfuel Hle.
  assert (Hends : snd (_writeApiItemPage X fuel apiItem w) <> OutOfFuel).
  { apply (enough_fuel X rank Hrank fuel apiItem Hfuel). }
  split; [exact Hends |].
  apply more_fuel_same_run; assumption.
Qed.

Lemma page_run_ends_on_a_finite_model_witness :
  let X := Scenario.externals in
  snd (_writeApiItemPage X 4 0 emptyWorld) <> OutOfFuel
  /\ _writeApiItemPage X 10 0 emptyWorld = _writeApiItemPage X 4 0 emptyWorld.
Proof.
  intros X.
  apply (page_run_ends_on_a_finite_model X
           (fun i => match i with 0 => 3 | 1 => 2 | 2 => 2 | 3 => 1 | _ => 0 end)
           4 10 0 emptyWorld); [| lia | lia].
  intros apiItem i m Hi Hm.
  do 12 (destruct apiItem as [| apiItem];
         [ vm_compute in Hi;
           repeat (destruct Hi as [<- | Hi]); try contradiction;
           vm_compute in Hm;
           repeat (destruct Hm as [<- | Hm]); try contradiction;
           cbn; lia
         | ]).
  cbn in Hi. destruct Hi as [<- | []]. cbn in Hm. contradiction.
Defined.
